(* ===================================================================== *)
(* GeminiNote: generation pipeline, response parser and safe-apply        *)
(* protocol, embedded from src/unnamed/part_003 (main.ts) and             *)
(* src/unnamed/part_006 (geminiService.ts).                               *)
(* ===================================================================== *)

From Stdlib Require Import ZArith NArith Ascii String Lia Bool.
From stdpp Require Import list gmap.

Local Open Scope Z_scope.

(* ===================================================================== *)
(* 1. JavaScript strings                                                  *)
(* ===================================================================== *)

(** A JavaScript string is a finite sequence of UTF-16 code units.
    A code unit is kept as its numeric value. *)
Module JS.

Abbreviation codeunit := N (only parsing).
Abbreviation jsstring := (list N).

(** Source-level literals are written as Rocq strings and converted. *)
Definition js (s : string) : jsstring :=
  List.map N_of_ascii (list_ascii_of_string s).

Definition LF : codeunit := 10%N.
Definition QUOTE : codeunit := 34%N.
Definition BACKTICK : codeunit := 96%N.

Definition jslength (s : jsstring) : Z := Z.of_nat (length s).

(** WhiteSpace and LineTerminator code units: the set removed by
    [String.prototype.trim] and matched by the regex class [\s]. *)
Definition isWhiteSpace (c : codeunit) : bool :=
  ((9 <=? c) && (c <=? 13) || (c =? 32) || (c =? 160) || (c =? 5760)
   || (8192 <=? c) && (c <=? 8202) || (c =? 8232) || (c =? 8233)
   || (c =? 8239) || (c =? 8287) || (c =? 12288) || (c =? 65279))%N.

(** The regex class [\w] without the unicode flag: [A-Za-z0-9_]. *)
Definition isWordChar (c : codeunit) : bool :=
  ((65 <=? c) && (c <=? 90) || (97 <=? c) && (c <=? 122)
   || (48 <=? c) && (c <=? 57) || (c =? 95))%N.

Fixpoint trimStart (s : jsstring) : jsstring :=
  match s with
  | c :: t => if isWhiteSpace c then trimStart t else s
  | [] => []
  end.

Definition trimEnd (s : jsstring) : jsstring := rev (trimStart (rev s)).

Definition trim (s : jsstring) : jsstring := trimEnd (trimStart s).

(** [startsWith s p]: [p] is a prefix of [s]. *)
Fixpoint startsWith (s p : jsstring) {struct p} : bool :=
  match p, s with
  | [], _ => true
  | _ :: _, [] => false
  | a :: p', b :: s' => (a =? b)%N && startsWith s' p'
  end.

(** [s.indexOf(p)]: least start position of an occurrence, or -1.
    [k] is the position of the head of [s] in the whole string. *)
Fixpoint indexOf_from (s p : jsstring) (k : Z) : Z :=
  if startsWith s p then k
  else match s with
       | [] => -1
       | _ :: t => indexOf_from t p (k + 1)
       end.

Definition indexOf (s p : jsstring) : Z := indexOf_from s p 0.

(** [s.lastIndexOf(p)]: greatest start position of an occurrence, or -1. *)
Fixpoint lastIndexOf_from (s p : jsstring) (k : Z) : Z :=
  match s with
  | [] => if startsWith s p then k else -1
  | _ :: t =>
      let r := lastIndexOf_from t p (k + 1) in
      if r =? -1 then (if startsWith s p then k else -1) else r
  end.

Definition lastIndexOf (s p : jsstring) : Z := lastIndexOf_from s p 0.

(** [s.substring(a, b)]: both ends clamped to [0, length], swapped when
    out of order. *)
Definition clamp (s : jsstring) (i : Z) : nat :=
  Z.to_nat (Z.min (Z.max i 0) (jslength s)).

Definition substring (s : jsstring) (a b : Z) : jsstring :=
  let a' := clamp s a in
  let b' := clamp s b in
  let lo := Nat.min a' b' in
  let hi := Nat.max a' b' in
  take (hi - lo) (drop lo s).

(** [s.split(sep)] for a one-unit separator; never returns the empty list. *)
Fixpoint split (s : jsstring) (sep : codeunit) : list jsstring :=
  match s with
  | [] => [[]]
  | c :: t =>
      if (c =? sep)%N then [] :: split t sep
      else match split t sep with
           | l :: ls => (c :: l) :: ls
           | [] => [[c]]
           end
  end.

(** Number of start positions at which [p] occurs in [s]. *)
Fixpoint occurrences (s p : jsstring) : nat :=
  ((if startsWith s p then 1 else 0) +
   match s with
   | [] => 0
   | _ :: t => occurrences t p
   end)%nat.

End JS.
Import JS.

(* ===================================================================== *)
(* 2. Regular expressions used by the response parser                     *)
(* ===================================================================== *)

(** A backtracking matcher for the fragment of ECMAScript regular
    expressions that occurs in [parseResponse]: literals (compared without
    regard to ASCII case, flag [i]), greedy and lazy repetition of a
    character class, a greedy optional group, one capturing group, and the
    anchors.  [run] lists the matcher's alternatives in the order in which
    backtracking tries them; the first one is the match. *)
Module Regex.

Inductive regex : Type :=
| RBol                                  (* ^ *)
| REol                                  (* $ *)
| RLit (s : jsstring)                   (* literal text *)
| RPlus (p : codeunit -> bool)          (* [p]+ *)
| RStar (p : codeunit -> bool)          (* [p]* *)
| RLazy (p : codeunit -> bool)          (* [p]*? *)
| ROpt (r : regex)                      (* (?:r)? *)
| RGroup (r : regex)                    (* (r), capture 1 *)
| RSeq (r1 r2 : regex).

Record mstate : Type := MState {
  pos : nat;                   (* code units consumed so far *)
  rest : jsstring;             (* input still to be matched *)
  group1 : option jsstring     (* capture 1, when it took part *)
}.

Definition advance (st : mstate) (k : nat) : mstate :=
  MState (pos st + k) (drop k (rest st)) (group1 st).

(** Canonicalize, for patterns whose literals are ASCII. *)
Definition upper (c : codeunit) : codeunit :=
  if ((97 <=? c) && (c <=? 122))%N then (c - 32)%N else c.

Fixpoint startsWith_ci (s p : jsstring) {struct p} : bool :=
  match p, s with
  | [], _ => true
  | _ :: _, [] => false
  | a :: p', b :: s' => (upper a =? upper b)%N && startsWith_ci s' p'
  end.

(** Length of the longest prefix made of units of the class [p]. *)
Fixpoint classRun (p : codeunit -> bool) (s : jsstring) : nat :=
  match s with
  | c :: t => if p c then S (classRun p t) else O
  | [] => O
  end.

Fixpoint run (r : regex) (st : mstate) : list mstate :=
  match r with
  | RBol => if Nat.eqb (pos st) 0 then [st] else []
  | REol => match rest st with [] => [st] | _ :: _ => [] end
  | RLit s => if startsWith_ci (rest st) s then [advance st (length s)] else []
  | RPlus p => List.map (advance st) (rev (seq 1 (classRun p (rest st))))
  | RStar p => List.map (advance st) (rev (seq 0 (S (classRun p (rest st)))))
  | RLazy p => List.map (advance st) (seq 0 (S (classRun p (rest st))))
  | ROpt r' => run r' st ++ [st]
  | RGroup r' =>
      List.map (fun st' =>
                  MState (pos st') (rest st')
                         (Some (take (pos st' - pos st) (rest st))))
               (run r' st)
  | RSeq r1 r2 => List.flat_map (run r2) (run r1 st)
  end.

(** [text.match(r)] for a pattern without the [g] flag: the first start
    position with a match, and at that position the first alternative. *)
Definition matchAt (r : regex) (text : jsstring) (k : nat) : option mstate :=
  head (run r (MState k (drop k text) None)).

Fixpoint firstMatch (r : regex) (text : jsstring) (starts : list nat)
  : option mstate :=
  match starts with
  | [] => None
  | k :: ks =>
      match matchAt r text k with
      | Some m => Some m
      | None => firstMatch r text ks
      end
  end.

Definition regexMatch (text : jsstring) (r : regex) : option mstate :=
  firstMatch r text (seq 0 (S (length text))).

(** [m[1]] of a match object. *)
Definition capture1 (m : mstate) : jsstring := default [] (group1 m).

Definition anyUnit (c : codeunit) : bool := true.

Definition fence : jsstring := [BACKTICK; BACKTICK; BACKTICK].

(** /^```(?:\w+)?\s*([\s\S]*?)\s*```$/i *)
Definition codeBlockRegex_any : regex :=
  RSeq RBol (RSeq (RLit fence) (RSeq (ROpt (RPlus isWordChar))
    (RSeq (RStar isWhiteSpace) (RSeq (RGroup (RLazy anyUnit))
      (RSeq (RStar isWhiteSpace) (RSeq (RLit fence) REol)))))).

(** /^```(?:json)?\s*([\s\S]*?)\s*```$/i *)
Definition codeBlockRegex_json : regex :=
  RSeq RBol (RSeq (RLit fence) (RSeq (ROpt (RLit (js "json")))
    (RSeq (RStar isWhiteSpace) (RSeq (RGroup (RLazy anyUnit))
      (RSeq (RStar isWhiteSpace) (RSeq (RLit fence) REol)))))).

End Regex.
Import Regex.

(* ===================================================================== *)
(* 3. JavaScript values and JSON.parse                                    *)
(* ===================================================================== *)

Module Json.

(** The values [JSON.parse] can produce, and [undefined].  A number is
    kept as the decimal it was written as: sign, digits, power of ten. *)
#[warnings="-register-all"]
Inductive value : Type :=
| JUndefined
| JNull
| JBool (b : bool)
| JNumber (neg : bool) (digits : N) (exp10 : Z)
| JString (s : jsstring)
| JArray (items : list value)
| JObject (members : list (jsstring * value)).

Definition cu (a : ascii) : codeunit := N_of_ascii a.

Definition isJsonWs (c : codeunit) : bool :=
  ((c =? 9) || (c =? 10) || (c =? 13) || (c =? 32))%N.

Fixpoint skipWs (s : jsstring) : jsstring :=
  match s with
  | c :: t => if isJsonWs c then skipWs t else s
  | [] => []
  end.

Definition isDigit (c : codeunit) : bool := ((48 <=? c) && (c <=? 57))%N.

Definition hexDigit (c : codeunit) : option N :=
  if isDigit c then Some (c - 48)%N
  else if ((97 <=? c) && (c <=? 102))%N then Some (c - 87)%N
  else if ((65 <=? c) && (c <=? 70))%N then Some (c - 55)%N
  else None.

Definition hex4 (a b c d : codeunit) : option codeunit :=
  match hexDigit a, hexDigit b, hexDigit c, hexDigit d with
  | Some x, Some y, Some z, Some w => Some (((x * 16 + y) * 16 + z) * 16 + w)%N
  | _, _, _, _ => None
  end.

(** The single-character escapes of a JSON string. *)
Definition escapeUnit (e : codeunit) : option codeunit :=
  if (e =? cu "034")%N then Some (cu "034")
  else if (e =? cu "\")%N then Some (cu "\")
  else if (e =? cu "/")%N then Some (cu "/")
  else if (e =? cu "b")%N then Some 8%N
  else if (e =? cu "f")%N then Some 12%N
  else if (e =? cu "n")%N then Some 10%N
  else if (e =? cu "r")%N then Some 13%N
  else if (e =? cu "t")%N then Some 9%N
  else None.

Definition consUnit (c : codeunit) (r : option (jsstring * jsstring))
  : option (jsstring * jsstring) :=
  match r with
  | Some (str, rest) => Some (c :: str, rest)
  | None => None
  end.

(** The characters of a string after its opening quote, up to and
    including the closing quote. *)
Fixpoint parseStringBody (s : jsstring) : option (jsstring * jsstring) :=
  match s with
  | [] => None
  | c :: t =>
      if (c =? cu "034")%N then Some ([], t)
      else if (c =? cu "\")%N then
        match t with
        | [] => None
        | e :: t' =>
            if (e =? cu "u")%N then
              match t' with
              | h1 :: h2 :: h3 :: h4 :: t'' =>
                  match hex4 h1 h2 h3 h4 with
                  | Some u => consUnit u (parseStringBody t'')
                  | None => None
                  end
              | _ => None
              end
            else
              match escapeUnit e with
              | Some u => consUnit u (parseStringBody t')
              | None => None
              end
        end
      else if (c <? 32)%N then None
      else consUnit c (parseStringBody t)
  end.

(** A maximal run of decimal digits: its value, its length, the rest. *)
Fixpoint digitRun (s : jsstring) (acc : N) (len : nat) : N * nat * jsstring :=
  match s with
  | c :: t => if isDigit c then digitRun t (acc * 10 + (c - 48))%N (S len)
              else (acc, len, s)
  | [] => (acc, len, s)
  end.

(** A JSON number: optional minus, an integer part without a leading
    zero (or a lone zero), an optional fraction and an optional exponent,
    each with at least one digit. *)
Definition parseNumber (s : jsstring) : option (value * jsstring) :=
  let '(neg, s1) :=
    match s with
    | c :: t => if (c =? cu "-")%N then (true, t) else (false, s)
    | [] => (false, s)
    end in
  let '(ip, ilen, s2) := digitRun s1 0%N O in
  let leadingZero :=
    match s1 with c :: _ => (c =? cu "0")%N | [] => false end in
  if Nat.eqb ilen 0 then None
  else if leadingZero && negb (Nat.eqb ilen 1) then None
  else
    let frac :=
      match s2 with
      | c :: t =>
          if (c =? cu ".")%N then
            let '(m, flen, s3) := digitRun t ip O in
            if Nat.eqb flen 0 then None else Some (m, flen, s3)
          else Some (ip, O, s2)
      | [] => Some (ip, O, s2)
      end in
    match frac with
    | None => None
    | Some (m, flen, s3) =>
        match s3 with
        | c :: t =>
            if ((c =? cu "e") || (c =? cu "E"))%N then
              let '(eneg, t1) :=
                match t with
                | d :: t' =>
                    if (d =? cu "-")%N then (true, t')
                    else if (d =? cu "+")%N then (false, t')
                    else (false, t)
                | [] => (false, t)
                end in
              let '(e, elen, s4) := digitRun t1 0%N O in
              if Nat.eqb elen 0 then None
              else
                let ez := if eneg then - Z.of_N e else Z.of_N e in
                Some (JNumber neg m (ez - Z.of_nat flen), s4)
            else Some (JNumber neg m (- Z.of_nat flen), s3)
        | [] => Some (JNumber neg m (- Z.of_nat flen), s3)
        end
    end.

(** Recursive descent over the JSON grammar.  Every recursive call is made
    after at least one code unit was consumed or one level of fuel was
    spent on the call that consumes one; [JSON_parse] supplies twice the
    input length. *)
Fixpoint parseValue (fuel : nat) (s : jsstring) : option (value * jsstring) :=
  match fuel with
  | O => None
  | S f =>
      match skipWs s with
      | [] => None
      | c :: t =>
          if (c =? cu "{")%N then
            match skipWs t with
            | d :: t' =>
                if (d =? cu "}")%N then Some (JObject [], t')
                else match parseMembers f (skipWs t) with
                     | Some (ms, r) => Some (JObject ms, r)
                     | None => None
                     end
            | [] => None
            end
          else if (c =? cu "[")%N then
            match skipWs t with
            | d :: t' =>
                if (d =? cu "]")%N then Some (JArray [], t')
                else match parseElements f (skipWs t) with
                     | Some (vs, r) => Some (JArray vs, r)
                     | None => None
                     end
            | [] => None
            end
          else if (c =? cu "034")%N then
            match parseStringBody t with
            | Some (str, r) => Some (JString str, r)
            | None => None
            end
          else if startsWith (c :: t) (js "true") then
            Some (JBool true, drop 4 (c :: t))
          else if startsWith (c :: t) (js "false") then
            Some (JBool false, drop 5 (c :: t))
          else if startsWith (c :: t) (js "null") then
            Some (JNull, drop 4 (c :: t))
          else parseNumber (c :: t)
      end
  end
with parseElements (fuel : nat) (s : jsstring)
  : option (list value * jsstring) :=
  match fuel with
  | O => None
  | S f =>
      match parseValue f s with
      | None => None
      | Some (v, r) =>
          match skipWs r with
          | c :: t =>
              if (c =? cu ",")%N then
                match parseElements f t with
                | Some (vs, r') => Some (v :: vs, r')
                | None => None
                end
              else if (c =? cu "]")%N then Some ([v], t)
              else None
          | [] => None
          end
      end
  end
with parseMembers (fuel : nat) (s : jsstring)
  : option (list (jsstring * value) * jsstring) :=
  match fuel with
  | O => None
  | S f =>
      match skipWs s with
      | q :: t =>
          if (q =? cu "034")%N then
            match parseStringBody t with
            | None => None
            | Some (key, r) =>
                match skipWs r with
                | c :: r1 =>
                    if (c =? cu ":")%N then
                      match parseValue f r1 with
                      | None => None
                      | Some (v, r2) =>
                          match skipWs r2 with
                          | d :: r3 =>
                              if (d =? cu ",")%N then
                                match parseMembers f r3 with
                                | Some (ms, r') => Some ((key, v) :: ms, r')
                                | None => None
                                end
                              else if (d =? cu "}")%N then Some ([(key, v)], r3)
                              else None
                          | [] => None
                          end
                      end
                    else None
                | [] => None
                end
            end
          else None
      | [] => None
      end
  end.

(** [JSON.parse(text)]: [None] stands for the SyntaxError it throws. *)
Definition JSON_parse (text : jsstring) : option value :=
  match parseValue (2 * length text + 2) text with
  | Some (v, r) => match skipWs r with [] => Some v | _ :: _ => None end
  | None => None
  end.

(** Own property [k] of an object literal; a repeated key keeps its last
    value. *)
Fixpoint lookupMember (ms : list (jsstring * value)) (k : jsstring)
  : option value :=
  match ms with
  | [] => None
  | (k', v) :: ms' =>
      match lookupMember ms' k with
      | Some v' => Some v'
      | None => if decide (k' = k) then Some v else None
      end
  end.

(** [v.k] for the property names this program reads (none of them is
    defined on a built-in prototype).  [None] is the TypeError raised on
    [null] and [undefined]. *)
Definition getProp (v : value) (k : jsstring) : option value :=
  match v with
  | JUndefined | JNull => None
  | JObject ms => Some (default JUndefined (lookupMember ms k))
  | _ => Some JUndefined
  end.

(** [v[0]]. *)
Definition getIndex0 (v : value) : option value :=
  match v with
  | JUndefined | JNull => None
  | JObject ms => Some (default JUndefined (lookupMember ms (js "0")))
  | JArray items => Some (default JUndefined (head items))
  | JString s => Some (match s with c :: _ => JString [c] | [] => JUndefined end)
  | _ => Some JUndefined
  end.

(** A decimal [digits * 10^exp10] converts to the double 0 when it is 0 or
    at most half the least subnormal, 2^-1075. *)
Definition numberIsZero (digits : N) (exp10 : Z) : bool :=
  (digits =? 0)%N
  || ((exp10 <? 0) && (Z.of_N digits * 2 ^ 1075 <=? 10 ^ (- exp10))).

(** ToBoolean. *)
Definition toBoolean (v : value) : bool :=
  match v with
  | JUndefined | JNull => false
  | JBool b => b
  | JNumber _ d e => negb (numberIsZero d e)
  | JString s => match s with [] => false | _ :: _ => true end
  | JArray _ | JObject _ => true
  end.

Definition typeofIsString (v : value) : bool :=
  match v with JString _ => true | _ => false end.

End Json.
Import Json.

(* ===================================================================== *)
(* 4. Data model (types.ts)                                               *)
(* ===================================================================== *)

Inductive OutputAction : Type :=
| create_note
| replace_selection
| insert_after.

Inductive ContextType : Type :=
| selection_only
| selection_and_full_note.

Record GeminiNoteSettings : Type := {
  apiKey : jsstring;
  apiHost : jsstring;
  modelName : jsstring
}.

Record GenerationRequest : Type := {
  instructionContent : jsstring;
  contextType : ContextType;
  saveLocation : jsstring;
  selectedText : jsstring;
  contextBefore : jsstring;
  contextAfter : jsstring;
  parentNoteContent : jsstring;
  parentNoteTitle : jsstring;
  backgroundContext : jsstring;
  outputAction : OutputAction
}.

(** [anchorLabel] is declared [string | undefined] but is filled with
    whatever the parsed object holds under that key. *)
Record GenerationResponse : Type := {
  title : jsstring;
  content : jsstring;
  anchorLabel : value;
  isFallback : bool
}.

(* ===================================================================== *)
(* 5. GeminiService (geminiService.ts)                                    *)
(* ===================================================================== *)

Module GeminiService.

(** Errors thrown inside the service. *)
Inductive error : Type :=
| ApiKeyNotSet
| SdkError (cause : jsstring)            (* "Gemini SDK Error: ..." *)
| HttpError (status : Z)                 (* "HTTP Error <status>: ..." *)
| EmptyResponse                          (* "Empty response from API" *)
| HostFailure (cause : jsstring)         (* requestUrl rejected *)
| TypeError
| ApiRequestFailed (cause : error).      (* "API Request Failed: ..." *)

Inductive result (A : Type) : Type :=
| Ok (a : A)
| Err (e : error).
Arguments Ok {A} a.
Arguments Err {A} e.

(* ---- isValidResponse ------------------------------------------------ *)

(** return obj && typeof obj.title === 'string'
                && typeof obj.content === 'string'; *)
Definition isValidResponse (obj : value) : bool :=
  if toBoolean obj then
    match getProp obj (js "title") with
    | Some t =>
        typeofIsString t &&
        match getProp obj (js "content") with
        | Some c => typeofIsString c
        | None => false
        end
    | None => false
    end
  else false.

(** The object literal returned for a validated candidate:
    { title: parsed.title, content: parsed.content,
      anchorLabel: parsed.anchorLabel, isFallback: false } *)
Definition structuredResponse (parsed : value) : option GenerationResponse :=
  match getProp parsed (js "title"),
        getProp parsed (js "content"),
        getProp parsed (js "anchorLabel") with
  | Some (JString t), Some (JString c), Some a =>
      Some {| title := t; content := c; anchorLabel := a;
              isFallback := false |}
  | _, _, _ => None
  end.

(** One try block: parse, validate, return; a SyntaxError or a rejected
    candidate falls through to the next tier. *)
Definition tryStructured (text : jsstring) : option GenerationResponse :=
  match JSON_parse text with
  | Some parsed =>
      if isValidResponse parsed then structuredResponse parsed else None
  | None => None
  end.

Definition PLACEHOLDER_TITLE : jsstring := js "Untitled Gemini Note".

Definition fallbackResponse (rawResponse : jsstring) : GenerationResponse :=
  {| title := PLACEHOLDER_TITLE; content := rawResponse;
     anchorLabel := JUndefined; isFallback := true |}.

(** The text handed to the first [JSON.parse]. *)
Definition cleanJson (rawResponse : jsstring) : jsstring :=
  let textToParse := trim rawResponse in
  match regexMatch textToParse codeBlockRegex_json with
  | Some m => trim (capture1 m)
  | None => textToParse
  end.

(** The text handed to the second [JSON.parse], when the braces are found. *)
Definition jsonSubstring (rawResponse : jsstring) : option jsstring :=
  let firstBrace := indexOf rawResponse (js "{") in
  let lastBrace := lastIndexOf rawResponse (js "}") in
  if negb (firstBrace =? -1) && negb (lastBrace =? -1)
     && (firstBrace <? lastBrace)
  then Some (substring rawResponse firstBrace (lastBrace + 1))
  else None.

Definition parseResponse (rawResponse : jsstring) (expectJson : bool)
  : GenerationResponse :=
  let textToParse := trim rawResponse in
  if negb expectJson then
    {| title := [];
       content := match regexMatch textToParse codeBlockRegex_any with
                  | Some m => trim (capture1 m)
                  | None => textToParse
                  end;
       anchorLabel := JUndefined;
       isFallback := false |}
  else
    match tryStructured (cleanJson rawResponse) with
    | Some r => r
    | None =>
        match match jsonSubstring rawResponse with
              | Some sub => tryStructured sub
              | None => None
              end with
        | Some r => r
        | None => fallbackResponse rawResponse
        end
    end.

(* ---- transport ------------------------------------------------------ *)

(** What the provider's client library does with one call: it throws, or
    it returns a response whose [text] may be undefined. *)
Inductive SdkReply : Type :=
| SdkThrows (cause : jsstring)
| SdkReturns (text : option jsstring).

(** What [requestUrl] does with one call: it rejects, or it returns a
    status and a body; [json] is [None] when the body is not JSON and
    reading [response.json] throws. *)
Record HttpResponse : Type := {
  status : Z;
  json : option value
}.

Inductive HostReply : Type :=
| RequestRejects (cause : jsstring)
| RequestReturns (r : HttpResponse).

Record Provider : Type := {
  sdkReply : SdkReply;
  hostReply : HostReply
}.

(** return response.text || ''; *)
Definition generateWithSdk (reply : SdkReply) : result jsstring :=
  match reply with
  | SdkThrows cause => Err (SdkError cause)
  | SdkReturns text =>
      match text with
      | Some (c :: t) => Ok (c :: t)
      | Some [] | None => Ok []
      end
  end.

(** [v?.k] *)
Definition optProp (v : value) (k : jsstring) : value :=
  match v with
  | JUndefined | JNull => JUndefined
  | _ => default JUndefined (getProp v k)
  end.

(** [v?.[0]] *)
Definition optIndex0 (v : value) : value :=
  match v with
  | JUndefined | JNull => JUndefined
  | _ => default JUndefined (getIndex0 v)
  end.

(** data.candidates?.[0]?.content?.parts?.[0]?.text; the first access is
    not optional and throws on [null]. *)
Definition extractText (data : value) : result value :=
  match getProp data (js "candidates") with
  | None => Err TypeError
  | Some candidates =>
      Ok (optProp (optIndex0 (optProp (optProp (optIndex0 candidates)
                                                (js "content"))
                                      (js "parts")))
                  (js "text"))
  end.

(** The value returned is typed as a string, but it is whatever truthy
    value sits at that place in the body. *)
Definition generateWithCustomHost (reply : HostReply) : result value :=
  let attempt : result value :=
    match reply with
    | RequestRejects cause => Err (HostFailure cause)
    | RequestReturns response =>
        if 400 <=? status response then Err (HttpError (status response))
        else
          match json response with
          | None => Err TypeError
          | Some data =>
              match extractText data with
              | Err e => Err e
              | Ok text =>
                  if negb (toBoolean text) then Err EmptyResponse
                  else Ok text
              end
          end
    end in
  match attempt with
  | Ok text => Ok text
  | Err e => Err (ApiRequestFailed e)
  end.

(** The prompt only determines what is sent; what comes back is given by
    [provider], so prompt assembly is not part of the model. *)
Definition generateNote (settings : GeminiNoteSettings)
  (request : GenerationRequest) (provider : Provider)
  : result GenerationResponse :=
  match apiKey settings with
  | [] => Err ApiKeyNotSet
  | _ :: _ =>
      let isCreateNote :=
        match outputAction request with
        | create_note => true
        | _ => false
        end in
      let responseText : result value :=
        match apiHost settings, trim (apiHost settings) with
        | _ :: _, _ :: _ => generateWithCustomHost (hostReply provider)
        | _, _ =>
            match generateWithSdk (sdkReply provider) with
            | Ok s => Ok (JString s)
            | Err e => Err e
            end
        end in
      match responseText with
      | Err e => Err e
      | Ok (JString s) => Ok (parseResponse s isCreateNote)
      | Ok _ => Err TypeError       (* rawResponse.trim is not a function *)
      end
  end.

End GeminiService.
Import GeminiService.

(* ===================================================================== *)
(* 6. The host: editor, vault, clipboard, notices                         *)
(* ===================================================================== *)

Module Host.

(* ---- editor --------------------------------------------------------- *)

Record EditorPosition : Type := { line : nat; ch : nat }.

(** The editor holds the document text and one selection range, kept as
    two offsets into the text (anchor and head, in either order). *)
Record Editor : Type := {
  doc : jsstring;
  selAnchor : nat;
  selHead : nat
}.

Definition selFrom (e : Editor) : nat := Nat.min (selAnchor e) (selHead e).
Definition selTo (e : Editor) : nat := Nat.max (selAnchor e) (selHead e).

(** Offset of a line/column position: lines are separated by LF, a column
    past the end of its line is clipped to the line end, and a line past
    the last one gives the end of the document. *)
Fixpoint posToOffset (text : jsstring) (l c : nat) : nat :=
  match text with
  | [] => O
  | u :: t =>
      if (u =? LF)%N then
        match l with
        | O => O
        | S l' => S (posToOffset t l' c)
        end
      else
        match l, c with
        | O, O => O
        | O, S c' => S (posToOffset t O c')
        | S _, _ => S (posToOffset t l c)
        end
  end.

Definition offsetOf (e : Editor) (p : EditorPosition) : nat :=
  posToOffset (doc e) (line p) (ch p).

Definition getSelection (e : Editor) : jsstring :=
  take (selTo e - selFrom e) (drop (selFrom e) (doc e)).

Definition getValue (e : Editor) : jsstring := doc e.

Definition setSelection (e : Editor) (anchor head : EditorPosition) : Editor :=
  {| doc := doc e;
     selAnchor := offsetOf e anchor;
     selHead := offsetOf e head |}.

(** One edit: the selected range is replaced and the cursor is left after
    the inserted text. *)
Definition replaceSelection (e : Editor) (text : jsstring) : Editor :=
  {| doc := take (selFrom e) (doc e) ++ text ++ drop (selTo e) (doc e);
     selAnchor := selFrom e + length text;
     selHead := selFrom e + length text |}.

(* ---- vault ---------------------------------------------------------- *)

Record TFile : Type := {
  path : jsstring;
  basename : jsstring;
  parentPath : option jsstring      (* parent?.path *)
}.

Record Vault : Type := {
  files : gmap jsstring jsstring;    (* path -> content *)
  folders : gset jsstring
}.

(** [getAbstractFileByPath(p)] is only tested for truthiness. *)
Definition existsAt (v : Vault) (p : jsstring) : bool :=
  bool_decide (is_Some (files v !! p)) || bool_decide (p ∈ folders v).

(** Text after the last [/]. *)
Definition fileName (p : jsstring) : jsstring :=
  default [] (last (split p (cu "/"))).

(** File name without its extension. *)
Definition baseName (p : jsstring) : jsstring :=
  let name := fileName p in
  let dot := lastIndexOf name (js ".") in
  if dot <=? 0 then name else substring name 0 dot.

Definition dirName (p : jsstring) : jsstring :=
  let slash := lastIndexOf p (js "/") in
  if slash <? 0 then js "/" else substring p 0 slash.

Definition fileAt (p : jsstring) : TFile :=
  {| path := p; basename := baseName p; parentPath := Some (dirName p) |}.

(* ---- notices, log, world -------------------------------------------- *)

Inductive Notice : Type :=
| NoticeSelectFirst           (* "Please select some text first." *)
| NoticeNoApiKey              (* "Gemini API key is not set. ..." *)
| NoticeGenerating            (* "Generating response with Gemini..." *)
| NoticeSelectionChanged      (* "Selection changed. Result copied to clipboard." *)
| NoticeReplaced              (* "Replaced text with AI generation." *)
| NoticeInserted              (* "Inserted AI generation after selection." *)
| NoticeFailed                (* "Failed to get a response from Gemini. ..." *)
| NoticeUnstructured          (* "AI response was unstructured. ..." *)
| NoticeCreated (name : jsstring)      (* "Successfully created note: <name>" *)
| NoticeExists (target : jsstring).    (* "Note '<target>' already exists. Aborting." *)

(** Every call the plugin makes on the host, in the order made. *)
Inductive Event : Type :=
| EvNotice (n : Notice)
| EvNoticeHide
| EvGetSelection
| EvGetValue
| EvSetSelection (anchor head : EditorPosition)
| EvReplaceSelection (text : jsstring)
| EvCreateFolder (p : jsstring)
| EvVaultCreate (p content : jsstring)
| EvClipboardWrite (text : jsstring).

Record World : Type := {
  editor : Editor;
  vault : Vault;
  clipboard : option jsstring;
  log : list Event
}.

Definition logged (w : World) (ev : Event) : World :=
  {| editor := editor w; vault := vault w; clipboard := clipboard w;
     log := log w ++ [ev] |}.

Definition withEditor (w : World) (e : Editor) : World :=
  {| editor := e; vault := vault w; clipboard := clipboard w; log := log w |}.

Definition withVault (w : World) (v : Vault) : World :=
  {| editor := editor w; vault := v; clipboard := clipboard w; log := log w |}.

Definition withClipboard (w : World) (text : jsstring) : World :=
  {| editor := editor w; vault := vault w; clipboard := Some text;
     log := log w |}.

(** The world in which the plugin resumes after waiting for the vault:
    the editor, the vault and the clipboard are what the user made of
    them in the meantime; the log holds the calls of the plugin only and
    is carried over. *)
Definition resumed (meanwhile : World -> World) (w : World) : World :=
  {| editor := editor (meanwhile w); vault := vault (meanwhile w);
     clipboard := clipboard (meanwhile w); log := log w |}.

(* ---- the monad of plugin code --------------------------------------- *)

Inductive exn : Type :=
| ExService (e : error)
| ExTypeError
| ExVault.                    (* the vault refused an operation *)

Inductive outcome (A : Type) : Type :=
| Done (a : A) (w : World)
| Raised (e : exn) (w : World).
Arguments Done {A} a w.
Arguments Raised {A} e w.

Definition M (A : Type) : Type := World -> outcome A.

Definition ret {A} (a : A) : M A := fun w => Done a w.

Definition bind {A B} (m : M A) (k : A -> M B) : M B :=
  fun w =>
    match m w with
    | Done a w' => k a w'
    | Raised e w' => Raised e w'
    end.

Definition throw {A} (e : exn) : M A := fun w => Raised e w.

Definition tryCatch {A} (m : M A) (handler : exn -> M A) : M A :=
  fun w =>
    match m w with
    | Done a w' => Done a w'
    | Raised e w' => handler e w'
    end.

Definition finalWorld {A} (o : outcome A) : World :=
  match o with
  | Done _ w => w
  | Raised _ w => w
  end.

End Host.
Import Host.

Declare Scope plugin_scope.
Delimit Scope plugin_scope with plugin.
Notation "x <- m ;; k" := (bind m (fun x => k))
  (at level 100, m at next level, right associativity) : plugin_scope.
Notation "m ;; k" := (bind m (fun _ => k))
  (at level 100, right associativity) : plugin_scope.

Module HostCalls.
Local Open Scope plugin_scope.

Definition notice (n : Notice) : M unit :=
  fun w => Done tt (logged w (EvNotice n)).

Definition noticeHide : M unit :=
  fun w => Done tt (logged w EvNoticeHide).

Definition editor_getSelection : M jsstring :=
  fun w => Done (getSelection (editor w)) (logged w EvGetSelection).

Definition editor_getValue : M jsstring :=
  fun w => Done (getValue (editor w)) (logged w EvGetValue).

Definition editor_setSelection (anchor head : EditorPosition) : M unit :=
  fun w => Done tt (logged (withEditor w (setSelection (editor w) anchor head))
                           (EvSetSelection anchor head)).

Definition editor_replaceSelection (text : jsstring) : M unit :=
  fun w => Done tt (logged (withEditor w (replaceSelection (editor w) text))
                           (EvReplaceSelection text)).

Definition vault_exists (p : jsstring) : M bool :=
  fun w => Done (existsAt (vault w) p) w.

(** [await vault.createFolder(p)] rejects when something is already
    there.  The vault looks at the path when it is called; the plugin is
    suspended until the promise settles, and [meanwhile] is what the user
    does in that time. *)
Definition vault_createFolder (p : jsstring) (meanwhile : World -> World)
  : M unit :=
  fun w =>
    let w1 := logged w (EvCreateFolder p) in
    if existsAt (vault w) p then Raised ExVault (resumed meanwhile w1)
    else Done tt (resumed meanwhile
                    (withVault w1 {| files := files (vault w);
                                     folders := {[ p ]} ∪ folders (vault w) |})).

(** [await vault.create(p, data)] rejects when something is already
    there; otherwise the file exists with exactly that content when the
    vault is done, and the plugin resumes after whatever the user did
    [meanwhile]. *)
Definition vault_create (p data : jsstring) (meanwhile : World -> World)
  : M TFile :=
  fun w =>
    let w1 := logged w (EvVaultCreate p data) in
    if existsAt (vault w) p then Raised ExVault (resumed meanwhile w1)
    else Done (fileAt p)
              (resumed meanwhile
                 (withVault w1 {| files := <[ p := data ]> (files (vault w));
                                  folders := folders (vault w) |})).

Definition clipboard_writeText (text : jsstring) : M unit :=
  fun w => Done tt (logged (withClipboard w text) (EvClipboardWrite text)).

(** [await promise]: the plugin is suspended; when it resumes the world is
    whatever the user made of it in the meantime. *)
Definition await {A} (r : result A) (during : World -> World) : M A :=
  fun w =>
    match r with
    | Ok a => Done a (during w)
    | Err e => Raised (ExService e) (during w)
    end.

End HostCalls.
Import HostCalls.

(* ===================================================================== *)
(* 7. GeminiNotePlugin (main.ts)                                          *)
(* ===================================================================== *)

Module Plugin.
Section WithHost.
Local Open Scope plugin_scope.

(** Two host functions the plugin calls and that are left open:
    Obsidian's [normalizePath], and the rendering of a number by a
    template literal. *)
Variable normalizePath : jsstring -> jsstring.
Variable numberToString : bool -> N -> Z -> jsstring.

(** What the user does while the plugin waits for the vault to create the
    target folder, and while it waits for the vault to write the note.
    An [await] on a promise that is already settled resumes before any
    event of the user is handled, so these two calls and the call to the
    provider are the only places where the user gets a turn. *)
Variable whileCreatingFolder : World -> World.
Variable whileCreatingFile : World -> World.

(** ToString, as applied by a template literal; [None] is a TypeError.
    An object made by [JSON.parse] inherits [Object.prototype.toString]
    unless it has a key [toString] of its own; the value under that key is
    not callable, [valueOf] gives back the object, and the conversion to a
    primitive throws.  A list is joined with commas, [null] rendered as
    nothing, and throws when one of its items does. *)
Fixpoint toString (v : value) : option jsstring :=
  match v with
  | JUndefined => Some (js "undefined")
  | JNull => Some (js "null")
  | JBool true => Some (js "true")
  | JBool false => Some (js "false")
  | JNumber neg d e => Some (numberToString neg d e)
  | JString s => Some s
  | JArray items =>
      (fix joinItems (l : list value) : option jsstring :=
         match l with
         | [] => Some []
         | x :: l' =>
             match match x with
                   | JUndefined | JNull => Some []
                   | _ => toString x
                   end with
             | None => None
             | Some first =>
                 match l' with
                 | [] => Some first
                 | _ :: _ =>
                     match joinItems l' with
                     | None => None
                     | Some others => Some (first ++ js "," ++ others)
                     end
                 end
             end
         end) items
  | JObject members =>
      match lookupMember members (js "toString") with
      | Some _ => None
      | None => Some (js "[object Object]")
      end
  end.

(** The character class of the title pattern: backslash, slash, colon,
    asterisk, question mark, double quote, angle brackets and bar. *)
Definition isIllegalInFileName (c : codeunit) : bool :=
  ((c =? cu "\") || (c =? cu "/") || (c =? cu ":") || (c =? cu "*")
   || (c =? cu "?") || (c =? cu "034") || (c =? cu "<") || (c =? cu ">")
   || (c =? cu "|"))%N.

(** title.replace(<that class>, flag g, '') *)
Definition removeIllegal (s : jsstring) : jsstring :=
  List.filter (fun c => negb (isIllegalInFileName c)) s.

Definition safeTitleOf (response : GenerationResponse) : jsstring :=
  trim (removeIllegal (title response)).

(** `[[${target}|${label}]]` *)
Definition wikiLink (target label : jsstring) : jsstring :=
  js "[[" ++ target ++ js "|" ++ label ++ js "]]".

(** `Generated from: [[${path}|${basename}]]\n\n---\n\n` *)
Definition parentLink (parentFile : TFile) : jsstring :=
  js "Generated from: " ++ wikiLink (path parentFile) (basename parentFile)
  ++ [LF; LF] ++ js "---" ++ [LF; LF].

(** The folder of the new note before the file name is appended. *)
Definition targetFolderOf (request : GenerationRequest) (parentFile : TFile)
  : jsstring :=
  match saveLocation request with
  | [] => default [] (parentPath parentFile)
  | _ :: _ => normalizePath (saveLocation request)
  end.

Definition targetPathOf (response : GenerationResponse)
  (request : GenerationRequest) (parentFile : TFile) : jsstring :=
  normalizePath (targetFolderOf request parentFile ++ js "/"
                 ++ safeTitleOf response ++ js ".md").

(** Lines 206-227.  The two calls that change the vault are awaited: the
    target path is looked up after the user had a turn during the
    creation of the folder, and the caller resumes after the user had a
    turn during the write. *)
Definition createNoteFile (response : GenerationResponse)
  (request : GenerationRequest) (parentFile : TFile) : M (option TFile) :=
  let targetFolder := targetFolderOf request parentFile in
  match saveLocation request with
  | [] => ret tt
  | _ :: _ =>
      present <- vault_exists targetFolder ;;
      if present then ret tt
      else vault_createFolder targetFolder whileCreatingFolder
  end ;;
  let safeTitle := safeTitleOf response in
  let targetPath := normalizePath (targetFolder ++ js "/" ++ safeTitle
                                   ++ js ".md") in
  taken <- vault_exists targetPath ;;
  if taken then
    notice (NoticeExists targetPath) ;;
    ret None
  else
    let fullContent := parentLink parentFile ++ content response in
    newFile <- vault_create targetPath fullContent whileCreatingFile ;;
    ret (Some newFile).

(** response.anchorLabel && response.anchorLabel.trim() !== ''
      ? response.anchorLabel : request.selectedText *)
Definition linkLabelOf (response : GenerationResponse)
  (request : GenerationRequest) : M jsstring :=
  if toBoolean (anchorLabel response) then
    match anchorLabel response with
    | JString s =>
        match trim s with
        | [] => ret (selectedText request)
        | _ :: _ => ret s
        end
    | _ => throw ExTypeError       (* anchorLabel.trim is not a function *)
    end
  else ret (selectedText request).

Definition handleCreateNoteAction (response : GenerationResponse)
  (request : GenerationRequest) (parentFile : TFile) : M unit :=
  created <- createNoteFile response request parentFile ;;
  match created with
  | None => ret tt
  | Some newFile =>
      linkLabel <- linkLabelOf response request ;;
      let linkText := wikiLink (path newFile) linkLabel in
      editor_replaceSelection linkText ;;
      if isFallback response then notice NoticeUnstructured
      else notice (NoticeCreated (basename newFile))
  end.

(** Lines 123-153: compare the live selection with the snapshot, and look
    for the snapshot in the document only when they differ. *)
Definition reconcile (snapshotText : jsstring) : M bool :=
  currentSelection <- editor_getSelection ;;
  if decide (currentSelection = snapshotText) then ret true
  else
    docContent <- editor_getValue ;;
    let firstIndex := indexOf docContent snapshotText in
    let lastIndex := lastIndexOf docContent snapshotText in
    if negb (firstIndex =? -1) && (firstIndex =? lastIndex) then
      let prefix := substring docContent 0 firstIndex in
      let lines := split prefix LF in
      let line := (length lines - 1)%nat in
      let ch := length (default [] (last lines)) in
      let endPrefix :=
        substring docContent 0 (firstIndex + jslength snapshotText) in
      let endLines := split endPrefix LF in
      let endLine := (length endLines - 1)%nat in
      let endCh := length (default [] (last endLines)) in
      editor_setSelection {| line := line; ch := ch |}
                          {| line := endLine; ch := endCh |} ;;
      ret true
    else ret false.

(** The text put on the clipboard for a diverted [create_note] run:
    response.anchorLabel ? `[[${response.title}|${response.anchorLabel}]]`
                         : `[[${response.title}|${snapshotText}]]`
    [None] when rendering the label throws. *)
Definition clipboardLink (response : GenerationResponse)
  (snapshotText : jsstring) : option jsstring :=
  if toBoolean (anchorLabel response)
  then match toString (anchorLabel response) with
       | Some label => Some (wikiLink (title response) label)
       | None => None
       end
  else Some (wikiLink (title response) snapshotText).

(** Lines 155-168: the selection could not be found again. *)
Definition divertToClipboard (response : GenerationResponse)
  (request : GenerationRequest) (parentFile : TFile)
  (snapshotText : jsstring) : M unit :=
  notice NoticeSelectionChanged ;;
  clipboardText <-
    match outputAction request with
    | create_note =>
        match clipboardLink response snapshotText with
        | None => throw ExTypeError
        | Some clipboardText =>
            createNoteFile response request parentFile ;;
            ret clipboardText
        end
    | _ => ret (content response)
    end ;;
  clipboard_writeText clipboardText.

(** Lines 170-179: the edit itself. *)
Definition applyAction (response : GenerationResponse)
  (request : GenerationRequest) (parentFile : TFile)
  (snapshotText : jsstring) : M unit :=
  match outputAction request with
  | create_note => handleCreateNoteAction response request parentFile
  | replace_selection =>
      editor_replaceSelection (content response) ;;
      notice NoticeReplaced
  | insert_after =>
      let newText := snapshotText ++ [LF; LF] ++ content response in
      editor_replaceSelection newText ;;
      notice NoticeInserted
  end.

(** What follows the await inside the try block. *)
Definition afterResponse (response : GenerationResponse)
  (request : GenerationRequest) (parentFile : TFile)
  (snapshotText : jsstring) : M unit :=
  noticeHide ;;
  safeToReplace <- reconcile snapshotText ;;
  if negb safeToReplace then
    divertToClipboard response request parentFile snapshotText
  else applyAction response request parentFile snapshotText.

(** The catch block. *)
Definition onFailure (error : exn) : M unit :=
  noticeHide ;; notice NoticeFailed.

(** [during] is what the user does to the world while the call to the
    provider is in flight. *)
Definition runGeneration (settings : GeminiNoteSettings)
  (request : GenerationRequest) (parentFile : TFile)
  (provider : Provider) (during : World -> World) : M unit :=
  match apiKey settings with
  | [] => notice NoticeNoApiKey
  | _ :: _ =>
      let snapshotText := selectedText request in
      notice NoticeGenerating ;;
      tryCatch
        (response <- await (generateNote settings request provider) during ;;
         afterResponse response request parentFile snapshotText)
        onFailure
  end.

End WithHost.
End Plugin.

(* ===================================================================== *)
(* 7b. Notions used to state the properties                               *)
(* ===================================================================== *)

Module Observe.


(** The event of reading the whole document. *)
Definition isDocumentScan (ev : Event) : bool :=
  match ev with
  | EvGetValue => true
  | _ => false
  end.

(** Any call on the editor. *)
Definition isEditorCall (ev : Event) : bool :=
  match ev with
  | EvGetSelection | EvGetValue | EvSetSelection _ _
  | EvReplaceSelection _ => true
  | _ => false
  end.

(** The user leaves the editor, the vault and the clipboard alone during
    a wait. *)
Definition undisturbed (meanwhile : World -> World) : Prop :=
  forall w, editor (meanwhile w) = editor w /\ vault (meanwhile w) = vault w
            /\ clipboard (meanwhile w) = clipboard w.

(** The world in which [createNoteFile] looks for the target path, once
    it has made sure the target folder is there: lines 208-213.  When
    the folder had to be created, the user had a turn [meanwhile]. *)
Definition folderStep (meanwhile : World -> World) (targetFolder : jsstring)
  (request : GenerationRequest) (w : World) : World :=
  match saveLocation request with
  | [] => w
  | _ :: _ =>
      if existsAt (vault w) targetFolder then w
      else resumed meanwhile
             (withVault (logged w (EvCreateFolder targetFolder))
                {| files := files (vault w);
                   folders := {[ targetFolder ]} ∪ folders (vault w) |})
  end.

(** The world in which the plugin resumes once the vault has written the
    note into the world [w1]. *)
Definition fileStep (meanwhile : World -> World) (target data : jsstring)
  (w1 : World) : World :=
  resumed meanwhile
    (withVault (logged w1 (EvVaultCreate target data))
       {| files := <[ target := data ]> (files (vault w1));
          folders := folders (vault w1) |}).

(** The label of the link that the apply path inserts, when computing it
    does not throw: the anchor label if it is a string with something
    other than white space in it, the selected text otherwise. *)
Definition insertedLabel (response : GenerationResponse)
  (request : GenerationRequest) : jsstring :=
  match anchorLabel response with
  | JString s =>
      match trim s with
      | [] => selectedText request
      | _ :: _ => s
      end
  | _ => selectedText request
  end.

(** One step of the matcher went from [st] to [st'] by consuming [w]. *)
Definition consumed (st st' : mstate) (w : jsstring) : Prop :=
  rest st = w ++ rest st' /\ pos st' = (pos st + length w)%nat.

End Observe.
Import Observe.

(* ===================================================================== *)
(* 7c. A concrete host for the examples                                   *)
(* ===================================================================== *)

Module Example.

(** A stand-in for Obsidian's [normalizePath]: backslashes become
    slashes, runs of slashes collapse, leading and trailing slashes go,
    the empty path is the root, no-break spaces become spaces.  Unicode
    normalisation is left out. *)
Fixpoint collapseSlashes (s : jsstring) (afterSlash : bool) : jsstring :=
  match s with
  | [] => []
  | c :: t =>
      if ((c =? cu "/") || (c =? cu "\"))%N then
        if afterSlash then collapseSlashes t true
        else cu "/" :: collapseSlashes t true
      else c :: collapseSlashes t false
  end.

Fixpoint dropSlashes (s : jsstring) : jsstring :=
  match s with
  | c :: t => if (c =? cu "/")%N then dropSlashes t else s
  | [] => []
  end.

Definition normalizePath (p : jsstring) : jsstring :=
  let cleaned := rev (dropSlashes (rev (dropSlashes (collapseSlashes p false)))) in
  let rooted := match cleaned with [] => js "/" | _ :: _ => cleaned end in
  List.map (fun c => if ((c =? 160) || (c =? 8239))%N then 32%N else c) rooted.

(** Decimal digits of a natural number, most significant first. *)
Fixpoint digitsOf (fuel : nat) (n : N) (acc : jsstring) : jsstring :=
  match fuel with
  | O => acc
  | S f =>
      let acc' := (48 + n mod 10)%N :: acc in
      if (n / 10 =? 0)%N then acc' else digitsOf f (n / 10)%N acc'
  end.

(** The digits after the decimal point of [part / 10^k], without the
    zeros at the end. *)
Fixpoint fractionDigits (k : nat) (part : N) : jsstring :=
  match k with
  | O => []
  | S k' =>
      if (part =? 0)%N then []
      else
        let p := (10 ^ N.of_nat k')%N in
        (48 + part / p)%N :: fractionDigits k' (part mod p)
  end.

(** Rendering of the decimals the examples need: at most 15 significant
    digits and a value that is zero or at least 10^-6 and below 10^21,
    where the rendering is the decimal itself without exponent, without
    zeros at the end of the fraction, and without the sign of zero. *)
Definition numberToString (neg : bool) (d : N) (e : Z) : jsstring :=
  let scale := (10 ^ Z.to_N (- e))%N in
  let whole := if e <? 0 then (d / scale)%N else (d * 10 ^ Z.to_N e)%N in
  let part := if e <? 0 then (d mod scale)%N else 0%N in
  (if neg && negb (d =? 0)%N then js "-" else [])
  ++ digitsOf (S (N.to_nat (N.log2 whole))) whole []
  ++ (if (part =? 0)%N then []
      else js "." ++ fractionDigits (Z.to_nat (- e)) part).

Definition settings : GeminiNoteSettings :=
  {| apiKey := js "key"; apiHost := []; modelName := js "gemini-1.5-pro-latest" |}.

Definition request (action : OutputAction) (selected : jsstring)
  : GenerationRequest :=
  {| instructionContent := js "Explain";
     contextType := selection_only;
     saveLocation := [];
     selectedText := selected;
     contextBefore := [];
     contextAfter := [];
     parentNoteContent := [];
     parentNoteTitle := js "Biology.md";
     backgroundContext := [];
     outputAction := action |}.

Definition parentFile : TFile :=
  {| path := js "notes/Biology.md";
     basename := js "Biology";
     parentPath := Some (js "notes") |}.

(** The managed path answers with [text]. *)
Definition answers (text : jsstring) : Provider :=
  {| sdkReply := SdkReturns (Some text);
     hostReply := RequestRejects [] |}.

Definition emptyVault : Vault := {| files := ∅; folders := ∅ |}.

(** A vault that already holds the note the fallback title leads to. *)
Definition takenVault : Vault :=
  {| files := {[ js "notes/Untitled Gemini Note.md" := js "my own note" ]};
     folders := {[ js "notes" ]} |}.

Definition world (text : jsstring) (anchor head : nat) (v : Vault) : World :=
  {| editor := {| doc := text; selAnchor := anchor; selHead := head |};
     vault := v;
     clipboard := None;
     log := [] |}.

(** The user does nothing while the call is in flight. *)
Definition idle (w : World) : World := w.

(** The user puts the cursor at the start of the document meanwhile. *)
Definition movesToStart (w : World) : World :=
  withEditor w {| doc := doc (editor w); selAnchor := 0; selHead := 0 |}.

(** [{"title":"<t>","content":"<c>"}] *)
Definition jsonNote (t c : jsstring) : jsstring :=
  js "{" ++ [QUOTE] ++ js "title" ++ [QUOTE] ++ js ":" ++ [QUOTE] ++ t
  ++ [QUOTE] ++ js "," ++ [QUOTE] ++ js "content" ++ [QUOTE] ++ js ":"
  ++ [QUOTE] ++ c ++ [QUOTE] ++ js "}".

(** The user stays away while the plugin waits for the vault. *)
Definition away (w : World) : World := w.


(** [{"title":"<t>","content":"<c>","anchorLabel":<a>}] *)
Definition jsonNoteLabelled (t c a : jsstring) : jsstring :=
  js "{" ++ [QUOTE] ++ js "title" ++ [QUOTE] ++ js ":" ++ [QUOTE] ++ t
  ++ [QUOTE] ++ js "," ++ [QUOTE] ++ js "content" ++ [QUOTE] ++ js ":"
  ++ [QUOTE] ++ c ++ [QUOTE] ++ js "," ++ [QUOTE] ++ js "anchorLabel"
  ++ [QUOTE] ++ js ":" ++ a ++ js "}".

End Example.

(* ===================================================================== *)
(* 7d. The command and the request (main.ts, handleGenerateCommand)       *)
(* ===================================================================== *)

Module Capture.

(** An index of [String.prototype.slice]: negative indices count from the
    end, and everything is clamped to the string. *)
Definition sliceIndex (s : jsstring) (i : Z) : nat :=
  if i <? 0 then Z.to_nat (Z.max (jslength s + i) 0)
  else Z.to_nat (Z.min i (jslength s)).

(** [s.slice(a, b)] *)
Definition slice (s : jsstring) (a b : Z) : jsstring :=
  take (sliceIndex s b - sliceIndex s a) (drop (sliceIndex s a) s).

(** Line and column of an offset into the text. *)
Definition offsetToPos (text : jsstring) (offset : nat) : EditorPosition :=
  let lines := split (take offset text) LF in
  {| line := (length lines - 1)%nat;
     ch := length (default [] (last lines)) |}.

(** [editor.getCursor('from')] and [editor.getCursor('to')] *)
Definition getCursorFrom (e : Editor) : EditorPosition :=
  offsetToPos (doc e) (selFrom e).
Definition getCursorTo (e : Editor) : EditorPosition :=
  offsetToPos (doc e) (selTo e).

(** [editor.getRange(a, b)]: the text between two positions, empty when
    they are out of order. *)
Definition getRange (e : Editor) (a b : EditorPosition) : jsstring :=
  take (offsetOf e b - offsetOf e a) (drop (offsetOf e a) (doc e)).

(** [editor.lineCount()] *)
Definition lineCount (e : Editor) : nat := length (split (doc e) LF).

(** Lines 73-76: up to 20 lines and 1000 code units before the selection. *)
Definition contextBeforeOf (e : Editor) : jsstring :=
  let cursorFrom := getCursorFrom e in
  let range :=
    getRange e {| line := Nat.max 0 (line cursorFrom - 20); ch := 0 |}
             cursorFrom in
  slice range (-1000) (jslength range).

(** Lines 78-81: up to 20 lines and 1000 code units after the selection. *)
Definition contextAfterOf (e : Editor) : jsstring :=
  let cursorTo := getCursorTo e in
  let lastLine := lineCount e in
  let range :=
    getRange e cursorTo
             {| line := Nat.min lastLine (line cursorTo + 20); ch := 0 |} in
  slice range 0 1000.

(** What the modal hands to its callback. *)
Record ModalResult : Type := {
  chosenInstructionPath : jsstring;
  chosenContextType : ContextType;
  chosenSaveLocation : jsstring;
  chosenOutputAction : OutputAction;
  chosenBackgroundFiles : list TFile
}.

(** [vault.read(file)]: the content, or a rejection when the file is gone. *)
Definition vault_read (v : Vault) (p : jsstring) : option jsstring :=
  files v !! p.

(** `\n--- REFERENCE FILE: ${file.path} ---\n${content}\n` *)
Definition referenceBlock (p content : jsstring) : jsstring :=
  [LF] ++ js "--- REFERENCE FILE: " ++ p ++ js " ---" ++ [LF] ++ content
  ++ [LF].

(** Lines 52-62: the loop over the background files; a file that cannot
    be read is skipped. *)
Fixpoint readBackgroundFiles (v : Vault) (background : list TFile)
  (backgroundContext : jsstring) : jsstring :=
  match background with
  | [] => backgroundContext
  | file :: others =>
      match vault_read v (path file) with
      | Some content =>
          readBackgroundFiles v others
            (backgroundContext ++ referenceBlock (path file) content)
      | None => readBackgroundFiles v others backgroundContext
      end
  end.

(** The body of the modal callback up to the call of [runGeneration].
    [None] is the rejection of the read of the parent note, which nothing
    catches. *)
Definition buildRequest (e : Editor) (v : Vault) (selected : jsstring)
  (parentFile : TFile) (result : ModalResult) : option GenerationRequest :=
  let instruction :=
    match files v !! chosenInstructionPath result with
    | Some text => text
    | None => []
    end in
  let background := readBackgroundFiles v (chosenBackgroundFiles result) [] in
  match vault_read v (path parentFile) with
  | None => None
  | Some parentContent =>
      Some {| instructionContent := instruction;
              contextType := chosenContextType result;
              saveLocation := chosenSaveLocation result;
              selectedText := selected;
              contextBefore := contextBeforeOf e;
              contextAfter := contextAfterOf e;
              parentNoteContent := parentContent;
              parentNoteTitle := fileName (path parentFile);
              backgroundContext := background;
              outputAction := chosenOutputAction result |}
  end.

(** Lines 33-41: the command reads the selection and gives up on an empty
    one or on a view without a file; otherwise the modal is opened with
    the selection captured. *)
Definition handleGenerateCommand (viewFile : option TFile)
  : M (option (jsstring * TFile)) :=
  bind editor_getSelection (fun selected =>
    match selected with
    | [] => bind (notice NoticeSelectFirst) (fun _ => ret None)
    | _ :: _ =>
        match viewFile with
        | None => ret None
        | Some parentFile => ret (Some (selected, parentFile))
        end
    end).

(** geminiService.ts, line 33:
    request.backgroundContext && request.backgroundContext.trim().length > 0 *)
Definition hasBackground (request : GenerationRequest) : bool :=
  match backgroundContext request with
  | [] => false
  | _ :: _ => 0 <? jslength (trim (backgroundContext request))
  end.

End Capture.
Import Capture.

(* ===================================================================== *)
(* 7e. The address of the custom host (geminiService.ts, lines 111-119)   *)
(* ===================================================================== *)

Module CustomHost.

(** [s.endsWith(p)] *)
Definition endsWith (s p : jsstring) : bool :=
  startsWith (rev s) (rev p).

(** [s.replace(pattern, replacement)] with a string pattern: the first
    occurrence only.  The replacement holds no dollar sign here. *)
Definition replaceFirst (s pattern replacement : jsstring) : jsstring :=
  let i := indexOf s pattern in
  if i =? -1 then s
  else substring s 0 i ++ replacement
       ++ substring s (i + jslength pattern) (jslength s).

Definition normalizeHost (host0 : jsstring) : jsstring :=
  let host := trim host0 in
  let host :=
    if startsWith host (js "https:/") && negb (startsWith host (js "https://"))
    then replaceFirst host (js "https:/") (js "https://")
    else host in
  if endsWith host (js "/") then Capture.slice host 0 (-1) else host.

(** `${host}/v1beta/models/${modelName}:generateContent?key=${apiKey}` *)
Definition requestAddress (settings : GeminiNoteSettings) : jsstring :=
  normalizeHost (apiHost settings) ++ js "/v1beta/models/"
  ++ modelName settings ++ js ":generateContent?key=" ++ apiKey settings.

End CustomHost.
Import CustomHost.

(* ===================================================================== *)
(* 7f. The oldest revision of the parser (geminiService.ts, 320-366)      *)
(* ===================================================================== *)

Module Legacy.

(** return obj && typeof obj.title === 'string' && obj.title.trim() !== ''
      && typeof obj.content === 'string' && obj.content.trim() !== ''; *)
Definition isValidResponse (obj : value) : bool :=
  if toBoolean obj then
    match getProp obj (js "title") with
    | Some (JString t) =>
        match trim t with
        | [] => false
        | _ :: _ =>
            match getProp obj (js "content") with
            | Some (JString c) =>
                match trim c with [] => false | _ :: _ => true end
            | _ => false
            end
        end
    | _ => false
    end
  else false.

(** { title: parsed.title, content: parsed.content, isFallback: false } *)
Definition structuredResponse (parsed : value) : option GenerationResponse :=
  match getProp parsed (js "title"), getProp parsed (js "content") with
  | Some (JString t), Some (JString c) =>
      Some {| title := t; content := c; anchorLabel := JUndefined;
              isFallback := false |}
  | _, _ => None
  end.

Definition tryStructured (text : jsstring) : option GenerationResponse :=
  match JSON_parse text with
  | Some parsed =>
      if isValidResponse parsed then structuredResponse parsed else None
  | None => None
  end.

(** The second argument of the source, the original selection, is never
    read and is left out. *)
Definition parseResponse (rawResponse : jsstring) : GenerationResponse :=
  match tryStructured (cleanJson rawResponse) with
  | Some r => r
  | None =>
      match match jsonSubstring rawResponse with
            | Some sub => tryStructured sub
            | None => None
            end with
      | Some r => r
      | None => fallbackResponse rawResponse
      end
  end.

End Legacy.

(* ===================================================================== *)
(* 8. Facts about strings                                                 *)
(* ===================================================================== *)

Section StringFacts.
Implicit Types s p r : jsstring.

Lemma startsWith_app s p : startsWith (p ++ s) p = true.
Proof.
  induction p as [|a p IH]; simpl; [done|].
  by rewrite N.eqb_refl.
Qed.

Lemma startsWith_inv s p : startsWith s p = true -> s = p ++ drop (length p) s.
Proof.
  revert s; induction p as [|a p IH]; intros s H; simpl in *; [done|].
  destruct s as [|b s]; [done|].
  apply andb_true_iff in H as [Hab H].
  apply N.eqb_eq in Hab; subst b. simpl. f_equal. by apply IH.
Qed.

Lemma startsWith_length s p : startsWith s p = true -> (length p <= length s)%nat.
Proof.
  intros H. apply startsWith_inv in H. rewrite H, length_app. lia.
Qed.

(** How the two searches relate to the number of occurrences. *)
Lemma index_occurrences s p k :
  0 <= k ->
  match occurrences s p with
  | O => indexOf_from s p k = -1 /\ lastIndexOf_from s p k = -1
  | S O => k <= indexOf_from s p k /\
           indexOf_from s p k = lastIndexOf_from s p k
  | S (S _) => k <= indexOf_from s p k /\
               indexOf_from s p k < lastIndexOf_from s p k
  end.
Proof.
  revert k; induction s as [|c t IH]; intros k Hk.
  - simpl. destruct (startsWith [] p); simpl; lia.
  - specialize (IH (k + 1) ltac:(lia)).
    cbn [occurrences indexOf_from lastIndexOf_from].
    destruct (startsWith (c :: t) p) eqn:Hsw.
    + destruct (occurrences t p) as [|[|n]]; cbn [Nat.add].
      * destruct IH as [_ ->]. simpl. lia.
      * destruct IH as [H1 H2].
        destruct (Z.eqb_spec (lastIndexOf_from t p (k + 1)) (-1)); lia.
      * destruct IH as [H1 H2].
        destruct (Z.eqb_spec (lastIndexOf_from t p (k + 1)) (-1)); lia.
    + destruct (occurrences t p) as [|[|n]]; cbn [Nat.add].
      * destruct IH as [-> ->]. simpl. lia.
      * destruct IH as [H1 H2].
        destruct (Z.eqb_spec (lastIndexOf_from t p (k + 1)) (-1)); lia.
      * destruct IH as [H1 H2].
        destruct (Z.eqb_spec (lastIndexOf_from t p (k + 1)) (-1)); lia.
Qed.

(** The test of [runGeneration], [firstIndex !== -1 && firstIndex ===
    lastIndex], holds exactly when the text occurs once. *)
Lemma unique_iff_occurrences s p :
  negb (indexOf s p =? -1) && (indexOf s p =? lastIndexOf s p) = true
  <-> occurrences s p = 1%nat.
Proof.
  unfold indexOf, lastIndexOf.
  pose proof (index_occurrences s p 0 ltac:(lia)) as H.
  destruct (occurrences s p) as [|[|n]].
  - destruct H as [-> ->]. simpl. split; [done | lia].
  - destruct H as [H1 <-]. rewrite Z.eqb_refl, andb_true_r.
    split; [done | intros _]. apply negb_true_iff. lia.
  - destruct H as [H1 H2]. split; [|lia].
    intros [_ H]%andb_true_iff. apply Z.eqb_eq in H. lia.
Qed.

(** A successful [indexOf] points at an occurrence. *)
Lemma indexOf_from_found s p k :
  indexOf_from s p k <> -1 -> 0 <= k ->
  exists i : nat,
    indexOf_from s p k = k + Z.of_nat i /\
    startsWith (drop i s) p = true /\ (i <= length s)%nat.
Proof.
  revert k; induction s as [|c t IH]; intros k Hne Hk;
    cbn [indexOf_from] in *.
  - destruct (startsWith [] p) eqn:E; [|done].
    exists O. simpl. split; [lia | done].
  - destruct (startsWith (c :: t) p) eqn:E.
    + exists O. simpl. split; [lia | split; [done | lia]].
    + destruct (IH (k + 1) Hne ltac:(lia)) as (i & Hi & Hsw & Hlen).
      exists (S i). simpl. split; [lia | split; [done | lia]].
Qed.

Lemma indexOf_found s p :
  indexOf s p <> -1 ->
  exists i : nat,
    indexOf s p = Z.of_nat i /\
    s = take i s ++ p ++ drop (i + length p) s.
Proof.
  intros H. destruct (indexOf_from_found s p 0 H ltac:(lia)) as (i & Hi & Hsw & Hlen).
  exists i. split; [unfold indexOf; lia|].
  apply startsWith_inv in Hsw. rewrite drop_drop in Hsw.
  rewrite <- Hsw. by rewrite take_drop.
Qed.

Lemma clamp_of_nat s (i : nat) :
  (i <= length s)%nat -> clamp s (Z.of_nat i) = i.
Proof. unfold clamp, jslength. lia. Qed.

Lemma substring_0 s (i : nat) :
  (i <= length s)%nat -> substring s 0 (Z.of_nat i) = take i s.
Proof.
  intros H. unfold substring. rewrite (clamp_of_nat s i H).
  replace (clamp s 0) with O by (unfold clamp, jslength; lia).
  rewrite Nat.min_0_l, Nat.max_0_l, Nat.sub_0_r. done.
Qed.

Lemma split_nonempty s sep : split s sep <> [].
Proof.
  induction s as [|c t IH]; simpl; [done|].
  destruct (c =? sep)%N; [done|].
  destruct (split t sep); done.
Qed.

End StringFacts.

(** Line and column computed from a prefix, as [runGeneration] does, lead
    the editor back to the end of that prefix. *)
Lemma posToOffset_prefix (p r : jsstring) :
  posToOffset (p ++ r)
              (length (split p LF) - 1)
              (length (default [] (last (split p LF))))
  = length p.
Proof.
  induction p as [|c t IH].
  - simpl. destruct r as [|u r]; simpl; [done|]. by destruct (u =? LF)%N.
  - pose proof (split_nonempty t LF) as Hne.
    cbn [split app posToOffset].
    destruct (c =? LF)%N eqn:Ec.
    + destruct (split t LF) as [|l ls] eqn:Es; [done|].
      cbn [length Nat.sub] in *. rewrite Nat.sub_0_r in *.
      rewrite last_cons.
      destruct (last (l :: ls)) eqn:El; [| by apply last_None in El].
      simpl in IH |- *. by rewrite IH.
    + destruct (split t LF) as [|l ls] eqn:Es; [done|].
      destruct ls as [|l2 ls'].
      * simpl in IH |- *. by rewrite IH.
      * change (last ((c :: l) :: l2 :: ls')) with (last (l :: l2 :: ls')).
        change (length ((c :: l) :: l2 :: ls') - 1)%nat with (S (length ls')).
        change (length (l :: l2 :: ls') - 1)%nat with (S (length ls')) in IH.
        cbv iota. rewrite IH. done.
Qed.

(* ===================================================================== *)
(* 9. The safe-apply protocol                                             *)
(* ===================================================================== *)

Section Reconciliation.
Import Plugin.

Lemma getSelection_span (e : Editor) (i : nat) (p : jsstring) :
  doc e = take i (doc e) ++ p ++ drop (i + length p) (doc e) ->
  (i <= length (doc e))%nat ->
  selAnchor e = i -> selHead e = (i + length p)%nat ->
  getSelection e = p.
Proof.
  intros Hdoc Hi Ha Hh. unfold getSelection, selFrom, selTo.
  rewrite Ha, Hh.
  replace (Nat.min i (i + length p)) with i by lia.
  replace (Nat.max i (i + length p) - i)%nat with (length p) by lia.
  rewrite Hdoc at 1. rewrite drop_app_length'; [|rewrite length_take; lia].
  by rewrite take_app_length.
Qed.

(** The selection is still the snapshot: nothing but the selection is read. *)
Lemma reconcile_same (snapshotText : jsstring) (w : World) :
  getSelection (editor w) = snapshotText ->
  reconcile snapshotText w = Done true (logged w EvGetSelection).
Proof.
  intros H. unfold reconcile, bind, editor_getSelection.
  destruct (decide (getSelection (editor w) = snapshotText)); done.
Qed.

(** The selection moved and the snapshot occurs once: the selection is put
    on that occurrence. *)
Lemma reconcile_relocates (snapshotText : jsstring) (w : World) :
  getSelection (editor w) <> snapshotText ->
  occurrences (doc (editor w)) snapshotText = 1%nat ->
  exists (i : nat) (anchor head : EditorPosition),
    indexOf (doc (editor w)) snapshotText = Z.of_nat i /\
    offsetOf (editor w) anchor = i /\
    offsetOf (editor w) head = (i + length snapshotText)%nat /\
    getSelection (setSelection (editor w) anchor head) = snapshotText /\
    reconcile snapshotText w =
      Done true
        (logged (withEditor (logged (logged w EvGetSelection) EvGetValue)
                            (setSelection (editor w) anchor head))
                (EvSetSelection anchor head)).
Proof.
  intros Hne Hocc.
  pose proof (proj2 (unique_iff_occurrences _ _) Hocc) as Htest.
  assert (Hfound : indexOf (doc (editor w)) snapshotText <> -1).
  { apply andb_true_iff in Htest as [H _]. apply negb_true_iff in H. lia. }
  destruct (indexOf_found _ _ Hfound) as (i & Hi & Hdoc).
  assert (Hlen : (i + length snapshotText <= length (doc (editor w)))%nat).
  { destruct (indexOf_from_found _ _ 0 Hfound ltac:(lia)) as (j & Hj & Hsw & Hjl).
    unfold indexOf in Hi. assert (j = i) as -> by lia.
    apply startsWith_length in Hsw. rewrite length_drop in Hsw. lia. }
  set (d := doc (editor w)) in *.
  set (anchor := {| line := (length (split (substring d 0 (Z.of_nat i)) LF) - 1)%nat;
                    ch := length (default [] (last (split (substring d 0 (Z.of_nat i)) LF))) |}).
  set (endPrefix := substring d 0 (Z.of_nat i + jslength snapshotText)).
  set (head := {| line := (length (split endPrefix LF) - 1)%nat;
                  ch := length (default [] (last (split endPrefix LF))) |}).
  assert (Ha : offsetOf (editor w) anchor = i).
  { unfold offsetOf, anchor. cbn [line ch]. fold d.
    rewrite substring_0 by lia.
    rewrite <- (take_drop i d) at 1.
    rewrite posToOffset_prefix, length_take. lia. }
  assert (Hh : offsetOf (editor w) head = (i + length snapshotText)%nat).
  { unfold offsetOf, head, endPrefix. cbn [line ch]. fold d.
    unfold jslength. rewrite <- Nat2Z.inj_add.
    rewrite substring_0 by lia.
    rewrite <- (take_drop (i + length snapshotText) d) at 1.
    rewrite posToOffset_prefix, length_take. lia. }
  exists i, anchor, head. repeat split; try done.
  - apply (getSelection_span _ i); cbn [setSelection doc selAnchor selHead];
      try done. fold d. lia.
  - unfold reconcile, bind, editor_getSelection, editor_getValue,
      editor_setSelection, ret, getValue.
    destruct (decide (getSelection (editor w) = snapshotText)); [done|].
    change (editor (logged w EvGetSelection)) with (editor w). fold d.
    rewrite Htest, Hi. done.
Qed.

(** The selection moved and the snapshot is absent or repeated. *)
Lemma reconcile_fails (snapshotText : jsstring) (w : World) :
  getSelection (editor w) <> snapshotText ->
  occurrences (doc (editor w)) snapshotText <> 1%nat ->
  reconcile snapshotText w =
    Done false (logged (logged w EvGetSelection) EvGetValue).
Proof.
  intros Hne Hocc.
  unfold reconcile, bind, editor_getSelection, editor_getValue, ret, getValue.
  destruct (decide (getSelection (editor w) = snapshotText)); [done|].
  change (editor (logged w EvGetSelection)) with (editor w).
  destruct (negb (indexOf (doc (editor w)) snapshotText =? -1)
            && (indexOf (doc (editor w)) snapshotText
                =? lastIndexOf (doc (editor w)) snapshotText)) eqn:E; [|done].
  apply unique_iff_occurrences in E. done.
Qed.

End Reconciliation.

(* ===================================================================== *)
(* 10. New-document materialization                                       *)
(* ===================================================================== *)

Lemma resumed_undisturbed meanwhile w :
  undisturbed meanwhile -> resumed meanwhile w = w.
Proof.
  intros H. destruct (H w) as (He & Hv & Hc).
  unfold resumed. rewrite He, Hv, Hc. by destruct w.
Qed.

Lemma folderStep_undisturbed meanwhile folder request w :
  undisturbed meanwhile ->
  folderStep meanwhile folder request w =
    match saveLocation request with
    | [] => w
    | _ :: _ =>
        if existsAt (vault w) folder then w
        else withVault (logged w (EvCreateFolder folder))
               {| files := files (vault w);
                  folders := {[ folder ]} ∪ folders (vault w) |}
    end.
Proof.
  intros H. unfold folderStep. destruct (saveLocation request); [done|].
  destruct (existsAt (vault w) folder); [done|]. by apply resumed_undisturbed.
Qed.


Lemma existsAt_folderStep_false meanwhile folder request w p :
  undisturbed meanwhile ->
  existsAt (vault w) p = false -> p <> folder ->
  existsAt (vault (folderStep meanwhile folder request w)) p = false.
Proof.
  intros Hu. rewrite (folderStep_undisturbed _ _ _ _ Hu).
  destruct (saveLocation request); [done|].
  destruct (existsAt (vault w) folder); [done|].
  unfold existsAt. cbn [vault withVault files folders].
  intros [H1 H2]%orb_false_iff Hne. apply orb_false_iff. split; [done|].
  apply bool_decide_eq_false in H2. apply bool_decide_eq_false.
  intros [Hin|Hin]%elem_of_union; [|done].
  apply elem_of_singleton in Hin. done.
Qed.

Lemma existsAt_file (v : Vault) p :
  is_Some (files v !! p) -> existsAt v p = true.
Proof.
  intros H. unfold existsAt. apply orb_true_iff. left.
  by apply bool_decide_eq_true.
Qed.

(** The folder step logs at most the creation of the folder, whatever the
    user does meanwhile. *)
Lemma folderStep_log meanwhile folder request w :
  exists evs, log (folderStep meanwhile folder request w) = log w ++ evs /\
              Forall (fun ev => ev = EvCreateFolder folder) evs.
Proof.
  unfold folderStep. destruct (saveLocation request).
  - exists []. by rewrite app_nil_r.
  - destruct (existsAt (vault w) folder).
    + exists []. by rewrite app_nil_r.
    + exists [EvCreateFolder folder]. split; by repeat constructor.
Qed.

Lemma folderStep_preserves meanwhile folder request w :
  undisturbed meanwhile ->
  editor (folderStep meanwhile folder request w) = editor w /\
  clipboard (folderStep meanwhile folder request w) = clipboard w /\
  files (vault (folderStep meanwhile folder request w)) = files (vault w).
Proof.
  intros Hu. rewrite (folderStep_undisturbed _ _ _ _ Hu).
  destruct (saveLocation request); [done|].
  by destruct (existsAt (vault w) folder).
Qed.

Lemma fileStep_undisturbed meanwhile target data w1 :
  undisturbed meanwhile ->
  fileStep meanwhile target data w1 =
    withVault (logged w1 (EvVaultCreate target data))
      {| files := <[ target := data ]> (files (vault w1));
         folders := folders (vault w1) |}.
Proof. intros H. by apply resumed_undisturbed. Qed.

Section Materialization.
Variable normalizePath : jsstring -> jsstring.
Variable numberToString : bool -> N -> Z -> jsstring.
Variable whileCreatingFolder : World -> World.
Variable whileCreatingFile : World -> World.

Local Abbreviation createNoteFile :=
  (Plugin.createNoteFile normalizePath whileCreatingFolder whileCreatingFile).
Local Abbreviation targetFolderOf := (Plugin.targetFolderOf normalizePath).
Local Abbreviation targetPathOf := (Plugin.targetPathOf normalizePath).
Local Abbreviation folderStep := (Observe.folderStep whileCreatingFolder).
Local Abbreviation fileStep := (Observe.fileStep whileCreatingFile).

(** [createNoteFile] in one equation: the folder step, then either the
    collision notice or the creation of the file. *)
Lemma createNoteFile_unfold response request parentFile w :
  let target := targetPathOf response request parentFile in
  let fullContent := Plugin.parentLink parentFile ++ content response in
  let w1 := folderStep (targetFolderOf request parentFile) request w in
  createNoteFile response request parentFile w =
    if existsAt (vault w1) target
    then Done None (logged w1 (EvNotice (NoticeExists target)))
    else Done (Some (fileAt target)) (fileStep target fullContent w1).
Proof.
  intros target fullContent w1.
  unfold Plugin.createNoteFile, bind, vault_exists, vault_createFolder, ret,
    notice, vault_create.
  subst w1. unfold Observe.folderStep, Observe.fileStep.
  fold (targetFolderOf request parentFile).
  fold (Plugin.safeTitleOf response).
  change (normalizePath
            (targetFolderOf request parentFile ++ js "/"
             ++ Plugin.safeTitleOf response ++ js ".md")) with target.
  destruct (saveLocation request) as [|c l] eqn:Hs.
  - destruct (existsAt (vault w) target) eqn:E; [done|].
    by rewrite E.
  - destruct (existsAt (vault w) (targetFolderOf request parentFile)) eqn:Ef.
    + destruct (existsAt (vault w) target) eqn:E; [done|]. by rewrite E.
    + rewrite Ef.
      destruct (existsAt _ target) eqn:E; [done|]. by rewrite E.
Qed.

(** [createNoteFile] returns normally, and makes no call on the editor
    or on the clipboard. *)
Lemma createNoteFile_returns response request parentFile w :
  exists r w' evs,
    createNoteFile response request parentFile w = Done r w' /\
    log w' = log w ++ evs /\
    Forall (fun ev => isEditorCall ev = false) evs /\
    Forall (fun ev => forall text, ev <> EvClipboardWrite text) evs.
Proof.
  rewrite createNoteFile_unfold.
  destruct (folderStep_log whileCreatingFolder
              (targetFolderOf request parentFile) request w)
    as (evs & Hl & Hevs).
  assert (Hevs1 : Forall (fun ev => isEditorCall ev = false) evs).
  { eapply Forall_impl; [exact Hevs|]. by intros ev ->. }
  assert (Hevs2 : Forall (fun ev => forall text, ev <> EvClipboardWrite text)
                         evs).
  { eapply Forall_impl; [exact Hevs|]. by intros ev ->. }
  destruct (existsAt _ _); eexists _, _, _;
    (split; [reflexivity|]);
    cbn [log logged withVault resumed Observe.fileStep];
    rewrite Hl, <- app_assoc;
    (split; [done|]); split; apply Forall_app; split; try done;
    by repeat constructor.
Qed.


End Materialization.

(* ===================================================================== *)
(* 11. The orchestrator                                                   *)
(* ===================================================================== *)

Section Orchestrator.
Variable normalizePath : jsstring -> jsstring.
Variable numberToString : bool -> N -> Z -> jsstring.
Variable whileCreatingFolder : World -> World.
Variable whileCreatingFile : World -> World.

Local Abbreviation createNoteFile :=
  (Plugin.createNoteFile normalizePath whileCreatingFolder whileCreatingFile).
Local Abbreviation targetFolderOf := (Plugin.targetFolderOf normalizePath).
Local Abbreviation targetPathOf := (Plugin.targetPathOf normalizePath).
Local Abbreviation handleCreateNoteAction :=
  (Plugin.handleCreateNoteAction normalizePath whileCreatingFolder
     whileCreatingFile).
Local Abbreviation applyAction :=
  (Plugin.applyAction normalizePath whileCreatingFolder whileCreatingFile).
Local Abbreviation toString := (Plugin.toString numberToString).
Local Abbreviation clipboardLink := (Plugin.clipboardLink numberToString).
Local Abbreviation divertToClipboard :=
  (Plugin.divertToClipboard normalizePath numberToString whileCreatingFolder
     whileCreatingFile).
Local Abbreviation afterResponse :=
  (Plugin.afterResponse normalizePath numberToString whileCreatingFolder
     whileCreatingFile).
Local Abbreviation runGeneration :=
  (Plugin.runGeneration normalizePath numberToString whileCreatingFolder
     whileCreatingFile).
Local Abbreviation folderStep := (Observe.folderStep whileCreatingFolder).
Local Abbreviation fileStep := (Observe.fileStep whileCreatingFile).

Implicit Types (response : GenerationResponse) (request : GenerationRequest)
  (parentFile : TFile) (w : World) (snapshotText : jsstring).

(** Once the provider has answered, the run is the rest of the try block
    in the world the user left. *)
Lemma runGeneration_resumes settings request parentFile provider during
    response w :
  apiKey settings <> [] ->
  generateNote settings request provider = Ok response ->
  runGeneration settings request parentFile provider during w =
    tryCatch (afterResponse response request parentFile (selectedText request))
             Plugin.onFailure
             (during (logged w (EvNotice NoticeGenerating))).
Proof.
  intros Hkey Hgen. unfold Plugin.runGeneration.
  destruct (apiKey settings); [done|].
  unfold bind, notice, tryCatch, await. by rewrite Hgen.
Qed.

Lemma afterResponse_same response request parentFile snapshotText w :
  getSelection (editor w) = snapshotText ->
  afterResponse response request parentFile snapshotText w =
    applyAction response request parentFile snapshotText
      (logged (logged w EvNoticeHide) EvGetSelection).
Proof.
  intros H. unfold Plugin.afterResponse, bind at 1, noticeHide.
  unfold bind at 1. by rewrite reconcile_same.
Qed.

Lemma afterResponse_relocated response request parentFile snapshotText w :
  getSelection (editor w) <> snapshotText ->
  occurrences (doc (editor w)) snapshotText = 1%nat ->
  exists (i : nat) (anchor head : EditorPosition),
    indexOf (doc (editor w)) snapshotText = Z.of_nat i /\
    offsetOf (editor w) anchor = i /\
    offsetOf (editor w) head = (i + length snapshotText)%nat /\
    getSelection (setSelection (editor w) anchor head) = snapshotText /\
    afterResponse response request parentFile snapshotText w =
      applyAction response request parentFile snapshotText
        (logged (withEditor
                   (logged (logged (logged w EvNoticeHide) EvGetSelection)
                           EvGetValue)
                   (setSelection (editor w) anchor head))
                (EvSetSelection anchor head)).
Proof.
  intros Hne Hocc.
  destruct (reconcile_relocates snapshotText (logged w EvNoticeHide) Hne Hocc)
    as (i & anchor & head & Hi & Ha & Hh & Hsel & Hrec).
  exists i, anchor, head. repeat split; try done.
  unfold Plugin.afterResponse, bind at 1, noticeHide.
  unfold bind at 1. by rewrite Hrec.
Qed.


(** The diversion in one equation.  The link is built before the note is
    created, so a label that cannot be rendered stops the branch there. *)
Lemma divertToClipboard_unfold response request parentFile snapshotText w :
  let w1 := logged w (EvNotice NoticeSelectionChanged) in
  divertToClipboard response request parentFile snapshotText w =
    match outputAction request with
    | create_note =>
        match clipboardLink response snapshotText with
        | Some link =>
            let w2 :=
              finalWorld (createNoteFile response request parentFile w1) in
            Done tt (logged (withClipboard w2 link) (EvClipboardWrite link))
        | None => Raised ExTypeError w1
        end
    | _ =>
        Done tt (logged (withClipboard w1 (content response))
                        (EvClipboardWrite (content response)))
    end.
Proof.
  intros w1. unfold Plugin.divertToClipboard, bind at 1, notice.
  fold w1. destruct (outputAction request); try done.
  destruct (clipboardLink response snapshotText) as [link|]; [|done].
  destruct (createNoteFile_returns normalizePath whileCreatingFolder
              whileCreatingFile response request parentFile w1)
    as (r & w' & evs & Hc & _).
  unfold bind. rewrite Hc. done.
Qed.



(** The apply step never reads the whole document. *)
Lemma applyAction_events response request parentFile snapshotText w :
  exists evs,
    log (finalWorld (applyAction response request parentFile snapshotText w))
      = log w ++ evs /\
    Forall (fun ev => isDocumentScan ev = false) evs.
Proof.
  unfold Plugin.applyAction. destruct (outputAction request).
  - unfold Plugin.handleCreateNoteAction, bind at 1.
    destruct (createNoteFile_returns normalizePath whileCreatingFolder
                whileCreatingFile response request parentFile w)
      as (r & w' & evs & Hc & Hl & Hevs & _).
    assert (Hevs' : Forall (fun ev => isDocumentScan ev = false) evs).
    { eapply Forall_impl; [exact Hevs|]. by intros []. }
    rewrite Hc. destruct r as [newFile|].
    + unfold Plugin.linkLabelOf, bind, ret, throw, editor_replaceSelection,
        notice.
      destruct (toBoolean (anchorLabel response));
        [destruct (anchorLabel response) as [| | | | lbl | |];
         try destruct (trim lbl) |];
        destruct (isFallback response);
        cbn [finalWorld log logged withEditor]; rewrite Hl, <- ?app_assoc;
        eexists; (split; [reflexivity|]);
        rewrite ?app_nil_r; try done;
        apply Forall_app; split; try done; by repeat constructor.
    + exists evs. by rewrite <- Hl.
  - unfold bind, editor_replaceSelection, notice.
    cbn [finalWorld log logged withEditor]. rewrite <- app_assoc.
    eexists. split; [reflexivity|]. by repeat constructor.
  - unfold bind, editor_replaceSelection, notice.
    cbn [finalWorld log logged withEditor]. rewrite <- app_assoc.
    eexists. split; [reflexivity|]. by repeat constructor.
Qed.

Lemma tryCatch_onFailure_log (m : M unit) w :
  exists evs,
    log (finalWorld (tryCatch m Plugin.onFailure w))
      = log (finalWorld (m w)) ++ evs /\
    Forall (fun ev => isEditorCall ev = false) evs.
Proof.
  unfold tryCatch. destruct (m w) as [a w'|e w'].
  - exists []. by rewrite app_nil_r.
  - exists [EvNoticeHide; EvNotice NoticeFailed].
    split; [|by repeat constructor].
    unfold Plugin.onFailure, bind, noticeHide, notice.
    cbn [finalWorld log logged]. by rewrite <- app_assoc.
Qed.

(** C1. Safe-apply reconciliation.  When the provider has answered, the
    live selection is compared with the snapshot first.  If they are equal
    the apply step runs on the editor as the user left it and the whole
    run never reads the document text.  If they differ and the snapshot
    occurs exactly once in the document, the selection is set to the span
    recomputed from the character offset of that occurrence, the text
    under that span is the snapshot, and the apply step runs there. *)
Theorem safe_apply_reconciliation settings request parentFile provider
    during response w :
  apiKey settings <> [] ->
  generateNote settings request provider = Ok response ->
  let snapshotText := selectedText request in
  let live := during (logged w (EvNotice NoticeGenerating)) in
  let checked := logged (logged live EvNoticeHide) EvGetSelection in
  (getSelection (editor live) = snapshotText ->
     runGeneration settings request parentFile provider during w =
       tryCatch (applyAction response request parentFile snapshotText)
                Plugin.onFailure checked /\
     editor checked = editor live /\
     exists evs,
       log (finalWorld
              (runGeneration settings request parentFile provider during w))
         = log live ++ evs /\
       Forall (fun ev => isDocumentScan ev = false) evs)
  /\
  (getSelection (editor live) <> snapshotText ->
   occurrences (doc (editor live)) snapshotText = 1%nat ->
   exists (i : nat) (anchor head : EditorPosition),
     let relocated := setSelection (editor live) anchor head in
     indexOf (doc (editor live)) snapshotText = Z.of_nat i /\
     selFrom relocated = i /\
     selTo relocated = (i + length snapshotText)%nat /\
     doc relocated = doc (editor live) /\
     getSelection relocated = snapshotText /\
     runGeneration settings request parentFile provider during w =
       tryCatch (applyAction response request parentFile snapshotText)
                Plugin.onFailure
                (logged (withEditor (logged checked EvGetValue) relocated)
                        (EvSetSelection anchor head))).
Proof.
  intros Hkey Hgen snapshotText live checked.
  pose proof (runGeneration_resumes settings request parentFile provider
                during response w Hkey Hgen) as Hrun.
  fold live snapshotText in Hrun. split.
  - intros Hsame.
    assert (Heq : runGeneration settings request parentFile provider during w =
                  tryCatch (applyAction response request parentFile snapshotText)
                           Plugin.onFailure checked).
    { rewrite Hrun. unfold tryCatch.
      by rewrite (afterResponse_same _ _ _ _ _ Hsame). }
    split; [exact Heq|]. split; [done|].
    rewrite Heq.
    destruct (tryCatch_onFailure_log
                (applyAction response request parentFile snapshotText) checked)
      as (evs2 & -> & Hevs2).
    destruct (applyAction_events response request parentFile snapshotText checked)
      as (evs1 & -> & Hevs1).
    exists ([EvNoticeHide; EvGetSelection] ++ evs1 ++ evs2).
    split.
    + subst checked. cbn [log logged]. by rewrite <- !app_assoc.
    + apply Forall_app; split; [by repeat constructor|].
      apply Forall_app; split; [done|].
      eapply Forall_impl; [exact Hevs2|]. by intros [].
  - intros Hne Hocc.
    destruct (afterResponse_relocated response request parentFile snapshotText
                live Hne Hocc)
      as (i & anchor & head & Hi & Ha & Hh & Hsel & Hafter).
    exists i, anchor, head. cbn zeta.
    split; [done|].
    split; [unfold selFrom; cbn [setSelection selAnchor selHead]; lia|].
    split; [unfold selTo; cbn [setSelection selAnchor selHead]; lia|].
    split; [done|]. split; [done|].
    rewrite Hrun. unfold tryCatch. by rewrite Hafter.
Qed.

(** Reconciliation touches neither the vault nor the clipboard. *)
Lemma reconcile_returns snapshotText w :
  exists b w',
    Plugin.reconcile snapshotText w = Done b w' /\
    vault w' = vault w /\ clipboard w' = clipboard w /\
    exists evs, log w' = log w ++ evs /\
                Forall (fun ev => isEditorCall ev = true) evs.
Proof.
  destruct (decide (getSelection (editor w) = snapshotText)) as [Hs|Hs].
  - rewrite (reconcile_same _ _ Hs). eexists _, _.
    repeat split; try done. eexists; split; [done | by repeat constructor].
  - destruct (decide (occurrences (doc (editor w)) snapshotText = 1%nat))
      as [Ho|Ho].
    + destruct (reconcile_relocates _ _ Hs Ho)
        as (i & a & h & _ & _ & _ & _ & ->).
      eexists _, _. repeat split; try done.
      exists [EvGetSelection; EvGetValue; EvSetSelection a h].
      cbn [log logged withEditor]. rewrite <- !app_assoc.
      split; [done | by repeat constructor].
    + rewrite (reconcile_fails _ _ Hs Ho). eexists _, _.
      repeat split; try done.
      exists [EvGetSelection; EvGetValue].
      cbn [log logged]. rewrite <- !app_assoc.
      split; [done | by repeat constructor].
Qed.



Lemma createNoteFile_collision response request parentFile w :
  let target := targetPathOf response request parentFile in
  let looked := folderStep (targetFolderOf request parentFile) request w in
  is_Some (files (vault looked) !! target) ->
  createNoteFile response request parentFile w =
    Done None (logged looked (EvNotice (NoticeExists target))).
Proof.
  intros target looked H. rewrite createNoteFile_unfold.
  cbn zeta. fold target looked. by rewrite (existsAt_file _ _ H).
Qed.

(** With a user who stays away while the folder is created, a document
    that is at the target path is still there when [createNoteFile]
    looks for it. *)
Lemma collision_persists response request parentFile w :
  let target := targetPathOf response request parentFile in
  undisturbed whileCreatingFolder ->
  is_Some (files (vault w) !! target) ->
  forall w0, vault w0 = vault w ->
    is_Some (files (vault (folderStep (targetFolderOf request parentFile)
                             request w0)) !! target).
Proof.
  intros target Hu Hex w0 Hv.
  destruct (folderStep_preserves whileCreatingFolder
              (targetFolderOf request parentFile) request w0 Hu)
    as (_ & _ & ->).
  by rewrite Hv.
Qed.

(** What a create_note continuation leaves behind on a collision. *)
Lemma afterResponse_collision response request parentFile snapshotText w :
  let target := targetPathOf response request parentFile in
  (forall w0, vault w0 = vault w ->
     is_Some (files (vault (folderStep (targetFolderOf request parentFile)
                              request w0)) !! target)) ->
  outputAction request = create_note ->
  exists final evs,
    finalWorld (afterResponse response request parentFile snapshotText w)
      = final /\
    log final = log w ++ evs /\
    (forall p data, ~ List.In (EvVaultCreate p data) evs) /\
    (getSelection (editor w) = snapshotText \/
     occurrences (doc (editor w)) snapshotText = 1%nat \/
     clipboardLink response snapshotText <> None ->
     List.In (EvNotice (NoticeExists target)) evs) /\
    (undisturbed whileCreatingFolder ->
     files (vault final) = files (vault w)).
Proof.
  intros target Hex Hact.
  unfold Plugin.afterResponse, bind at 1, noticeHide. unfold bind at 1.
  destruct (reconcile_returns snapshotText (logged w EvNoticeHide))
    as (b & w1 & Hrec & Hv & _ & evs1 & Hl1 & Hevs1).
  rewrite Hrec.
  cbn [vault log logged] in Hv, Hl1.
  assert (Hnc1 : forall p data, ~ List.In (EvVaultCreate p data) evs1).
  { intros p data Hin. rewrite List.Forall_forall in Hevs1.
    by apply Hevs1 in Hin. }
  destruct b; cbn [negb].
  - unfold Plugin.applyAction. rewrite Hact.
    unfold Plugin.handleCreateNoteAction, bind.
    rewrite (createNoteFile_collision _ _ _ _ (Hex w1 Hv)).
    destruct (folderStep_log whileCreatingFolder
                (targetFolderOf request parentFile) request w1)
      as (evs & Hl & Hevs).
    eexists _, ([EvNoticeHide] ++ evs1 ++ evs
                ++ [EvNotice (NoticeExists target)]).
    split; [reflexivity|].
    cbn [finalWorld ret vault files log logged].
    split.
    { rewrite Hl, Hl1. by rewrite <- !app_assoc. }
    split.
    { intros p data Hin. rewrite !in_app_iff in Hin.
      destruct Hin as [[Hin|[]]|[Hin|[Hin|[Hin|[]]]]]; try done.
      - by apply Hnc1 in Hin.
      - rewrite List.Forall_forall in Hevs. by apply Hevs in Hin. }
    split.
    { intros _. rewrite !in_app_iff. right. right. right. by left. }
    intros Hu.
    destruct (folderStep_preserves whileCreatingFolder
                (targetFolderOf request parentFile) request w1 Hu)
      as (_ & _ & Hf).
    by rewrite Hf, Hv.
  - rewrite divertToClipboard_unfold, Hact.
    destruct (clipboardLink response snapshotText) as [link|] eqn:Hlink.
    + cbn zeta.
      assert (Hv1 : vault (logged w1 (EvNotice NoticeSelectionChanged))
                    = vault w) by done.
      rewrite (createNoteFile_collision _ _ _ _ (Hex _ Hv1)).
      destruct (folderStep_log whileCreatingFolder
                  (targetFolderOf request parentFile) request
                  (logged w1 (EvNotice NoticeSelectionChanged)))
        as (evs & Hl & Hevs).
      eexists _, ([EvNoticeHide] ++ evs1
                  ++ [EvNotice NoticeSelectionChanged] ++ evs
                  ++ [EvNotice (NoticeExists target)]
                  ++ [EvClipboardWrite link]).
      split; [reflexivity|].
      cbn [finalWorld vault files log logged withClipboard] in *.
      split.
      { rewrite Hl, Hl1. by rewrite <- !app_assoc. }
      split.
      { intros p data Hin. rewrite !in_app_iff in Hin.
        destruct Hin as [[Hin|[]]|[Hin|[[Hin|[]]|[Hin|[[Hin|[]]|[Hin|[]]]]]]];
          try done.
        - by apply Hnc1 in Hin.
        - rewrite List.Forall_forall in Hevs. by apply Hevs in Hin. }
      split.
      { intros _. rewrite !in_app_iff. do 4 right. left. by left. }
      intros Hu.
      destruct (folderStep_preserves whileCreatingFolder
                  (targetFolderOf request parentFile) request
                  (logged w1 (EvNotice NoticeSelectionChanged)) Hu)
        as (_ & _ & Hf).
      rewrite Hf. cbn [vault logged]. by rewrite Hv.
    + eexists _, ([EvNoticeHide] ++ evs1
                  ++ [EvNotice NoticeSelectionChanged]).
      split; [reflexivity|].
      cbn [finalWorld vault files log logged].
      split.
      { rewrite Hl1. by rewrite <- !app_assoc. }
      split.
      { intros p data Hin. rewrite !in_app_iff in Hin.
        destruct Hin as [[Hin|[]]|[Hin|[Hin|[]]]]; try done.
        by apply Hnc1 in Hin. }
      split; [|by rewrite Hv].
      intros [Hs|[Ho|Hn]]; [| |done]; exfalso.
      * rewrite (reconcile_same snapshotText (logged w EvNoticeHide) Hs)
          in Hrec. done.
      * destruct (decide (getSelection (editor (logged w EvNoticeHide))
                          = snapshotText)) as [Hs|Hs].
        -- rewrite (reconcile_same snapshotText (logged w EvNoticeHide) Hs)
             in Hrec. done.
        -- destruct (reconcile_relocates snapshotText (logged w EvNoticeHide)
                       Hs Ho)
             as (i & a & h & _ & _ & _ & _ & Hr).
           rewrite Hr in Hrec. done.
Qed.

(** C8. Collision safety.  When a document is at the composed target path
    at the moment [createNoteFile] looks for it, [createNoteFile] returns
    no document, its last act is the collision notice, it asks the vault
    to create no file, and it leaves the vault, the editor and the
    clipboard as they were at that moment; with a user who stays away
    while the folder is created, the files of the vault and their contents
    are what they were before the call.  In a whole create_note
    continuation of a run, when a document is at the target path whenever
    [createNoteFile] looks, the vault is never asked to create a file,
    whichever way reconciliation went; the collision notice is shown
    whenever [createNoteFile] is reached, that is unless reconciliation
    failed and the label of the clipboard link cannot be rendered; and
    with a user who stays away while the folder is created the files of
    the vault and their contents are what they were. *)
Theorem collision_aborts_creation response request parentFile w :
  let target := targetPathOf response request parentFile in
  let folder := targetFolderOf request parentFile in
  (is_Some (files (vault (folderStep folder request w)) !! target) ->
   exists w' evs,
     createNoteFile response request parentFile w = Done None w' /\
     vault w' = vault (folderStep folder request w) /\
     editor w' = editor (folderStep folder request w) /\
     clipboard w' = clipboard (folderStep folder request w) /\
     log w' = log w ++ evs ++ [EvNotice (NoticeExists target)] /\
     Forall (fun ev => ev = EvCreateFolder folder) evs /\
     (undisturbed whileCreatingFolder -> files (vault w') = files (vault w)))
  /\
  (forall snapshotText,
     outputAction request = create_note ->
     (forall w0, vault w0 = vault w ->
        is_Some (files (vault (folderStep folder request w0)) !! target)) ->
     exists final evs,
       finalWorld (afterResponse response request parentFile snapshotText w)
         = final /\
       log final = log w ++ evs /\
       (forall p data, ~ List.In (EvVaultCreate p data) evs) /\
       (getSelection (editor w) = snapshotText \/
        occurrences (doc (editor w)) snapshotText = 1%nat \/
        clipboardLink response snapshotText <> None ->
        List.In (EvNotice (NoticeExists target)) evs) /\
       (undisturbed whileCreatingFolder ->
        files (vault final) = files (vault w))).
Proof.
  intros target folder. split.
  - intros Hex. rewrite (createNoteFile_collision _ _ _ _ Hex).
    destruct (folderStep_log whileCreatingFolder folder request w)
      as (evs & Hl & Hevs).
    eexists _, evs. split; [reflexivity|].
    cbn [vault editor clipboard files log logged]. fold folder.
    rewrite Hl, <- app_assoc. repeat split; try done.
    intros Hu.
    by destruct (folderStep_preserves whileCreatingFolder folder request w Hu)
      as (_ & _ & ->).
  - intros snapshotText Hact Hex.
    by apply afterResponse_collision.
Qed.


Lemma linkLabelOf_returns response request w :
  toBoolean (anchorLabel response) = false \/
  (exists s, anchorLabel response = JString s) ->
  Plugin.linkLabelOf response request w
  = Done (insertedLabel response request) w.
Proof.
  unfold Plugin.linkLabelOf, insertedLabel, ret.
  intros [Hf|(s & Hs)].
  - rewrite Hf. destruct (anchorLabel response) as [| | | | s | |]; try done.
    destruct s; [done|]. discriminate Hf.
  - rewrite Hs. destruct s as [|c s']; [done|]. cbn [toBoolean].
    by destruct (trim (c :: s')).
Qed.

Lemma linkLabelOf_throws response request w :
  toBoolean (anchorLabel response) = true ->
  (forall s, anchorLabel response <> JString s) ->
  Plugin.linkLabelOf response request w = Raised ExTypeError w.
Proof.
  unfold Plugin.linkLabelOf, throw. intros -> Hns.
  destruct (anchorLabel response) as [| | | | s | |]; try done.
  by destruct (Hns s).
Qed.

(** [handleCreateNoteAction] when the target path is free: the note is
    written, the user has a turn, and the link replaces what is selected
    when the plugin resumes. *)
Lemma handleCreateNoteAction_created response request parentFile w :
  let target := targetPathOf response request parentFile in
  let fullContent := Plugin.parentLink parentFile ++ content response in
  let w1 := folderStep (targetFolderOf request parentFile) request w in
  let wr := fileStep target fullContent w1 in
  existsAt (vault w1) target = false ->
  handleCreateNoteAction response request parentFile w =
    match Plugin.linkLabelOf response request wr with
    | Done label w3 =>
        Done tt
          (logged
             (logged
                (withEditor w3 (replaceSelection (editor w3)
                                  (Plugin.wikiLink target label)))
                (EvReplaceSelection (Plugin.wikiLink target label)))
             (EvNotice (if isFallback response then NoticeUnstructured
                        else NoticeCreated (baseName target))))
    | Raised err w3 => Raised err w3
    end.
Proof.
  intros target fullContent w1 wr Hfree.
  unfold Plugin.handleCreateNoteAction, bind at 1.
  rewrite createNoteFile_unfold. cbn zeta. fold target fullContent w1.
  rewrite Hfree. fold wr. unfold bind at 1.
  destruct (Plugin.linkLabelOf response request wr) as [label w3|err w3];
    [|done].
  unfold bind, editor_replaceSelection, notice. cbn [path basename fileAt].
  by destruct (isFallback response).
Qed.

End Orchestrator.

(* ===================================================================== *)
(* 12. Facts about trim                                                   *)
(* ===================================================================== *)

Section TrimFacts.
Implicit Types s a b m : jsstring.

Lemma trimStart_split s :
  exists l, s = l ++ trimStart s /\ forallb isWhiteSpace l = true.
Proof.
  induction s as [|c t (l & Hl & Hws)]; [by exists []|].
  simpl. destruct (isWhiteSpace c) eqn:E.
  - exists (c :: l). simpl. rewrite E, Hws. split; [by f_equal | done].
  - by exists [].
Qed.

Lemma forallb_reverse (f : codeunit -> bool) s :
  forallb f (rev s) = forallb f s.
Proof.
  induction s as [|c t IH]; simpl; [done|].
  rewrite forallb_app, IH. simpl. rewrite andb_true_r. apply andb_comm.
Qed.

Lemma trimEnd_split s :
  exists r, s = trimEnd s ++ r /\ forallb isWhiteSpace r = true.
Proof.
  unfold trimEnd. destruct (trimStart_split (rev s)) as (l & Hl & Hws).
  exists (rev l). split.
  - rewrite <- rev_app_distr, <- Hl. by rewrite rev_involutive.
  - by rewrite forallb_reverse.
Qed.

(** [trim] removes a run of white space at each end and nothing else. *)
Lemma trim_split s :
  exists l r, s = l ++ trim s ++ r /\
              forallb isWhiteSpace l = true /\ forallb isWhiteSpace r = true.
Proof.
  destruct (trimStart_split s) as (l & Hl & Hwl).
  destruct (trimEnd_split (trimStart s)) as (r & Hr & Hwr).
  exists l, r. unfold trim. by rewrite <- Hr.
Qed.

Lemma trimStart_keeps a c m :
  isWhiteSpace c = false ->
  exists a', trimStart (a ++ c :: m) = a' ++ c :: m.
Proof.
  intros Hc. induction a as [|x a IH]; simpl.
  - rewrite Hc. by exists [].
  - destruct (isWhiteSpace x); [done|]. by exists (x :: a).
Qed.

Lemma trimEnd_keeps m c b :
  isWhiteSpace c = false ->
  exists b', trimEnd (m ++ c :: b) = m ++ c :: b'.
Proof.
  intros Hc. unfold trimEnd.
  rewrite rev_app_distr. simpl. rewrite <- app_assoc. simpl.
  destruct (trimStart_keeps (rev b) c (rev m) Hc) as (a' & ->).
  exists (rev a'). rewrite rev_app_distr. simpl.
  by rewrite rev_involutive, <- app_assoc.
Qed.

(** A trimmed text neither starts nor ends with white space. *)
Lemma trimStart_head s c t :
  trimStart s = c :: t -> isWhiteSpace c = false.
Proof.
  induction s as [|x s IH]; simpl; [done|].
  destruct (isWhiteSpace x) eqn:E; [done|]. by intros [= <- _].
Qed.

Lemma trim_head s c t : trim s = c :: t -> isWhiteSpace c = false.
Proof.
  unfold trim. destruct (trimStart s) as [|x u] eqn:E.
  - done.
  - pose proof (trimStart_head _ _ _ E) as Hx.
    destruct (trimEnd_keeps [] x u Hx) as (b' & Hb). simpl in Hb.
    rewrite Hb. by intros [= <- _].
Qed.


Lemma trim_nil_all_space s :
  trim s = [] -> forallb isWhiteSpace s = true.
Proof.
  intros H. destruct (trim_split s) as (l & r & Hs & Hl & Hr).
  rewrite Hs, H. simpl. by rewrite forallb_app, Hl, Hr.
Qed.

End TrimFacts.

(* ===================================================================== *)
(* 13. The two links of create_note                                       *)
(* ===================================================================== *)

Section Links.
Variable normalizePath : jsstring -> jsstring.
Variable numberToString : bool -> N -> Z -> jsstring.
Variable whileCreatingFolder : World -> World.
Variable whileCreatingFile : World -> World.

Local Abbreviation createNoteFile :=
  (Plugin.createNoteFile normalizePath whileCreatingFolder whileCreatingFile).
Local Abbreviation targetFolderOf := (Plugin.targetFolderOf normalizePath).
Local Abbreviation targetPathOf := (Plugin.targetPathOf normalizePath).
Local Abbreviation handleCreateNoteAction :=
  (Plugin.handleCreateNoteAction normalizePath whileCreatingFolder
     whileCreatingFile).
Local Abbreviation toString := (Plugin.toString numberToString).
Local Abbreviation divertToClipboard :=
  (Plugin.divertToClipboard normalizePath numberToString whileCreatingFolder
     whileCreatingFile).
Local Abbreviation folderStep := (Observe.folderStep whileCreatingFolder).
Local Abbreviation fileStep := (Observe.fileStep whileCreatingFile).

Lemma filter_all {A} (f : A -> bool) (l : list A) :
  forallb f l = true -> List.filter f l = l.
Proof.
  induction l as [|x l IH]; simpl; [done|].
  intros [Hx Hl]%andb_true_iff. rewrite Hx. f_equal. by apply IH.
Qed.

Lemma forallb_filter {A} (f : A -> bool) (l : list A) :
  forallb f (List.filter f l) = true.
Proof.
  induction l as [|x l IH]; simpl; [done|].
  destruct (f x) eqn:E; simpl; [by rewrite E|done].
Qed.

Lemma removeIllegal_safeTitle (t : jsstring) :
  Plugin.removeIllegal (trim (Plugin.removeIllegal t))
  = trim (Plugin.removeIllegal t).
Proof.
  unfold Plugin.removeIllegal at 1. apply filter_all.
  destruct (trim_split (Plugin.removeIllegal t)) as (l & r & Hs & _ & _).
  pose proof (forallb_filter (fun c => negb (Plugin.isIllegalInFileName c)) t)
    as Hall.
  fold (Plugin.removeIllegal t) in Hall. rewrite Hs in Hall.
  rewrite !forallb_app in Hall.
  by apply andb_true_iff in Hall as [_ [Hall _]%andb_true_iff].
Qed.




End Links.

(* ===================================================================== *)
(* 14. Facts about the code-fence pattern                                 *)
(* ===================================================================== *)

Section RegexFacts.
Implicit Types (st mid : mstate) (p : codeunit -> bool).

Lemma classRun_take p (s : jsstring) k :
  (k <= classRun p s)%nat ->
  forallb p (take k s) = true /\ (k <= length s)%nat.
Proof.
  revert k; induction s as [|c t IH]; intros k Hk; simpl in *.
  - assert (k = O) as -> by lia. done.
  - destruct k as [|k]; [simpl; split; [done|lia]|].
    destruct (p c) eqn:E; [|lia].
    destruct (IH k ltac:(lia)) as [H1 H2]. simpl. rewrite E, H1.
    split; [done|lia].
Qed.

Lemma classRun_any (s : jsstring) : classRun anyUnit s = length s.
Proof. induction s as [|c t IH]; simpl; [done | by rewrite IH]. Qed.

Lemma advance_consumed st k :
  (k <= length (rest st))%nat ->
  consumed st (advance st k) (take k (rest st)).
Proof.
  intros Hk. unfold consumed, advance. cbn [rest pos].
  rewrite take_drop, length_take. split; [done | lia].
Qed.

Lemma run_class_in (counts : list nat) p st st' :
  (forall k, List.In k counts -> (k <= classRun p (rest st))%nat) ->
  List.In st' (List.map (advance st) counts) ->
  exists w, consumed st st' w /\ forallb p w = true
            /\ group1 st' = group1 st.
Proof.
  intros Hc Hin. apply in_map_iff in Hin as (k & <- & Hk).
  destruct (classRun_take p (rest st) k (Hc k Hk)) as [Hall Hlen].
  exists (take k (rest st)). split; [by apply advance_consumed | done].
Qed.

Lemma run_star_in p st st' :
  List.In st' (run (RStar p) st) ->
  exists w, consumed st st' w /\ forallb p w = true
            /\ group1 st' = group1 st.
Proof.
  apply run_class_in. intros k Hk.
  apply in_rev, in_seq in Hk. lia.
Qed.

Lemma run_plus_in p st st' :
  List.In st' (run (RPlus p) st) ->
  exists w, consumed st st' w /\ forallb p w = true
            /\ group1 st' = group1 st.
Proof.
  apply run_class_in. intros k Hk.
  apply in_rev, in_seq in Hk. lia.
Qed.

Lemma run_lazy_in p st st' :
  List.In st' (run (RLazy p) st) ->
  exists w, consumed st st' w /\ forallb p w = true
            /\ group1 st' = group1 st.
Proof.
  apply run_class_in. intros k Hk. apply in_seq in Hk. lia.
Qed.

Lemma upper_backtick c : upper c = BACKTICK -> c = BACKTICK.
Proof.
  unfold upper, BACKTICK.
  destruct ((97 <=? c) && (c <=? 122))%N eqn:E; [|done].
  apply andb_true_iff in E as [H1 H2].
  apply N.leb_le in H1, H2. lia.
Qed.

Lemma startsWith_ci_fence (s : jsstring) :
  startsWith_ci s fence = true -> s = fence ++ drop 3 s.
Proof.
  unfold fence.
  destruct s as [|a [|b [|c s]]]; cbn [startsWith_ci];
    rewrite ?andb_false_r; try done.
  change (upper BACKTICK) with BACKTICK. rewrite andb_true_r.
  intros [Ha [Hb Hc]%andb_true_iff]%andb_true_iff.
  apply N.eqb_eq in Ha, Hb, Hc.
  symmetry in Ha, Hb, Hc.
  apply upper_backtick in Ha, Hb, Hc. by subst.
Qed.

Lemma run_fence_in st st' :
  List.In st' (run (RLit fence) st) ->
  consumed st st' fence /\ group1 st' = group1 st.
Proof.
  cbn [run]. destruct (startsWith_ci (rest st) fence) eqn:E; [|done].
  intros [<-|[]]. apply startsWith_ci_fence in E.
  split; [|done]. unfold consumed, advance. cbn [rest pos].
  split; [exact E | done].
Qed.

Lemma run_seq_in r1 r2 st st' :
  List.In st' (run (RSeq r1 r2) st) <->
  exists mid, List.In mid (run r1 st) /\ List.In st' (run r2 mid).
Proof. cbn [run]. apply in_flat_map. Qed.

(** Every alternative of the in-place pattern splits the text into the
    opening fence, a tag of word characters, white space, the capture,
    white space and the closing fence. *)
Lemma codeBlock_any_in (text : jsstring) k m :
  List.In m (run codeBlockRegex_any (MState k (drop k text) None)) ->
  exists tag ws1 ws2,
    text = fence ++ tag ++ ws1 ++ capture1 m ++ ws2 ++ fence /\
    forallb isWordChar tag = true /\
    forallb isWhiteSpace ws1 = true /\ forallb isWhiteSpace ws2 = true.
Proof.
  unfold codeBlockRegex_any. intros H.
  apply run_seq_in in H as (s0 & H0 & H).
  cbn [run pos] in H0. destruct (Nat.eqb_spec k 0) as [->|]; [|done].
  destruct H0 as [<-|[]]. rewrite drop_0 in H.
  apply run_seq_in in H as (s1 & H1 & H).
  apply run_fence_in in H1 as [[R1 P1] G1]. cbn [rest pos group1] in R1, P1, G1.
  apply run_seq_in in H as (s2 & H2 & H).
  assert (Htag : exists tag, consumed s1 s2 tag /\ forallb isWordChar tag = true
                             /\ group1 s2 = group1 s1).
  { cbn [run] in H2. apply in_app_iff in H2 as [H2|[<-|[]]].
    - by apply run_plus_in.
    - exists []. unfold consumed. simpl. split; [split; [done|lia]|done]. }
  destruct Htag as (tag & [R2 P2] & Wtag & G2).
  apply run_seq_in in H as (s3 & H3 & H).
  apply run_star_in in H3 as (ws1 & [R3 P3] & Wws1 & G3).
  apply run_seq_in in H as (s4 & H4 & H).
  cbn [run] in H4. apply in_map_iff in H4 as (s4' & <- & H4).
  apply run_lazy_in in H4 as (cap & [R4 P4] & _ & G4).
  apply run_seq_in in H as (s5 & H5 & H).
  apply run_star_in in H5 as (ws2 & [R5 P5] & Wws2 & G5).
  cbn [rest pos group1] in R5, P5, G5.
  apply run_seq_in in H as (s6 & H6 & H).
  apply run_fence_in in H6 as [[R6 P6] G6].
  cbn [run] in H. destruct (rest s6) eqn:E6; [|done].
  destruct H as [<-|[]].
  exists tag, ws1, ws2. repeat split; try done.
  unfold capture1. rewrite G6, G5.
  replace (pos s4' - pos s3)%nat with (length cap) by lia.
  rewrite R4, take_app_length. cbn [default].
  rewrite R1, R2, R3, R4, R5, R6. by rewrite app_nil_r.
Qed.

Lemma firstMatch_in r (text : jsstring) starts m :
  firstMatch r text starts = Some m ->
  exists k, List.In m (run r (MState k (drop k text) None)).
Proof.
  induction starts as [|k ks IH]; simpl; [done|].
  unfold matchAt at 1.
  destruct (head (run r (MState k (drop k text) None))) as [m'|] eqn:E.
  - intros [= ->]. exists k.
    destruct (run r (MState k (drop k text) None)); [done|].
    simpl in E. injection E as ->. by left.
  - exact IH.
Qed.

Lemma codeBlock_any_sound (text : jsstring) m :
  regexMatch text codeBlockRegex_any = Some m ->
  exists tag ws1 ws2,
    text = fence ++ tag ++ ws1 ++ capture1 m ++ ws2 ++ fence /\
    forallb isWordChar tag = true /\
    forallb isWhiteSpace ws1 = true /\ forallb isWhiteSpace ws2 = true.
Proof.
  intros H. apply firstMatch_in in H as (k & H).
  by apply codeBlock_any_in in H.
Qed.

Lemma startsWith_ci_app (s p : jsstring) : startsWith_ci (p ++ s) p = true.
Proof.
  induction p as [|a p IH]; simpl; [done|]. by rewrite N.eqb_refl.
Qed.

Lemma run_lit_in_intro st (s : jsstring) :
  startsWith_ci (rest st) s = true ->
  List.In (advance st (length s)) (run (RLit s) st).
Proof. intros H. cbn [run]. rewrite H. by left. Qed.

Lemma run_star_zero p st : List.In (advance st 0) (run (RStar p) st).
Proof.
  cbn [run]. apply in_map, in_rev. rewrite rev_involutive.
  apply in_seq. lia.
Qed.

Lemma run_lazy_intro p st k :
  (k <= classRun p (rest st))%nat ->
  List.In (advance st k) (run (RLazy p) st).
Proof. intros H. cbn [run]. apply in_map, in_seq. lia. Qed.

(** A text between two fences is matched by the in-place pattern. *)
Lemma codeBlock_any_complete (body : jsstring) :
  is_Some (regexMatch (fence ++ body ++ fence) codeBlockRegex_any).
Proof.
  set (text := fence ++ body ++ fence).
  assert (Hin : exists m,
             List.In m (run codeBlockRegex_any (MState 0 (drop 0 text) None))).
  { set (s0 := MState 0 (drop 0 text) None).
    set (s1 := advance s0 (length fence)).
    set (s3 := advance s1 0).
    set (s4' := advance s3 (length body)).
    set (s4 := MState (pos s4') (rest s4')
                      (Some (take (pos s4' - pos s3) (rest s3)))).
    set (s5 := advance s4 0).
    set (s6 := advance s5 (length fence)).
    assert (R3 : rest s3 = body ++ fence) by done.
    assert (R5 : rest s5 = fence).
    { subst s5 s4 s4'. cbn [rest advance]. rewrite R3.
      by rewrite drop_0, drop_app_length. }
    exists s6. unfold codeBlockRegex_any.
    apply run_seq_in. exists s0. split; [by left|].
    apply run_seq_in. exists s1. split.
    { apply run_lit_in_intro. apply startsWith_ci_app. }
    apply run_seq_in. exists s1. split.
    { cbn [run]. apply in_app_iff. right. by left. }
    apply run_seq_in. exists s3. split; [apply run_star_zero|].
    apply run_seq_in. exists s4. split.
    { cbn [run]. apply in_map_iff. exists s4'. split; [done|].
      apply in_map, in_seq. rewrite R3, classRun_any, length_app. lia. }
    apply run_seq_in. exists s5. split; [apply run_star_zero|].
    apply run_seq_in. exists s6. split.
    { apply run_lit_in_intro. rewrite R5.
      rewrite <- (app_nil_r fence) at 1. apply startsWith_ci_app. }
    cbn [run]. subst s6. cbn [rest advance]. rewrite R5. by left. }
  destruct Hin as (m & Hin).
  unfold regexMatch. cbn [seq firstMatch]. unfold matchAt.
  destruct (run codeBlockRegex_any (MState 0 (drop 0 text) None)) as [|m' l];
    [done|]. simpl. eauto.
Qed.

(** The first alternative: what backtracking settles on.  The greedy
    steps take the longest run at the first try, and the lazy capture
    stops at the first place from which white space and the closing fence
    reach the end of the text. *)

Lemma head_seq_first r1 r2 st a (l : list mstate) m :
  run r1 st = a :: l -> head (run r2 a) = Some m ->
  head (run (RSeq r1 r2) st) = Some m.
Proof.
  intros H1 H2. cbn [run]. rewrite H1. simpl.
  destruct (run r2 a); [done|]. done.
Qed.

Lemma head_flat_map_skip {A B} (f : A -> list B) (l1 : list A) a l2 :
  Forall (fun x => f x = []) l1 ->
  head (List.flat_map f (l1 ++ a :: l2)) = head (f a ++ List.flat_map f l2).
Proof.
  induction 1 as [|x l1 Hx _ IH]; simpl; [done|]. by rewrite Hx.
Qed.

Lemma flat_map_nil {A B} (f : A -> list B) (l : list A) :
  Forall (fun x => f x = []) l -> List.flat_map f l = [].
Proof. induction 1 as [|x l Hx _ IH]; simpl; [done|]. by rewrite Hx, IH. Qed.

Lemma classRun_le p (s : jsstring) : (classRun p s <= length s)%nat.
Proof.
  induction s as [|c t IH]; simpl; [done|]. destruct (p c); lia.
Qed.

Lemma classRun_stop p (x : jsstring) a y :
  p a = false -> classRun p (x ++ a :: y) = classRun p x.
Proof.
  intros Ha. induction x as [|c x IH]; simpl; [by rewrite Ha|].
  destruct (p c); [by rewrite IH | done].
Qed.

Lemma classRun_full p (x : jsstring) :
  forallb p x = true -> classRun p x = length x.
Proof.
  induction x as [|c x IH]; simpl; [done|].
  intros [-> Hx]%andb_true_iff. by rewrite IH.
Qed.

Lemma classRun_keeps p (s : jsstring) :
  forallb p (take (classRun p s) s) = true /\
  match drop (classRun p s) s with
  | c :: _ => p c = false
  | [] => True
  end.
Proof.
  induction s as [|c t [IH1 IH2]]; simpl; [done|].
  destruct (p c) eqn:E; simpl; [by rewrite E | done].
Qed.

Lemma drop_classRun_space (s : jsstring) :
  drop (classRun isWhiteSpace s) s = trimStart s.
Proof.
  induction s as [|c t IH]; simpl; [done|].
  by destruct (isWhiteSpace c).
Qed.

Lemma trimEnd_last (s x : jsstring) a :
  trimEnd s = x ++ [a] -> isWhiteSpace a = false.
Proof.
  unfold trimEnd. intros H. apply (f_equal (@rev _)) in H.
  rewrite rev_involutive, rev_app_distr in H. simpl in H.
  by apply trimStart_head in H.
Qed.

Lemma run_tail_fence st :
  rest st = fence ->
  run (RSeq (RLit fence) REol) st = [advance st 3].
Proof.
  intros H. cbn [run]. rewrite H.
  change (startsWith_ci fence fence) with true. cbv iota.
  cbn [List.flat_map run rest advance length fence]. by rewrite H.
Qed.

Lemma run_tail_long st :
  length (rest st) <> 3%nat ->
  run (RSeq (RLit fence) REol) st = [].
Proof.
  intros H. cbn [run].
  destruct (startsWith_ci (rest st) fence) eqn:E; [|done].
  apply startsWith_ci_fence in E.
  cbn [List.flat_map run rest advance length fence].
  destruct (drop 3 (rest st)) eqn:D; [|done].
  exfalso. apply H. by rewrite E.
Qed.

Lemma run_closing_fails st (x : jsstring) a tl :
  rest st = x ++ a :: tl -> isWhiteSpace a = false ->
  (3 <= length tl)%nat ->
  run (RSeq (RStar isWhiteSpace) (RSeq (RLit fence) REol)) st = [].
Proof.
  intros Hrest Ha Htl. cbn [run].
  fold (run (RSeq (RLit fence) REol)).
  apply flat_map_nil. apply List.Forall_forall.
  intros y Hy. apply in_map_iff in Hy as (i & <- & Hi).
  apply in_rev, in_seq in Hi.
  assert (Hrun : (classRun isWhiteSpace (rest st) <= length x)%nat).
  { rewrite Hrest, (classRun_stop _ _ _ _ Ha). apply classRun_le. }
  apply (run_tail_long (advance st i)).
  cbn [rest advance]. rewrite length_drop, Hrest, length_app. simpl. lia.
Qed.

Lemma run_closing_first st (ws2 : jsstring) :
  rest st = ws2 ++ fence -> forallb isWhiteSpace ws2 = true ->
  head (run (RSeq (RStar isWhiteSpace) (RSeq (RLit fence) REol)) st)
  = Some (advance (advance st (length ws2)) 3).
Proof.
  intros Hrest Hws.
  assert (Hn : classRun isWhiteSpace (rest st) = length ws2).
  { rewrite Hrest. unfold fence.
    rewrite (classRun_stop _ ws2 BACKTICK _ eq_refl).
    by apply classRun_full. }
  apply (head_seq_first _ _ _ (advance st (length ws2))
           (List.map (advance st) (rev (seq 0 (length ws2))))).
  - cbn [run]. rewrite Hn, seq_S, rev_app_distr. done.
  - rewrite run_tail_fence; [done|].
    cbn [rest advance]. rewrite Hrest. apply drop_app_length.
Qed.

(** The lazy capture followed by the closing part. *)
Lemma run_capture_first st (c ws2 : jsstring) :
  rest st = c ++ ws2 ++ fence ->
  forallb isWhiteSpace ws2 = true ->
  (forall x a, c = x ++ [a] -> isWhiteSpace a = false) ->
  exists m,
    head (run (RSeq (RGroup (RLazy anyUnit))
                 (RSeq (RStar isWhiteSpace) (RSeq (RLit fence) REol))) st)
      = Some m /\
    capture1 m = c.
Proof.
  intros Hrest Hws Hlast.
  set (K := RSeq (RStar isWhiteSpace) (RSeq (RLit fence) REol)).
  set (g := fun st' => MState (pos st') (rest st')
                         (Some (take (pos st' - pos st) (rest st)))).
  assert (Hrun : run (RGroup (RLazy anyUnit)) st =
            List.map g (List.map (advance st) (seq 0 (length c)))
            ++ g (advance st (length c))
            :: List.map g (List.map (advance st)
                             (seq (S (length c)) (length ws2 + 3)))).
  { cbn [run]. fold g. rewrite classRun_any, Hrest.
    rewrite !length_app. cbn [length fence].
    replace (S (length c + (length ws2 + 3)))
      with (length c + S (length ws2 + 3))%nat by lia.
    rewrite seq_app, !map_app. done. }
  exists (advance (advance (g (advance st (length c))) (length ws2)) 3).
  split.
  - cbn [run]. fold K. fold (run (RGroup (RLazy anyUnit)) st).
    rewrite Hrun, head_flat_map_skip.
    + assert (Hh : rest (g (advance st (length c))) = ws2 ++ fence).
      { cbn [rest advance g]. rewrite Hrest. apply drop_app_length. }
      pose proof (run_closing_first _ ws2 Hh Hws) as Hfirst. fold K in Hfirst.
      destruct (run K (g (advance st (length c)))) as [|m0 l0]; [done|].
      exact Hfirst.
    + apply List.Forall_forall. intros y Hy.
      apply in_map_iff in Hy as (y' & <- & Hy).
      apply in_map_iff in Hy as (j & <- & Hj).
      apply in_seq in Hj.
      destruct (exists_last (l := c)) as (x & a & Hc).
      { intros ->. simpl in Hj. lia. }
      assert (Hjx : (j <= length x)%nat).
      { rewrite Hc, length_app in Hj. simpl in Hj. lia. }
      apply (run_closing_fails _ (drop j x) a (ws2 ++ fence)).
      * cbn [rest advance g]. rewrite Hrest, Hc, <- !app_assoc.
        rewrite drop_app_le; [done | exact Hjx].
      * by apply (Hlast x a).
      * rewrite length_app. cbn [length fence]. lia.
  - unfold capture1. cbn [group1 advance g pos default].
    replace (pos st + length c - pos st)%nat with (length c) by lia.
    rewrite Hrest. cbn. apply take_app_length.
Qed.

Lemma run_star_first p st :
  exists a l, run (RStar p) st = a :: l /\
              rest a = drop (classRun p (rest st)) (rest st).
Proof.
  eexists _, _. cbn [run]. rewrite seq_S, rev_app_distr.
  split; [reflexivity | done].
Qed.

Lemma run_opt_first p st :
  exists a l, run (ROpt (RPlus p)) st = a :: l /\
              rest a = drop (classRun p (rest st)) (rest st).
Proof.
  cbn [run]. destruct (classRun p (rest st)) as [|n].
  - by exists st, [].
  - rewrite seq_S, rev_app_distr. eexists _, _.
    split; [reflexivity | done].
Qed.

(** A text between two fences: the tag is the longest run of word
    characters after the opening fence, and the capture is what follows
    it, less the white space at both ends. *)
Lemma codeBlock_any_first (body : jsstring) :
  exists m,
    regexMatch (fence ++ body ++ fence) codeBlockRegex_any = Some m /\
    capture1 m = trimEnd (trimStart (drop (classRun isWordChar body) body)).
Proof.
  set (text := fence ++ body ++ fence).
  set (inner := drop (classRun isWordChar body) body).
  set (s0 := MState 0 (drop 0 text) None).
  assert (Hhead : exists m,
             head (run codeBlockRegex_any s0) = Some m /\
             capture1 m = trimEnd (trimStart inner)).
  { destruct (trimEnd_split (trimStart inner)) as (ws2 & Hsplit & Hws2).
    destruct (run_opt_first isWordChar (advance s0 3)) as (s2 & l2 & H2 & R2).
    assert (R2' : rest s2 = inner ++ fence).
    { rewrite R2. cbn [rest advance s0]. rewrite drop_0.
      change (drop 3 text) with (body ++ fence). unfold fence.
      rewrite (classRun_stop _ body BACKTICK _ eq_refl).
      rewrite drop_app_le; [done | apply classRun_le]. }
    destruct (run_star_first isWhiteSpace s2) as (s3 & l3 & H3 & R3).
    assert (R3' : rest s3 = trimStart inner ++ fence).
    { rewrite R3, R2'. unfold fence.
      rewrite (classRun_stop _ inner BACKTICK _ eq_refl).
      rewrite drop_app_le; [|apply classRun_le].
      by rewrite drop_classRun_space. }
    destruct (run_capture_first s3 (trimEnd (trimStart inner)) ws2)
      as (m & Hm & Hcap).
    { rewrite R3'. rewrite Hsplit at 1. by rewrite <- app_assoc. }
    { exact Hws2. }
    { intros x a. apply trimEnd_last. }
    exists m. split; [|exact Hcap].
    unfold codeBlockRegex_any.
    apply (head_seq_first _ _ _ s0 []); [done|].
    apply (head_seq_first _ _ _ (advance s0 3) []).
    { cbn [run rest s0]. rewrite drop_0. unfold text.
      by rewrite startsWith_ci_app. }
    apply (head_seq_first _ _ _ s2 l2 _ H2).
    apply (head_seq_first _ _ _ s3 l3 _ H3).
    exact Hm. }
  destruct Hhead as (m & Hm & Hcap). exists m. split; [|exact Hcap].
  unfold regexMatch. cbn [seq firstMatch]. unfold matchAt.
  fold text s0. by rewrite Hm.
Qed.

End RegexFacts.

(* ===================================================================== *)
(* 15. The response parser                                                *)
(* ===================================================================== *)

Section ParserFacts.
Implicit Types (raw text : jsstring) (v obj : value).

(** The validation test passes exactly on values whose [title] and
    [content] are strings. *)
Lemma isValidResponse_iff obj :
  isValidResponse obj = true <->
  exists t c, getProp obj (js "title") = Some (JString t) /\
              getProp obj (js "content") = Some (JString c).
Proof.
  unfold isValidResponse. split.
  - destruct (toBoolean obj); [|done].
    destruct (getProp obj (js "title")) as [[]|]; try done.
    destruct (getProp obj (js "content")) as [[]|]; try done.
    eauto.
  - intros (t & c & Ht & Hc). rewrite Ht, Hc.
    destruct obj; try done; simpl in Ht; by inversion Ht.
Qed.

Lemma structuredResponse_of_valid obj t c :
  getProp obj (js "title") = Some (JString t) ->
  getProp obj (js "content") = Some (JString c) ->
  exists a, getProp obj (js "anchorLabel") = Some a /\
            structuredResponse obj =
              Some {| title := t; content := c; anchorLabel := a;
                      isFallback := false |}.
Proof.
  intros Ht Hc. unfold structuredResponse. rewrite Ht, Hc.
  destruct obj; try done; simpl in Ht; try by inversion Ht.
  simpl. eauto.
Qed.

Lemma tryStructured_accepts text v t c :
  JSON_parse text = Some v ->
  getProp v (js "title") = Some (JString t) ->
  getProp v (js "content") = Some (JString c) ->
  exists a, getProp v (js "anchorLabel") = Some a /\
            tryStructured text =
              Some {| title := t; content := c; anchorLabel := a;
                      isFallback := false |}.
Proof.
  intros Hp Ht Hc. unfold tryStructured. rewrite Hp.
  rewrite (proj2 (isValidResponse_iff v)) by eauto.
  by apply structuredResponse_of_valid.
Qed.

Lemma tryStructured_Some text r :
  tryStructured text = Some r ->
  isFallback r = false /\
  exists v, JSON_parse text = Some v /\ isValidResponse v = true.
Proof.
  unfold tryStructured. destruct (JSON_parse text) as [v|]; [|done].
  destruct (isValidResponse v) eqn:E; [|done].
  intros H. split; [|eauto].
  unfold structuredResponse in H.
  destruct (getProp v (js "title")) as [[]|]; try done.
  destruct (getProp v (js "content")) as [[]|]; try done.
  destruct (getProp v (js "anchorLabel")); try done.
  by injection H as <-.
Qed.

Lemma tryStructured_None text :
  (forall v, JSON_parse text = Some v -> isValidResponse v = false) ->
  tryStructured text = None.
Proof.
  intros H. unfold tryStructured. destruct (JSON_parse text) as [v|]; [|done].
  by rewrite (H v eq_refl).
Qed.

(** A structured response comes from a tier that parsed and passed. *)
Lemma structured_response_origin raw :
  isFallback (parseResponse raw true) = false ->
  (exists v, JSON_parse (cleanJson raw) = Some v /\
             isValidResponse v = true) \/
  (exists sub v, jsonSubstring raw = Some sub /\
                 JSON_parse sub = Some v /\ isValidResponse v = true).
Proof.
  unfold parseResponse. cbn [negb].
  destruct (tryStructured (cleanJson raw)) as [r|] eqn:E1.
  - intros _. left. by apply tryStructured_Some in E1 as [_ ?].
  - destruct (jsonSubstring raw) as [sub|] eqn:Es; [|done].
    destruct (tryStructured sub) as [r|] eqn:E2; [|done].
    intros _. right. apply tryStructured_Some in E2 as [_ (v & ? & ?)].
    eauto.
Qed.

(** C3. Fallback tier.  When neither tier yields a candidate that parses
    and passes validation, [parseResponse raw true] is the fallback: the
    flag set, the content the raw text itself, the title the fixed
    placeholder, which is not empty.  Conversely a response with the flag
    clear comes from a tier whose text parsed and passed validation, and
    the in-place mode always returns the flag clear. *)
Theorem fallback_tier_postcondition raw :
  ((forall v, JSON_parse (cleanJson raw) = Some v ->
              isValidResponse v = false) ->
   (forall sub v, jsonSubstring raw = Some sub -> JSON_parse sub = Some v ->
                  isValidResponse v = false) ->
   parseResponse raw true =
     {| title := js "Untitled Gemini Note"; content := raw;
        anchorLabel := JUndefined; isFallback := true |})
  /\ js "Untitled Gemini Note" <> []
  /\ (isFallback (parseResponse raw true) = false ->
      (exists v, JSON_parse (cleanJson raw) = Some v /\
                 isValidResponse v = true) \/
      (exists sub v, jsonSubstring raw = Some sub /\
                     JSON_parse sub = Some v /\ isValidResponse v = true))
  /\ isFallback (parseResponse raw false) = false.
Proof.
  split; [|split; [done|split; [|done]]].
  - intros H1 H2. unfold parseResponse. cbn [negb].
    rewrite (tryStructured_None _ H1).
    destruct (jsonSubstring raw) as [sub|] eqn:Es; [|done].
    by rewrite (tryStructured_None sub (fun v => H2 sub v eq_refl)).
  - apply structured_response_origin.
Qed.

(** C4 (amended).  Validation looks at types only: a candidate passes
    exactly when its [title] and [content] are both strings, empty or
    not.  The response is structured exactly when the candidate of some
    tier passes, and otherwise it is the fallback response. *)
Theorem validation_checks_types_only raw :
  (forall obj,
     isValidResponse obj = true <->
     exists t c, getProp obj (js "title") = Some (JString t) /\
                 getProp obj (js "content") = Some (JString c))
  /\ (isFallback (parseResponse raw true) = false <->
      (exists v, JSON_parse (cleanJson raw) = Some v /\
                 isValidResponse v = true) \/
      (exists sub v, jsonSubstring raw = Some sub /\
                     JSON_parse sub = Some v /\ isValidResponse v = true))
  /\ (isFallback (parseResponse raw true) = true ->
      parseResponse raw true = fallbackResponse raw).
Proof.
  split; [exact isValidResponse_iff|]. split; [split|].
  - apply structured_response_origin.
  - unfold parseResponse. cbn [negb]. intros [(v & Hp & Hv)|(sub & v & Hs & Hp & Hv)].
    + apply isValidResponse_iff in Hv as (t & c & Ht & Hc).
      destruct (tryStructured_accepts _ _ _ _ Hp Ht Hc) as (a & _ & ->). done.
    + destruct (tryStructured (cleanJson raw)) as [r|] eqn:E1.
      * by apply tryStructured_Some in E1 as [? _].
      * rewrite Hs.
        apply isValidResponse_iff in Hv as (t & c & Ht & Hc).
        destruct (tryStructured_accepts _ _ _ _ Hp Ht Hc) as (a & _ & ->). done.
  - unfold parseResponse. cbn [negb].
    destruct (tryStructured (cleanJson raw)) as [r|] eqn:E1.
    + apply tryStructured_Some in E1 as [-> _]. done.
    + destruct (jsonSubstring raw) as [sub|] eqn:Es; [|done].
      destruct (tryStructured sub) as [r|] eqn:E2; [|done].
      apply tryStructured_Some in E2 as [-> _]. done.
Qed.

(** C10. The anchor label is not validated.  Whenever the first tier, or
    the second after the first was rejected, parses to a value whose
    [title] and [content] are strings, the response is structured and its
    [anchorLabel] is whatever the value holds under that key; nothing is
    required of it.  The five inputs show a missing key, an empty string,
    a number, an object and null coming through. *)
Theorem anchorLabel_is_not_validated :
  (forall raw v t c a,
     getProp v (js "title") = Some (JString t) ->
     getProp v (js "content") = Some (JString c) ->
     getProp v (js "anchorLabel") = Some a ->
     (JSON_parse (cleanJson raw) = Some v \/
      (tryStructured (cleanJson raw) = None /\
       exists sub, jsonSubstring raw = Some sub /\ JSON_parse sub = Some v)) ->
     parseResponse raw true =
       {| title := t; content := c; anchorLabel := a; isFallback := false |})
  /\
  (let parsed a :=
     parseResponse (Example.jsonNoteLabelled (js "T") (js "C") a) true in
   let carried a :=
     {| title := js "T"; content := js "C"; anchorLabel := a;
        isFallback := false |} in
   parseResponse (Example.jsonNote (js "T") (js "C")) true = carried JUndefined
   /\ parsed [QUOTE; QUOTE] = carried (JString [])
   /\ parsed (js "5") = carried (JNumber false 5 0)
   /\ parsed (js "{}") = carried (JObject [])
   /\ parsed (js "null") = carried JNull).
Proof.
  split.
  - intros raw v t c a Ht Hc Ha Htier. unfold parseResponse. cbn [negb].
    destruct Htier as [Hp|(Hnone & sub & Hs & Hp)].
    + destruct (tryStructured_accepts _ _ _ _ Hp Ht Hc) as (a' & Ha' & ->).
      congruence.
    + rewrite Hnone, Hs.
      destruct (tryStructured_accepts _ _ _ _ Hp Ht Hc) as (a' & Ha' & ->).
      congruence.
  - cbn zeta. repeat split; by vm_compute.
Qed.

Lemma trimStart_fixed (s : jsstring) :
  match s with [] => True | c :: _ => isWhiteSpace c = false end ->
  trimStart s = s.
Proof. destruct s as [|c t]; simpl; [done|]. by intros ->. Qed.

Lemma trimStart_idem (s : jsstring) : trimStart (trimStart s) = trimStart s.
Proof.
  apply trimStart_fixed. destruct (trimStart s) eqn:E; [done|].
  by apply trimStart_head in E.
Qed.

(** A trimmed text has no white space left at either end. *)
Lemma trim_idem (s : jsstring) : trim (trim s) = trim s.
Proof.
  assert (H1 : trimStart (trim s) = trim s).
  { apply trimStart_fixed. destruct (trim s) eqn:E; [done|].
    by apply trim_head in E. }
  unfold trim at 1. rewrite H1. unfold trim, trimEnd.
  by rewrite rev_involutive, trimStart_idem.
Qed.

(** C5 (amended).  In-place parsing returns an empty title and a clear
    fallback flag.  When the trimmed text is not enclosed in a pair of
    code fences the content is the trimmed text.  When it is, the longest
    run of word characters after the opening fence is taken as the
    language tag, and the content is what stands between that tag and the
    closing fence, less the white space at both ends.  Either way the
    content carries no white space at its ends: it is the text without
    its surrounding white space, not the text verbatim. *)
Theorem in_place_parse_postcondition raw :
  let r := parseResponse raw false in
  title r = [] /\ isFallback r = false /\
  trim (content r) = content r /\
  ((~ exists body, trim raw = fence ++ body ++ fence) ->
   content r = trim raw) /\
  (forall body, trim raw = fence ++ body ++ fence ->
   let tag := take (classRun isWordChar body) body in
   let inner := drop (classRun isWordChar body) body in
   body = tag ++ inner /\
   forallb isWordChar tag = true /\
   match inner with c :: _ => isWordChar c = false | [] => True end /\
   content r = trim inner /\
   exists ws1 ws2,
     trim raw = fence ++ tag ++ ws1 ++ content r ++ ws2 ++ fence /\
     forallb isWhiteSpace ws1 = true /\ forallb isWhiteSpace ws2 = true).
Proof.
  cbn zeta. unfold parseResponse. cbn [negb title isFallback content].
  split; [done|]. split; [done|].
  split.
  { destruct (regexMatch (trim raw) codeBlockRegex_any); apply trim_idem. }
  split.
  - intros Hno.
    destruct (regexMatch (trim raw) codeBlockRegex_any) as [m|] eqn:E; [|done].
    destruct (codeBlock_any_sound _ _ E)
      as (tag & ws1 & ws2 & Htext & _).
    exfalso. apply Hno.
    exists (tag ++ ws1 ++ capture1 m ++ ws2).
    rewrite Htext at 1. by rewrite <- !app_assoc.
  - intros body Hbody.
    destruct (codeBlock_any_first body) as (m & Hm & Hcap).
    rewrite Hbody, Hm, Hcap.
    fold (trim (drop (classRun isWordChar body) body)). rewrite trim_idem.
    destruct (classRun_keeps isWordChar body) as [Htag Hstop].
    split; [by rewrite take_drop|]. split; [exact Htag|].
    split; [exact Hstop|]. split; [done|].
    destruct (trim_split (drop (classRun isWordChar body) body))
      as (l & r & Hinner & Hl & Hr).
    exists l, r. split; [|done].
    f_equal. rewrite <- (take_drop (classRun isWordChar body) body) at 1.
    rewrite <- app_assoc. f_equal.
    rewrite Hinner at 1. by rewrite <- !app_assoc.
Qed.

End ParserFacts.

(* ===================================================================== *)
(* 16. The transport                                                      *)
(* ===================================================================== *)

Section Transport.

(** The custom-host path never succeeds with a falsy text. *)
Lemma generateWithCustomHost_truthy reply text :
  generateWithCustomHost reply = Ok text -> toBoolean text = true.
Proof.
  unfold generateWithCustomHost.
  destruct reply as [cause|response]; [done|].
  destruct (400 <=? status response); [done|].
  destruct (json response) as [data|]; [|done].
  destruct (extractText data) as [t|]; [|done].
  destruct (toBoolean t) eqn:E; [|done].
  cbn [negb]. by intros [= <-].
Qed.

(** C6, at the failing input.  On the managed path a response whose text
    is undefined or empty is returned as the empty string, and
    [generateNote] then succeeds with a response parsed from the empty
    text; the custom-host path, given a body without text, fails. *)
Theorem sdk_path_returns_empty_text :
  generateWithSdk (SdkReturns None) = Ok []
  /\ generateWithSdk (SdkReturns (Some [])) = Ok []
  /\ (forall settings request provider,
        apiKey settings <> [] ->
        trim (apiHost settings) = [] ->
        sdkReply provider = SdkReturns None ->
        generateNote settings request provider =
          Ok (parseResponse []
                match outputAction request with
                | create_note => true
                | _ => false
                end))
  /\ (forall reply, generateWithCustomHost reply <> Ok (JString []))
  /\ generateWithCustomHost
       (RequestReturns {| status := 200; json := Some (JObject []) |})
     = Err (ApiRequestFailed EmptyResponse).
Proof.
  split; [done|]. split; [done|]. split; [|split; [|done]].
  - intros settings request provider Hkey Hhost Hsdk.
    unfold generateNote. destruct (apiKey settings); [done|].
    rewrite Hhost, Hsdk.
    by destruct (apiHost settings), (outputAction request).
  - intros reply H. by apply generateWithCustomHost_truthy in H.
Qed.

End Transport.

(* ===================================================================== *)
(* 17. The properties at concrete inputs                                  *)
(* ===================================================================== *)

Section Instances.
Import Example.

Local Abbreviation run :=
  (Plugin.runGeneration normalizePath numberToString away away).

Lemma away_undisturbed : undisturbed away.
Proof. by intros w. Qed.

(** C1 at a run where the user moved the cursor to the start of the
    document while the call was in flight: the one occurrence of the
    snapshot is selected again. *)
Lemma safe_apply_reconciliation_witness :
  let req := request replace_selection (js "foo") in
  let w := world (js "a foo b") 2 5 emptyVault in
  let live := movesToStart (logged w (EvNotice NoticeGenerating)) in
  apiKey settings <> [] /\
  generateNote settings req (answers (js "BAR"))
    = Ok (parseResponse (js "BAR") false) /\
  getSelection (editor live) <> js "foo" /\
  occurrences (doc (editor live)) (js "foo") = 1%nat /\
  exists (i : nat) (anchor head : EditorPosition),
    indexOf (js "a foo b") (js "foo") = Z.of_nat i /\
    getSelection (setSelection (editor live) anchor head) = js "foo".
Proof.
  intros req w live.
  assert (Hkey : apiKey settings <> []) by (vm_compute; discriminate).
  assert (Hgen : generateNote settings req (answers (js "BAR"))
                 = Ok (parseResponse (js "BAR") false)) by reflexivity.
  assert (Hne : getSelection (editor live) <> js "foo")
    by (vm_compute; discriminate).
  assert (Hocc : occurrences (doc (editor live)) (js "foo") = 1%nat)
    by reflexivity.
  repeat split; try assumption.
  destruct (safe_apply_reconciliation normalizePath numberToString away away
              settings req parentFile (answers (js "BAR")) movesToStart
              (parseResponse (js "BAR") false) w Hkey Hgen) as [_ Hmoved].
  destruct (Hmoved Hne Hocc) as (i & anchor & head & Hi & _ & _ & _ & Hsel & _).
  exists i, anchor, head. split; [exact Hi | exact Hsel].
Defined.



(** C3 at a reply that holds no JSON at all. *)
Lemma fallback_tier_postcondition_witness :
  let raw := js "  I cannot answer that.  " in
  (forall v, JSON_parse (cleanJson raw) = Some v ->
             isValidResponse v = false) /\
  (forall sub v, jsonSubstring raw = Some sub -> JSON_parse sub = Some v ->
                 isValidResponse v = false) /\
  parseResponse raw true =
    {| title := js "Untitled Gemini Note"; content := raw;
       anchorLabel := JUndefined; isFallback := true |}.
Proof.
  intros raw.
  assert (H1 : forall v, JSON_parse (cleanJson raw) = Some v ->
                         isValidResponse v = false).
  { intros v H. vm_compute in H. discriminate. }
  assert (H2 : forall sub v, jsonSubstring raw = Some sub ->
                             JSON_parse sub = Some v ->
                             isValidResponse v = false).
  { intros sub v H. vm_compute in H. discriminate. }
  split; [exact H1|]. split; [exact H2|].
  exact (proj1 (fallback_tier_postcondition raw) H1 H2).
Defined.

(** C4 as claimed fails here: a candidate whose title and content are both
    empty is accepted, and the fallback response is not returned. *)
Lemma empty_title_and_content_accepted :
  let raw := jsonNote [] [] in
  parseResponse raw true =
    {| title := []; content := []; anchorLabel := JUndefined;
       isFallback := false |}
  /\ parseResponse raw true <> fallbackResponse raw.
Proof. split; [by vm_compute | vm_compute; discriminate]. Qed.

(** C4 (amended) at that candidate, and at one whose title is a number. *)
Lemma validation_checks_types_only_witness :
  isFallback (parseResponse (jsonNote [] []) true) = false /\
  isValidResponse (JObject [(js "title", JNumber false 7 0);
                            (js "content", JString (js "C"))]) = false.
Proof.
  destruct (validation_checks_types_only (jsonNote [] []))
    as (Hvalid & Hstructured & _).
  split.
  - apply Hstructured. left.
    exists (JObject [(js "title", JString []); (js "content", JString [])]).
    split; [by vm_compute|]. apply Hvalid. by exists [], [].
  - destruct (isValidResponse _) eqn:E; [|reflexivity].
    apply Hvalid in E as (t & c & Ht & _). vm_compute in Ht. discriminate.
Defined.

(** C5 as claimed fails here: the text holds no code fence, yet the content
    is not the text. *)
Lemma in_place_parse_trims_text :
  let raw := js " hi " in
  regexMatch (trim raw) codeBlockRegex_any = None /\
  content (parseResponse raw false) = js "hi" /\
  content (parseResponse raw false) <> raw.
Proof.
  split; [by vm_compute|]. split; [by vm_compute | vm_compute; discriminate].
Qed.

(** C5 (amended) at a fenced reply with a language tag. *)
Lemma in_place_parse_postcondition_witness :
  let raw := js " ```js" ++ [LF] ++ js "let x = 1;" ++ [LF] ++ js "``` " in
  let body := js "js" ++ [LF] ++ js "let x = 1;" ++ [LF] in
  trim raw = fence ++ body ++ fence /\
  take (classRun isWordChar body) body = js "js" /\
  content (parseResponse raw false) = js "let x = 1;".
Proof.
  intros raw body.
  assert (Hfenced : trim raw = fence ++ body ++ fence) by (by vm_compute).
  split; [exact Hfenced|]. split; [by vm_compute|].
  destruct (in_place_parse_postcondition raw) as (_ & _ & _ & _ & H).
  destruct (H body Hfenced) as (_ & _ & _ & Hcontent & _).
  eapply eq_trans; [exact Hcontent|]. by vm_compute.
Defined.

(** C6 at the failing input, end to end: the managed path returns no text,
    the run goes on, and the selected text is replaced by nothing. *)
Lemma sdk_path_returns_empty_text_witness :
  let req := request replace_selection (js "foo") in
  let silent := {| sdkReply := SdkReturns None;
                   hostReply := RequestRejects [] |} in
  let w := world (js "a foo b") 2 5 emptyVault in
  apiKey settings <> [] /\ trim (apiHost settings) = [] /\
  generateNote settings req silent = Ok (parseResponse [] false) /\
  doc (editor (finalWorld (run settings req parentFile silent idle w)))
    = js "a  b".
Proof.
  intros req silent w.
  assert (Hkey : apiKey settings <> []) by (vm_compute; discriminate).
  assert (Hhost : trim (apiHost settings) = []) by reflexivity.
  split; [exact Hkey|]. split; [exact Hhost|]. split.
  - destruct sdk_path_returns_empty_text as (_ & _ & H & _).
    exact (H settings req silent Hkey Hhost eq_refl).
  - by vm_compute.
Defined.



(** C8 at the taken vault: the function alone, and a whole continuation
    whose reconciliation fails. *)
Lemma collision_aborts_creation_witness :
  let req := request create_note (js "foo") in
  let resp := parseResponse (js "BAR") true in
  let w := world (js "foo and foo") 4 7 takenVault in
  let target := Plugin.targetPathOf normalizePath resp req parentFile in
  let folder := Plugin.targetFolderOf normalizePath req parentFile in
  (forall w0, vault w0 = vault w ->
     is_Some (files (vault (folderStep away folder req w0)) !! target)) /\
  (exists w',
     Plugin.createNoteFile normalizePath away away resp req parentFile w
       = Done None w' /\
     files (vault w') = files (vault w) /\
     log w' = [EvNotice (NoticeExists (js "notes/Untitled Gemini Note.md"))])
  /\
  (exists final evs,
     finalWorld (Plugin.afterResponse normalizePath numberToString away away
                   resp req parentFile (js "foo") w) = final /\
     log final = log w ++ evs /\
     (forall p data, ~ List.In (EvVaultCreate p data) evs) /\
     List.In (EvNotice (NoticeExists target)) evs /\
     files (vault final) = files (vault w)).
Proof.
  intros req resp w target folder.
  assert (Hex : forall w0, vault w0 = vault w ->
            is_Some (files (vault (folderStep away folder req w0)) !! target)).
  { intros w0 Hv. change (folderStep away folder req w0) with w0. rewrite Hv.
    exists (js "my own note"). by vm_compute. }
  split; [exact Hex|].
  destruct (collision_aborts_creation normalizePath numberToString away away
              resp req parentFile w) as [Hfun Hcont].
  split.
  - destruct (Hfun (Hex w eq_refl))
      as (w' & evs & Hc & _ & _ & _ & Hlog & Hevs & Hf).
    exists w'. split; [exact Hc|]. split; [exact (Hf away_undisturbed)|].
    pose proof Hc as Hc2. vm_compute in Hc2.
    injection Hc2 as <-. by vm_compute.
  - destruct (Hcont (js "foo") eq_refl Hex)
      as (final & evs & Hfin & Hlog & Hnc & Hnotice & Hf).
    exists final, evs. split; [exact Hfin|]. split; [exact Hlog|].
    split; [exact Hnc|]. split; [|exact (Hf away_undisturbed)].
    apply Hnotice. right. right. vm_compute. discriminate.
Defined.


(** C10 at a reply whose anchor label is a list. *)
Lemma anchorLabel_is_not_validated_witness :
  let raw := jsonNoteLabelled (js "T") (js "C") (js "[1]") in
  let v := JObject [(js "title", JString (js "T"));
                    (js "content", JString (js "C"));
                    (js "anchorLabel", JArray [JNumber false 1 0])] in
  JSON_parse (cleanJson raw) = Some v /\
  parseResponse raw true =
    {| title := js "T"; content := js "C";
       anchorLabel := JArray [JNumber false 1 0]; isFallback := false |}.
Proof.
  intros raw v.
  assert (Hp : JSON_parse (cleanJson raw) = Some v) by (by vm_compute).
  split; [exact Hp|].
  destruct anchorLabel_is_not_validated as [H _].
  apply (H raw v); [reflexivity | reflexivity | reflexivity |].
  left. exact Hp.
Defined.

End Instances.

(* ===================================================================== *)
(* 18. More on the orchestrator                                           *)
(* ===================================================================== *)

Section Applying.
Variable normalizePath : jsstring -> jsstring.
Variable numberToString : bool -> N -> Z -> jsstring.
Variable whileCreatingFolder : World -> World.
Variable whileCreatingFile : World -> World.

Local Abbreviation createNoteFile :=
  (Plugin.createNoteFile normalizePath whileCreatingFolder whileCreatingFile).
Local Abbreviation targetFolderOf := (Plugin.targetFolderOf normalizePath).
Local Abbreviation targetPathOf := (Plugin.targetPathOf normalizePath).
Local Abbreviation handleCreateNoteAction :=
  (Plugin.handleCreateNoteAction normalizePath whileCreatingFolder
     whileCreatingFile).
Local Abbreviation applyAction :=
  (Plugin.applyAction normalizePath whileCreatingFolder whileCreatingFile).
Local Abbreviation afterResponse :=
  (Plugin.afterResponse normalizePath numberToString whileCreatingFolder
     whileCreatingFile).
Local Abbreviation runGeneration :=
  (Plugin.runGeneration normalizePath numberToString whileCreatingFolder
     whileCreatingFile).
Local Abbreviation folderStep := (Observe.folderStep whileCreatingFolder).
Local Abbreviation fileStep := (Observe.fileStep whileCreatingFile).

Implicit Types (response : GenerationResponse) (request : GenerationRequest)
  (parentFile : TFile) (w : World) (snapshotText : jsstring).

(** The document is the text before the selection, the selection, and the
    text after it. *)
Lemma selection_split (e : Editor) :
  doc e = take (selFrom e) (doc e) ++ getSelection e ++ drop (selTo e) (doc e).
Proof.
  unfold getSelection.
  assert (Hle : (selFrom e <= selTo e)%nat) by (unfold selFrom, selTo; lia).
  rewrite <- (take_drop (selFrom e) (doc e)) at 1. f_equal.
  rewrite <- (take_drop (selTo e - selFrom e) (drop (selFrom e) (doc e))) at 1.
  f_equal. rewrite drop_drop. f_equal. lia.
Qed.

(** When reconciliation succeeds, the apply step starts in a world whose
    selection is the snapshot and whose text, vault and clipboard are the
    live ones. *)
Lemma afterResponse_applies response request parentFile snapshotText w :
  getSelection (editor w) = snapshotText \/
  occurrences (doc (editor w)) snapshotText = 1%nat ->
  exists w2 evs,
    afterResponse response request parentFile snapshotText w =
      applyAction response request parentFile snapshotText w2 /\
    doc (editor w2) = doc (editor w) /\
    getSelection (editor w2) = snapshotText /\
    vault w2 = vault w /\ clipboard w2 = clipboard w /\
    log w2 = log w ++ evs /\
    Forall (fun ev => forall text, ev <> EvReplaceSelection text) evs.
Proof.
  intros Hok.
  destruct (decide (getSelection (editor w) = snapshotText)) as [Hs|Hs].
  - exists (logged (logged w EvNoticeHide) EvGetSelection),
           [EvNoticeHide; EvGetSelection].
    rewrite (afterResponse_same _ _ _ _ _ _ _ _ _ Hs).
    cbn [editor vault clipboard log logged]. rewrite <- app_assoc.
    repeat split; try done. by repeat constructor.
  - destruct Hok as [Hok|Hocc]; [done|].
    destruct (afterResponse_relocated normalizePath numberToString
                whileCreatingFolder whileCreatingFile response
                request parentFile snapshotText w Hs Hocc)
      as (i & anchor & head & _ & _ & _ & Hsel & ->).
    eexists _, [EvNoticeHide; EvGetSelection; EvGetValue;
                EvSetSelection anchor head].
    split; [reflexivity|].
    cbn [editor vault clipboard log logged withEditor].
    rewrite <- !app_assoc. repeat split; try done. by repeat constructor.
Qed.

(** The text of the document after [replaceSelection]. *)
Lemma replaceSelection_doc (e : Editor) (text : jsstring) :
  exists pre post,
    doc e = pre ++ getSelection e ++ post /\
    doc (replaceSelection e text) = pre ++ text ++ post.
Proof.
  exists (take (selFrom e) (doc e)), (drop (selTo e) (doc e)).
  split; [apply selection_split | done].
Qed.

(** X1. A failure of the call to the provider, on either path and of any
    kind, ends the run with the progress notice hidden and the failure
    notice shown; the document, its selection, the vault and the clipboard
    are what the user left. *)
Theorem transport_failure_changes_nothing settings request parentFile
    provider during e w :
  apiKey settings <> [] ->
  generateNote settings request provider = Err e ->
  let live := during (logged w (EvNotice NoticeGenerating)) in
  runGeneration settings request parentFile provider during w =
    Done tt (logged (logged live EvNoticeHide) (EvNotice NoticeFailed)).
Proof.
  intros Hkey Hgen live. unfold Plugin.runGeneration.
  destruct (apiKey settings); [done|].
  unfold bind, notice, tryCatch, await. by rewrite Hgen.
Qed.

(** X2. No exception leaves [runGeneration]: whatever the settings, the
    provider, the response, the state of the editor and the vault and
    what the user does meanwhile, the run returns normally. *)
Theorem runGeneration_never_raises settings request parentFile provider
    during w :
  exists w', runGeneration settings request parentFile provider during w
             = Done tt w'.
Proof.
  unfold Plugin.runGeneration. destruct (apiKey settings).
  - by eexists.
  - unfold bind at 1, notice at 1, tryCatch.
    match goal with |- context [match ?m with Done _ _ => _ | Raised _ _ => _ end] =>
      destruct m as [[] w1|err w1] end.
    + by eexists.
    + by eexists.
Qed.

(** X3. The in-place actions edit one occurrence of the snapshot and
    nothing else.  When the selection is still the snapshot, or the
    snapshot occurs exactly once, the document after a replace_selection
    run is the live document with that occurrence replaced by the content,
    and after an insert_after run it is the live document with a blank
    line and the content put right after that occurrence; the vault and
    the clipboard are untouched. *)
Theorem in_place_apply_edits_one_occurrence settings request parentFile
    provider during response w :
  apiKey settings <> [] ->
  generateNote settings request provider = Ok response ->
  outputAction request <> create_note ->
  let snapshotText := selectedText request in
  let live := during (logged w (EvNotice NoticeGenerating)) in
  let inserted :=
    match outputAction request with
    | insert_after => snapshotText ++ [LF; LF] ++ content response
    | _ => content response
    end in
  getSelection (editor live) = snapshotText \/
  occurrences (doc (editor live)) snapshotText = 1%nat ->
  exists w' pre post,
    runGeneration settings request parentFile provider during w = Done tt w' /\
    doc (editor live) = pre ++ snapshotText ++ post /\
    doc (editor w') = pre ++ inserted ++ post /\
    vault w' = vault live /\ clipboard w' = clipboard live.
Proof.
  intros Hkey Hgen Hact snapshotText live inserted Hok.
  rewrite (runGeneration_resumes normalizePath numberToString
             whileCreatingFolder whileCreatingFile settings request
             parentFile provider during response w Hkey Hgen).
  fold live snapshotText. unfold tryCatch.
  destruct (afterResponse_applies response request parentFile snapshotText
              live Hok) as (w2 & evs & -> & Hdoc & Hsel & Hv & Hc & _).
  unfold Plugin.applyAction. subst inserted.
  destruct (outputAction request); [done| |].
  - destruct (replaceSelection_doc (editor w2) (content response))
      as (pre & post & Hsplit & Hnew).
    unfold bind, editor_replaceSelection, notice.
    eexists _, pre, post. split; [reflexivity|].
    cbn [editor vault clipboard logged withEditor].
    rewrite <- Hdoc, <- Hsel. by repeat split.
  - destruct (replaceSelection_doc (editor w2)
                (snapshotText ++ [LF; LF] ++ content response))
      as (pre & post & Hsplit & Hnew).
    unfold bind, editor_replaceSelection, notice.
    eexists _, pre, post. split; [reflexivity|].
    cbn [editor vault clipboard logged withEditor].
    rewrite <- Hdoc. rewrite <- Hsel at 1. by repeat split.
Qed.

(** X4. A created note is linked, at the selection the plugin finds when
    the vault is done.  In a create_note run whose reconciliation
    succeeds, with nothing at the target path, an anchor label that is
    absent, falsy or a string, and a user who stays away while the folder
    is created, the vault writes at the target path the backlink line
    followed by the generated content while the selection is on the
    snapshot.  The selection is not looked at again: when the plugin
    resumes, the link to the target path, labelled with the anchor label
    when it is not blank and with the selected text otherwise, replaces
    whatever the user has selected by then.  With a user who stays away
    during the write as well, it replaces the occurrence of the snapshot,
    the vault holds the note at that very path and no other file
    changes. *)
Theorem created_note_is_linked settings request parentFile provider during
    response w :
  apiKey settings <> [] ->
  generateNote settings request provider = Ok response ->
  outputAction request = create_note ->
  let snapshotText := selectedText request in
  let live := during (logged w (EvNotice NoticeGenerating)) in
  let target := targetPathOf response request parentFile in
  let fullContent := Plugin.parentLink parentFile ++ content response in
  let link :=
    js "[[" ++ target ++ js "|" ++ insertedLabel response request ++ js "]]" in
  getSelection (editor live) = snapshotText \/
  occurrences (doc (editor live)) snapshotText = 1%nat ->
  existsAt (vault live) target = false ->
  target <> targetFolderOf request parentFile ->
  toBoolean (anchorLabel response) = false \/
  (exists s, anchorLabel response = JString s) ->
  undisturbed whileCreatingFolder ->
  exists w' written,
    runGeneration settings request parentFile provider during w = Done tt w' /\
    doc (editor written) = doc (editor live) /\
    getSelection (editor written) = snapshotText /\
    files (vault written) = <[ target := fullContent ]> (files (vault live)) /\
    clipboard written = clipboard live /\
    editor w' = replaceSelection (editor (resumed whileCreatingFile written))
                  link /\
    vault w' = vault (resumed whileCreatingFile written) /\
    clipboard w' = clipboard (resumed whileCreatingFile written) /\
    List.In (EvVaultCreate target fullContent) (log w') /\
    (undisturbed whileCreatingFile ->
     exists pre post,
       doc (editor live) = pre ++ snapshotText ++ post /\
       doc (editor w') = pre ++ link ++ post /\
       files (vault w') = <[ target := fullContent ]> (files (vault live)) /\
       clipboard w' = clipboard live).
Proof.
  intros Hkey Hgen Hact snapshotText live target fullContent link Hok Hfree
    Hnf Hlab HuF.
  rewrite (runGeneration_resumes normalizePath numberToString
             whileCreatingFolder whileCreatingFile settings request
             parentFile provider during response w Hkey Hgen).
  fold live snapshotText. unfold tryCatch.
  destruct (afterResponse_applies response request parentFile snapshotText
              live Hok) as (w2 & evs & -> & Hdoc & Hsel & Hv & Hc & _).
  unfold Plugin.applyAction. rewrite Hact.
  assert (Hfree2 : existsAt (vault (folderStep (targetFolderOf request parentFile)
                                       request w2)) target = false).
  { apply existsAt_folderStep_false; [done | by rewrite Hv | done]. }
  rewrite (handleCreateNoteAction_created _ _ _ _ _ _ _ Hfree2).
  rewrite (linkLabelOf_returns _ _ _ Hlab).
  fold target fullContent.
  destruct (folderStep_preserves whileCreatingFolder
              (targetFolderOf request parentFile) request w2 HuF)
    as (He & Hcl & Hf).
  set (w1 := folderStep (targetFolderOf request parentFile) request w2) in *.
  set (written := withVault (logged w1 (EvVaultCreate target fullContent))
                    {| files := <[ target := fullContent ]> (files (vault w1));
                       folders := folders (vault w1) |}).
  change (fileStep target fullContent w1)
    with (resumed whileCreatingFile written).
  eexists _, written. split; [reflexivity|].
  cbn [editor vault clipboard files log logged withEditor].
  split; [subst written; cbn [editor withVault logged]; by rewrite He|].
  split; [subst written; cbn [editor withVault logged]; by rewrite He|].
  split; [subst written; cbn [vault files withVault]; by rewrite Hf, Hv|].
  split; [subst written; cbn [clipboard withVault logged]; by rewrite Hcl|].
  split; [done|]. split; [done|]. split; [done|].
  split.
  { unfold resumed. subst written. cbn [log logged withVault].
    rewrite !in_app_iff. left. left. right. by left. }
  intros HuC. rewrite (resumed_undisturbed _ _ HuC).
  destruct (replaceSelection_doc (editor written) link)
    as (pre & post & Hsplit & Hnew).
  exists pre, post. subst written.
  cbn [editor vault clipboard files withVault logged] in *.
  rewrite He in Hsplit. rewrite Hdoc, Hsel in Hsplit.
  rewrite Hf, Hcl, Hv, Hc. by repeat split.
Qed.

(** X5. A collision on the apply path leaves the text alone.  In a
    create_note run whose reconciliation succeeds while a document exists
    at the target path, with a user who stays away while the folder is
    created, no link is inserted: the text of the document, the files of
    the vault and the clipboard stay as they were. *)
Theorem collision_inserts_no_link settings request parentFile provider during
    response w :
  apiKey settings <> [] ->
  generateNote settings request provider = Ok response ->
  outputAction request = create_note ->
  let snapshotText := selectedText request in
  let live := during (logged w (EvNotice NoticeGenerating)) in
  let target := targetPathOf response request parentFile in
  getSelection (editor live) = snapshotText \/
  occurrences (doc (editor live)) snapshotText = 1%nat ->
  is_Some (files (vault live) !! target) ->
  undisturbed whileCreatingFolder ->
  exists w',
    runGeneration settings request parentFile provider during w = Done tt w' /\
    doc (editor w') = doc (editor live) /\
    files (vault w') = files (vault live) /\
    clipboard w' = clipboard live /\
    exists evs, log w' = log live ++ evs /\
                Forall (fun ev => forall text, ev <> EvReplaceSelection text)
                       evs.
Proof.
  intros Hkey Hgen Hact snapshotText live target Hok Hex HuF.
  rewrite (runGeneration_resumes normalizePath numberToString
             whileCreatingFolder whileCreatingFile settings request
             parentFile provider during response w Hkey Hgen).
  fold live snapshotText. unfold tryCatch.
  destruct (afterResponse_applies response request parentFile snapshotText
              live Hok) as (w2 & evs & -> & Hdoc & Hsel & Hv & Hc & Hl & Hevs).
  unfold Plugin.applyAction. rewrite Hact.
  unfold Plugin.handleCreateNoteAction, bind.
  destruct (folderStep_preserves whileCreatingFolder
              (targetFolderOf request parentFile) request w2 HuF)
    as (He & Hcl & Hf).
  destruct (folderStep_log whileCreatingFolder
              (targetFolderOf request parentFile) request w2)
    as (evsF & HlF & HevsF).
  assert (Hex2 : is_Some (files (vault (folderStep
                            (targetFolderOf request parentFile) request w2))
                          !! target)) by (by rewrite Hf, Hv).
  rewrite (createNoteFile_collision _ _ _ _ _ _ _ Hex2).
  eexists. split; [reflexivity|].
  cbn [ret editor vault clipboard files log logged].
  rewrite He, Hf, Hcl, Hv, Hc, HlF, Hl.
  repeat split; try done.
  exists (evs ++ evsF ++ [EvNotice (NoticeExists target)]).
  split; [by rewrite <- !app_assoc|].
  apply Forall_app; split; [done|].
  apply Forall_app; split; [|by repeat constructor].
  eapply Forall_impl; [exact HevsF|]. by intros ev ->.
Qed.

(** X6. An anchor label that is truthy but not a string leaves an orphan.
    In a create_note run whose reconciliation succeeds with nothing at the
    target path, such a label (a non-zero number, true, a list, an object)
    makes the computation of the link label throw after the note file was
    created: with a user who stays away while the vault works, the file is
    in the vault, the text of the document is unchanged, and the run ends
    with the failure notice. *)
Theorem non_string_label_orphans_note settings request parentFile provider
    during response w :
  apiKey settings <> [] ->
  generateNote settings request provider = Ok response ->
  outputAction request = create_note ->
  let snapshotText := selectedText request in
  let live := during (logged w (EvNotice NoticeGenerating)) in
  let target := targetPathOf response request parentFile in
  let fullContent := Plugin.parentLink parentFile ++ content response in
  getSelection (editor live) = snapshotText \/
  occurrences (doc (editor live)) snapshotText = 1%nat ->
  existsAt (vault live) target = false ->
  target <> targetFolderOf request parentFile ->
  toBoolean (anchorLabel response) = true ->
  (forall s, anchorLabel response <> JString s) ->
  undisturbed whileCreatingFolder -> undisturbed whileCreatingFile ->
  exists w' evs,
    runGeneration settings request parentFile provider during w = Done tt w' /\
    doc (editor w') = doc (editor live) /\
    files (vault w') = <[ target := fullContent ]> (files (vault live)) /\
    clipboard w' = clipboard live /\
    log w' = log live ++ evs ++ [EvNoticeHide; EvNotice NoticeFailed].
Proof.
  intros Hkey Hgen Hact snapshotText live target fullContent Hok Hfree Hnf
    Htruthy Hns HuF HuC.
  rewrite (runGeneration_resumes normalizePath numberToString
             whileCreatingFolder whileCreatingFile settings request
             parentFile provider during response w Hkey Hgen).
  fold live snapshotText. unfold tryCatch.
  destruct (afterResponse_applies response request parentFile snapshotText
              live Hok) as (w2 & evs & -> & Hdoc & Hsel & Hv & Hc & Hl & _).
  unfold Plugin.applyAction. rewrite Hact.
  assert (Hfree2 : existsAt (vault (folderStep (targetFolderOf request parentFile)
                                       request w2)) target = false).
  { apply existsAt_folderStep_false; [done | by rewrite Hv | done]. }
  rewrite (handleCreateNoteAction_created _ _ _ _ _ _ _ Hfree2).
  rewrite (linkLabelOf_throws _ _ _ Htruthy Hns).
  rewrite (fileStep_undisturbed _ _ _ _ HuC).
  destruct (folderStep_preserves whileCreatingFolder
              (targetFolderOf request parentFile) request w2 HuF)
    as (He & Hcl & Hf).
  destruct (folderStep_log whileCreatingFolder
              (targetFolderOf request parentFile) request w2)
    as (evsF & HlF & _).
  unfold Plugin.onFailure, bind, noticeHide, notice.
  eexists _, (evs ++ evsF ++ [EvVaultCreate target fullContent]).
  split; [reflexivity|].
  cbn [editor vault clipboard files log logged withVault].
  rewrite He, Hf, Hcl, Hv, Hc, HlF, Hl, Hdoc.
  repeat split; try done. by rewrite <- !app_assoc.
Qed.

End Applying.

(* ===================================================================== *)
(* 19. Searching for one character                                        *)
(* ===================================================================== *)

Section IndexFacts.
Implicit Types (s l r : jsstring) (c : N).

(** Case analysis on every test against the sentinel in the goal. *)
Local Ltac sentinel_cases :=
  repeat match goal with
         | |- context [Z.eqb ?a ?b] => destruct (Z.eqb_spec a b)
         | H : context [Z.eqb ?a ?b] |- _ => destruct (Z.eqb_spec a b)
         end;
  cbn [length] in *; try done; try lia.

Lemma startsWith_unit s c :
  startsWith s [c] = match s with x :: _ => (c =? x)%N | [] => false end.
Proof. destruct s; simpl; [done | by rewrite andb_true_r]. Qed.

Lemma indexOf_from_lower s p k : 0 <= k -> -1 <= indexOf_from s p k.
Proof.
  revert k; induction s as [|x t IH]; intros k Hk; cbn [indexOf_from].
  - destruct (startsWith [] p); lia.
  - destruct (startsWith (x :: t) p); [lia|].
    specialize (IH (k + 1) ltac:(lia)). lia.
Qed.

(** The start position only shifts the result of a search. *)
Lemma indexOf_from_offset s p k :
  0 <= k ->
  indexOf_from s p k =
    if indexOf s p =? -1 then -1 else k + indexOf s p.
Proof.
  unfold indexOf. revert k; induction s as [|x t IH]; intros k Hk;
    cbn [indexOf_from].
  - destruct (startsWith [] p); simpl; lia.
  - destruct (startsWith (x :: t) p); [simpl; lia|].
    change (0 + 1) with 1.
    rewrite (IH (k + 1)) by lia. rewrite (IH 1) by lia.
    pose proof (indexOf_from_lower t p 0 ltac:(lia)) as Hlow.
    sentinel_cases.
Qed.

Lemma lastIndexOf_from_lower s p k : 0 <= k -> -1 <= lastIndexOf_from s p k.
Proof.
  revert k; induction s as [|x t IH]; intros k Hk; cbn [lastIndexOf_from].
  - destruct (startsWith [] p); lia.
  - specialize (IH (k + 1) ltac:(lia)).
    destruct (Z.eqb_spec (lastIndexOf_from t p (k + 1)) (-1)); [|lia].
    destruct (startsWith (x :: t) p); lia.
Qed.

Lemma lastIndexOf_from_offset s p k :
  0 <= k ->
  lastIndexOf_from s p k =
    if lastIndexOf s p =? -1 then -1 else k + lastIndexOf s p.
Proof.
  unfold lastIndexOf. revert k; induction s as [|x t IH]; intros k Hk;
    cbn [lastIndexOf_from].
  - destruct (startsWith [] p); simpl; lia.
  - change (0 + 1) with 1.
    rewrite (IH (k + 1)) by lia. rewrite (IH 1) by lia.
    pose proof (lastIndexOf_from_lower t p 0 ltac:(lia)) as Hlow.
    destruct (startsWith (x :: t) p); sentinel_cases.
Qed.

(** Text in front that is free of the character shifts both searches. *)
Lemma indexOf_unit_prefix l s c :
  forallb (fun x => negb (c =? x)%N) l = true ->
  indexOf (l ++ s) [c] =
    if indexOf s [c] =? -1 then -1 else Z.of_nat (length l) + indexOf s [c].
Proof.
  induction l as [|x l IH]; intros Hl.
  - simpl. destruct (indexOf s [c] =? -1) eqn:E; [by apply Z.eqb_eq in E | lia].
  - simpl in Hl. apply andb_true_iff in Hl as [Hx Hl].
    apply negb_true_iff in Hx. specialize (IH Hl).
    unfold indexOf at 1. cbn [app indexOf_from].
    rewrite startsWith_unit, Hx.
    rewrite indexOf_from_offset by lia. rewrite IH.
    pose proof (indexOf_from_lower s [c] 0 ltac:(lia)) as Hlow.
    fold (indexOf s [c]) in Hlow.
    sentinel_cases.
Qed.

Lemma lastIndexOf_unit_prefix l s c :
  forallb (fun x => negb (c =? x)%N) l = true ->
  lastIndexOf (l ++ s) [c] =
    if lastIndexOf s [c] =? -1 then -1
    else Z.of_nat (length l) + lastIndexOf s [c].
Proof.
  induction l as [|x l IH]; intros Hl.
  - simpl. destruct (lastIndexOf s [c] =? -1) eqn:E;
      [by apply Z.eqb_eq in E | lia].
  - simpl in Hl. apply andb_true_iff in Hl as [Hx Hl].
    apply negb_true_iff in Hx. specialize (IH Hl).
    unfold lastIndexOf at 1. cbn [app lastIndexOf_from].
    rewrite startsWith_unit, Hx.
    rewrite lastIndexOf_from_offset by lia. rewrite IH.
    pose proof (lastIndexOf_from_lower s [c] 0 ltac:(lia)) as Hlow.
    fold (lastIndexOf s [c]) in Hlow.
    sentinel_cases.
Qed.

(** Text behind that is free of the character changes neither search. *)
Lemma indexOf_unit_suffix s r c :
  forallb (fun x => negb (c =? x)%N) r = true ->
  indexOf (s ++ r) [c] = indexOf s [c].
Proof.
  intros Hr. induction s as [|x t IH].
  - simpl. rewrite <- (app_nil_r r).
    rewrite (indexOf_unit_prefix r [] c Hr). done.
  - unfold indexOf. cbn [app indexOf_from]. rewrite !startsWith_unit.
    destruct (c =? x)%N; [done|].
    rewrite !(indexOf_from_offset _ _ (0 + 1)) by lia. by rewrite IH.
Qed.

Lemma lastIndexOf_unit_suffix s r c :
  forallb (fun x => negb (c =? x)%N) r = true ->
  lastIndexOf (s ++ r) [c] = lastIndexOf s [c].
Proof.
  intros Hr. induction s as [|x t IH].
  - simpl. rewrite <- (app_nil_r r).
    rewrite (lastIndexOf_unit_prefix r [] c Hr). done.
  - unfold lastIndexOf. cbn [app lastIndexOf_from]. rewrite !startsWith_unit.
    rewrite !(lastIndexOf_from_offset _ _ (0 + 1)) by lia. by rewrite IH.
Qed.

Lemma lastIndexOf_unit_last s c :
  lastIndexOf (s ++ [c]) [c] = Z.of_nat (length s).
Proof.
  induction s as [|x t IH].
  - unfold lastIndexOf. simpl. by rewrite N.eqb_refl.
  - unfold lastIndexOf. cbn [app lastIndexOf_from].
    rewrite lastIndexOf_from_offset by lia. rewrite IH.
    sentinel_cases.
Qed.

(** A found character lies inside the text. *)
Lemma indexOf_unit_bound s c :
  indexOf s [c] <> -1 -> 0 <= indexOf s [c] < Z.of_nat (length s).
Proof.
  intros H. destruct (indexOf_from_found s [c] 0 H ltac:(lia))
    as (i & Hi & Hsw & Hlen).
  apply startsWith_length in Hsw. rewrite length_drop in Hsw. simpl in Hsw.
  unfold indexOf. lia.
Qed.

Lemma lastIndexOf_unit_bound s c :
  lastIndexOf s [c] <> -1 -> 0 <= lastIndexOf s [c] < Z.of_nat (length s).
Proof.
  unfold lastIndexOf. intros H.
  assert (G : forall k, 0 <= k -> lastIndexOf_from s [c] k <> -1 ->
              k <= lastIndexOf_from s [c] k < k + Z.of_nat (length s)).
  { clear H. induction s as [|x t IH]; intros k Hk; cbn [lastIndexOf_from].
    - by rewrite startsWith_unit.
    - destruct (Z.eqb_spec (lastIndexOf_from t [c] (k + 1)) (-1)) as [E|E].
      + destruct (startsWith (x :: t) [c]); [|done]. cbn [length]. lia.
      + intros _. specialize (IH (k + 1) ltac:(lia) E). cbn [length]. lia. }
  specialize (G 0 ltac:(lia) H). lia.
Qed.

Lemma substring_middle l s r (a b : Z) :
  0 <= a -> a <= b -> b <= Z.of_nat (length s) ->
  substring (l ++ s ++ r) (Z.of_nat (length l) + a) (Z.of_nat (length l) + b)
  = substring s a b.
Proof.
  intros Ha Hab Hb. unfold substring, clamp, jslength.
  rewrite !length_app.
  replace (Z.to_nat (Z.min (Z.max (Z.of_nat (length l) + a) 0)
                           (Z.of_nat (length l + (length s + length r)))))
    with (length l + Z.to_nat a)%nat by lia.
  replace (Z.to_nat (Z.min (Z.max (Z.of_nat (length l) + b) 0)
                           (Z.of_nat (length l + (length s + length r)))))
    with (length l + Z.to_nat b)%nat by lia.
  replace (Z.to_nat (Z.min (Z.max a 0) (Z.of_nat (length s))))
    with (Z.to_nat a) by lia.
  replace (Z.to_nat (Z.min (Z.max b 0) (Z.of_nat (length s))))
    with (Z.to_nat b) by lia.
  replace (Nat.min (length l + Z.to_nat a) (length l + Z.to_nat b))
    with (length l + Z.to_nat a)%nat by lia.
  replace (Nat.max (length l + Z.to_nat a) (length l + Z.to_nat b)
           - (length l + Z.to_nat a))%nat
    with (Z.to_nat b - Z.to_nat a)%nat by lia.
  replace (Nat.min (Z.to_nat a) (Z.to_nat b)) with (Z.to_nat a) by lia.
  replace (Nat.max (Z.to_nat a) (Z.to_nat b) - Z.to_nat a)%nat
    with (Z.to_nat b - Z.to_nat a)%nat by lia.
  rewrite <- drop_drop, drop_app_length.
  rewrite drop_app_le by lia.
  rewrite take_app_le; [done|]. rewrite length_drop. lia.
Qed.

End IndexFacts.

(* ===================================================================== *)
(* 20. More on the response parser and on titles                          *)
(* ===================================================================== *)

Section ParserMore.
Implicit Types (raw l r s t pre post mid : jsstring).

Lemma trimStart_all_space l :
  forallb isWhiteSpace l = true -> trimStart l = [].
Proof.
  induction l as [|c l IH]; simpl; [done|].
  intros [-> Hl]%andb_true_iff. by apply IH.
Qed.

Lemma trimStart_padding l s :
  forallb isWhiteSpace l = true -> trimStart (l ++ s) = trimStart s.
Proof.
  induction l as [|c l IH]; simpl; [done|].
  intros [-> Hl]%andb_true_iff. by apply IH.
Qed.

Lemma trimStart_app s r :
  trimStart (s ++ r) =
    match trimStart s with
    | [] => trimStart r
    | c :: t => (c :: t) ++ r
    end.
Proof.
  induction s as [|c s IH]; simpl; [done|].
  destruct (isWhiteSpace c); [exact IH | done].
Qed.

Lemma trimEnd_padding s r :
  forallb isWhiteSpace r = true -> trimEnd (s ++ r) = trimEnd s.
Proof.
  intros Hr. unfold trimEnd. rewrite rev_app_distr.
  rewrite trimStart_padding; [done | by rewrite forallb_reverse].
Qed.

(** White space around a text does not change what [trim] returns. *)
Lemma trim_padding l s r :
  forallb isWhiteSpace l = true -> forallb isWhiteSpace r = true ->
  trim (l ++ s ++ r) = trim s.
Proof.
  intros Hl Hr. unfold trim. rewrite (trimStart_padding l _ Hl).
  rewrite trimStart_app. destruct (trimStart s) as [|c t] eqn:E.
  - by rewrite (trimStart_all_space r Hr).
  - by apply trimEnd_padding.
Qed.

Lemma space_has_no (c : N) l :
  isWhiteSpace c = false ->
  forallb isWhiteSpace l = true ->
  forallb (fun x => negb (c =? x)%N) l = true.
Proof.
  intros Hc. induction l as [|x l IH]; simpl; [done|].
  intros [Hx Hl]%andb_true_iff. rewrite (IH Hl), andb_true_r.
  apply negb_true_iff. destruct (N.eqb_spec c x); [congruence | done].
Qed.

(** The text of the second tier does not depend on white space around the
    reply. *)
Lemma jsonSubstring_padding l raw r :
  forallb isWhiteSpace l = true -> forallb isWhiteSpace r = true ->
  jsonSubstring (l ++ raw ++ r) = jsonSubstring raw.
Proof.
  intros Hl Hr. unfold jsonSubstring.
  change (js "{") with [cu "{"]. change (js "}") with [cu "}"].
  rewrite (indexOf_unit_prefix l (raw ++ r) (cu "{")
             (space_has_no (cu "{") l eq_refl Hl)).
  rewrite (indexOf_unit_suffix raw r (cu "{")
             (space_has_no (cu "{") r eq_refl Hr)).
  rewrite (lastIndexOf_unit_prefix l (raw ++ r) (cu "}")
             (space_has_no (cu "}") l eq_refl Hl)).
  rewrite (lastIndexOf_unit_suffix raw r (cu "}")
             (space_has_no (cu "}") r eq_refl Hr)).
  set (first := indexOf raw [cu "{"]). set (last := lastIndexOf raw [cu "}"]).
  destruct (Z.eqb_spec first (-1)) as [Ef|Ef]; [done|].
  destruct (Z.eqb_spec last (-1)) as [El|El].
  { cbn [negb andb]. by rewrite !andb_false_r. }
  pose proof (indexOf_unit_bound raw _ Ef) as Hf.
  pose proof (lastIndexOf_unit_bound raw _ El) as Hla.
  fold first in Hf. fold last in Hla.
  destruct (Z.eqb_spec (Z.of_nat (length l) + first) (-1)); [lia|].
  destruct (Z.eqb_spec (Z.of_nat (length l) + last) (-1)); [lia|].
  cbn [negb andb].
  destruct (Z.ltb_spec first last) as [Hlt|Hge].
  - destruct (Z.ltb_spec (Z.of_nat (length l) + first)
                         (Z.of_nat (length l) + last)); [|lia].
    f_equal.
    replace (Z.of_nat (length l) + last + 1)
      with (Z.of_nat (length l) + (last + 1)) by lia.
    apply substring_middle; lia.
  - destruct (Z.ltb_spec (Z.of_nat (length l) + first)
                         (Z.of_nat (length l) + last)); [lia|done].
Qed.

(** X7. In-place parsing does not see white space around the reply: with
    any white space before and after, the response is the same. *)
Theorem in_place_parse_ignores_padding l raw r :
  forallb isWhiteSpace l = true -> forallb isWhiteSpace r = true ->
  parseResponse (l ++ raw ++ r) false = parseResponse raw false.
Proof.
  intros Hl Hr. unfold parseResponse. cbn [negb].
  by rewrite (trim_padding l raw r Hl Hr).
Qed.

(** X8. Structured parsing does not see white space around the reply
    either: a reply that parses to a structured response still parses to
    that very response with white space added before and after; a reply
    that falls back still falls back, its content being the padded text
    as it came. *)
Theorem structured_parse_ignores_padding l raw r :
  forallb isWhiteSpace l = true -> forallb isWhiteSpace r = true ->
  parseResponse (l ++ raw ++ r) true =
    if isFallback (parseResponse raw true)
    then fallbackResponse (l ++ raw ++ r)
    else parseResponse raw true.
Proof.
  intros Hl Hr. unfold parseResponse, cleanJson. cbn [negb].
  rewrite (trim_padding l raw r Hl Hr).
  rewrite (jsonSubstring_padding l raw r Hl Hr).
  fold (cleanJson raw).
  destruct (tryStructured (cleanJson raw)) as [resp|] eqn:E1.
  - by apply tryStructured_Some in E1 as [-> _].
  - destruct (jsonSubstring raw) as [sub|]; [|done].
    destruct (tryStructured sub) as [resp|] eqn:E2; [|done].
    by apply tryStructured_Some in E2 as [-> _].
Qed.

(** The second tier cuts out the text from the first opening brace to the
    last closing brace. *)
Lemma jsonSubstring_braces pre mid post :
  forallb (fun x => negb (cu "{" =? x)%N) pre = true ->
  forallb (fun x => negb (cu "}" =? x)%N) post = true ->
  jsonSubstring (pre ++ (cu "{" :: mid ++ [cu "}"]) ++ post)
  = Some (cu "{" :: mid ++ [cu "}"]).
Proof.
  intros Hpre Hpost. unfold jsonSubstring.
  change (js "{") with [cu "{"]. change (js "}") with [cu "}"].
  set (t := cu "{" :: mid ++ [cu "}"]).
  assert (Hfirst : indexOf (pre ++ t ++ post) [cu "{"]
                   = Z.of_nat (length pre)).
  { rewrite (indexOf_unit_prefix pre (t ++ post) _ Hpre).
    change (indexOf (t ++ post) [cu "{"]) with 0. simpl. lia. }
  assert (Hlast : lastIndexOf (pre ++ t ++ post) [cu "}"]
                  = Z.of_nat (length pre) + Z.of_nat (S (length mid))).
  { rewrite app_assoc. rewrite (lastIndexOf_unit_suffix _ post _ Hpost).
    subst t. replace (pre ++ cu "{" :: mid ++ [cu "}"])
      with ((pre ++ cu "{" :: mid) ++ [cu "}"])
      by (by rewrite <- app_assoc).
    rewrite lastIndexOf_unit_last, length_app. cbn [length]. lia. }
  rewrite Hfirst, Hlast.
  destruct (Z.eqb_spec (Z.of_nat (length pre)) (-1)); [lia|].
  destruct (Z.eqb_spec (Z.of_nat (length pre) + Z.of_nat (S (length mid)))
                       (-1)); [lia|].
  destruct (Z.ltb_spec (Z.of_nat (length pre))
              (Z.of_nat (length pre) + Z.of_nat (S (length mid)))); [|lia].
  cbn [negb andb]. f_equal.
  replace (Z.of_nat (length pre)) with (Z.of_nat (length pre) + 0) at 1 by lia.
  replace (Z.of_nat (length pre) + Z.of_nat (S (length mid)) + 1)
    with (Z.of_nat (length pre) + Z.of_nat (length t)).
  2:{ subst t. cbn [length]. rewrite length_app. cbn [length]. lia. }
  rewrite substring_middle by lia.
  rewrite (substring_0 t (length t)) by lia. apply firstn_all.
Qed.

(** X9. The second tier recovers an object from the commentary around it.
    When the reply is some text without an opening brace, then an object
    text from its opening to its closing brace, then some text without a
    closing brace, and the first tier yields nothing, the response is what
    the object text alone parses and validates to; when that text is
    rejected as well, the response is the fallback. *)
Theorem brace_extraction_recovers_object pre mid post :
  let t := cu "{" :: mid ++ [cu "}"] in
  let raw := pre ++ t ++ post in
  forallb (fun x => negb (cu "{" =? x)%N) pre = true ->
  forallb (fun x => negb (cu "}" =? x)%N) post = true ->
  tryStructured (cleanJson raw) = None ->
  jsonSubstring raw = Some t /\
  parseResponse raw true =
    match tryStructured t with
    | Some response => response
    | None => fallbackResponse raw
    end.
Proof.
  intros t raw Hpre Hpost Htier1.
  pose proof (jsonSubstring_braces pre mid post Hpre Hpost) as Hsub.
  fold t raw in Hsub. split; [exact Hsub|].
  unfold parseResponse. cbn [negb]. by rewrite Htier1, Hsub.
Qed.

Lemma trim_all_space s : forallb isWhiteSpace s = true -> trim s = [].
Proof. intros H. unfold trim. by rewrite (trimStart_all_space s H). Qed.

(** X10. The file name of a new note is clean.  The sanitized title has no
    character that is illegal in a file name and no white space at either
    end, and it is no longer than the title; a title made only of illegal
    characters and white space gives the empty name, so that the note is
    the file [.md] of its folder. *)
Theorem safe_title_is_clean response :
  let safe := Plugin.safeTitleOf response in
  forallb (fun c => negb (Plugin.isIllegalInFileName c)) safe = true /\
  trim safe = safe /\
  (length safe <= length (title response))%nat /\
  (forallb (fun c => Plugin.isIllegalInFileName c || isWhiteSpace c)
           (title response) = true ->
   safe = [] /\
   forall normalizePath request parentFile,
     Plugin.targetPathOf normalizePath response request parentFile =
       normalizePath (Plugin.targetFolderOf normalizePath request parentFile
                      ++ js "/.md")).
Proof.
  cbn zeta. unfold Plugin.safeTitleOf. split; [|split; [|split]].
  - rewrite <- removeIllegal_safeTitle. apply forallb_filter.
  - apply trim_idem.
  - destruct (trim_split (Plugin.removeIllegal (title response)))
      as (l & r & Hs & _ & _).
    pose proof (List.filter_length_le
                  (fun c => negb (Plugin.isIllegalInFileName c))
                  (title response)) as Hle.
    fold (Plugin.removeIllegal (title response)) in Hle.
    rewrite Hs, !length_app in Hle. lia.
  - intros Hall.
    assert (Hsafe : trim (Plugin.removeIllegal (title response)) = []).
    { apply trim_all_space. unfold Plugin.removeIllegal.
      induction (title response) as [|c t IH]; simpl in *; [done|].
      apply andb_true_iff in Hall as [Hc Ht].
      destruct (Plugin.isIllegalInFileName c) eqn:Ei; simpl.
      - by apply IH.
      - simpl in Hc. rewrite Hc. by apply IH. }
    split; [exact Hsafe|].
    intros normalizePath request parentFile.
    unfold Plugin.targetPathOf, Plugin.safeTitleOf. by rewrite Hsafe.
Qed.

End ParserMore.

(* ===================================================================== *)
(* 21. The request                                                        *)
(* ===================================================================== *)

Section RequestFacts.
Implicit Types (e : Editor) (s t : jsstring).

(** [s.slice(-n)] is the end of [s], at most [n] units of it. *)
Lemma slice_tail s (n : Z) :
  0 < n ->
  exists z, s = z ++ slice s (- n) (jslength s) /\
            (Z.of_nat (length (slice s (- n) (jslength s))) <= n) /\
            (Z.of_nat (length s) <= n -> slice s (- n) (jslength s) = s).
Proof.
  intros Hn. unfold slice, sliceIndex, jslength.
  destruct (Z.ltb_spec (- n) 0) as [Hneg|Hzero]; [|lia].
  destruct (Z.ltb_spec (Z.of_nat (length s)) 0); [lia|].
  replace (Z.to_nat (Z.min (Z.of_nat (length s)) (Z.of_nat (length s))))
    with (length s) by lia.
  set (from := Z.to_nat (Z.max (Z.of_nat (length s) + - n) 0)).
  assert (Hfrom : (from <= length s)%nat) by lia.
  rewrite take_ge by (rewrite length_drop; lia).
  exists (take from s). rewrite take_drop, length_drop.
  split; [done|]. split; [lia|].
  intros Hshort. replace from with O by lia. done.
Qed.

(** [s.slice(0, n)] is the start of [s], at most [n] units of it. *)
Lemma slice_head s (n : Z) :
  0 <= n ->
  exists z, s = slice s 0 n ++ z /\
            (Z.of_nat (length (slice s 0 n)) <= n) /\
            (Z.of_nat (length s) <= n -> slice s 0 n = s).
Proof.
  intros Hn. unfold slice, sliceIndex, jslength.
  destruct (Z.ltb_spec n 0); [lia|]. simpl (0 <? 0).
  replace (Z.to_nat (Z.min 0 (Z.of_nat (length s)))) with O by lia.
  rewrite Nat.sub_0_r, drop_0.
  set (k := Z.to_nat (Z.min n (Z.of_nat (length s)))).
  exists (drop k s). rewrite take_drop, length_take.
  split; [done|]. split; [lia|].
  intros Hshort. apply take_ge. lia.
Qed.

Lemma take_sum {A} (l : list A) (x k : nat) :
  take (x + k) l = take x l ++ take k (drop x l).
Proof.
  revert l; induction x as [|x IH]; intros l; [done|].
  destruct l as [|a l]; simpl; [by rewrite take_nil | by rewrite IH].
Qed.

(** The editor finds the offset of a cursor position again. *)
Lemma offsetOf_offsetToPos e (o : nat) :
  offsetOf e (offsetToPos (doc e) o) = Nat.min o (length (doc e)).
Proof.
  unfold offsetOf, offsetToPos. cbn [line ch].
  rewrite <- (take_drop o (doc e)) at 1.
  rewrite posToOffset_prefix, length_take. done.
Qed.

(** A line past the last one is the end of the document. *)
Lemma posToOffset_beyond t (l c : nat) :
  (length (split t LF) <= l)%nat -> posToOffset t l c = length t.
Proof.
  revert l; induction t as [|u t IH]; intros l Hl; [done|].
  cbn [split posToOffset] in *.
  pose proof (split_nonempty t LF) as Hne.
  destruct (u =? LF)%N.
  - cbn [length] in Hl. destruct l as [|l]; [lia|].
    rewrite IH by lia. done.
  - destruct (split t LF) as [|first others] eqn:Es; [done|].
    cbn [length] in Hl, IH. destruct l as [|l]; [lia|].
    rewrite IH by lia. done.
Qed.

(** X11. The context windows are bounded and adjacent.  The context
    before the selection is the end of the text that precedes the
    selection and the context after it is the start of the text that
    follows, each of at most 1000 code units.  When the selection starts
    within the first 21 lines and 1000 code units, the context before is
    all the text before; when fewer than 20 further lines and at most 1000
    code units follow the selection, the context after is all the text
    after. *)
Theorem context_windows_are_bounded e :
  let before := take (selFrom e) (doc e) in
  let after := drop (selTo e) (doc e) in
  (length (contextBeforeOf e) <= 1000)%nat /\
  (exists z, before = z ++ contextBeforeOf e) /\
  (length (contextAfterOf e) <= 1000)%nat /\
  (exists z, after = contextAfterOf e ++ z) /\
  ((line (getCursorFrom e) <= 20)%nat -> (length before <= 1000)%nat ->
   contextBeforeOf e = before) /\
  ((lineCount e <= line (getCursorTo e) + 20)%nat ->
   (length after <= 1000)%nat -> contextAfterOf e = after).
Proof.
  intros before after.
  (* the range before the selection *)
  set (o := Nat.min (selFrom e) (length (doc e))).
  assert (Hbefore : before = take o (doc e)).
  { subst before o. destruct (Nat.le_ge_cases (selFrom e) (length (doc e))).
    - by rewrite Nat.min_l.
    - rewrite Nat.min_r by done. by rewrite !take_ge by lia. }
  set (startPos := {| line := Nat.max 0 (line (getCursorFrom e) - 20);
                      ch := 0 |}).
  set (rangeB := getRange e startPos (getCursorFrom e)).
  assert (HrangeB : exists z, before = z ++ rangeB).
  { subst rangeB. unfold getRange, getCursorFrom.
    rewrite offsetOf_offsetToPos. fold o. rewrite Hbefore.
    destruct (Nat.le_ge_cases (offsetOf e startPos) o) as [Hle|Hge].
    - exists (take (offsetOf e startPos) (doc e)).
      replace o with (offsetOf e startPos + (o - offsetOf e startPos))%nat
        at 1 by lia.
      apply take_sum.
    - exists (take o (doc e)).
      replace (o - offsetOf e startPos)%nat with O by lia.
      by rewrite take_0, app_nil_r. }
  destruct (slice_tail rangeB 1000 ltac:(lia)) as (zB & HsB & HlenB & HallB).
  change (- (1000)) with (-1000) in HsB, HlenB, HallB.
  (* the range after the selection *)
  set (o' := Nat.min (selTo e) (length (doc e))).
  assert (Hafter : after = drop o' (doc e)).
  { subst after o'. destruct (Nat.le_ge_cases (selTo e) (length (doc e))).
    - by rewrite Nat.min_l.
    - rewrite Nat.min_r by done. by rewrite !drop_ge by lia. }
  set (endPos := {| line := Nat.min (lineCount e) (line (getCursorTo e) + 20);
                    ch := 0 |}).
  set (rangeA := getRange e (getCursorTo e) endPos).
  assert (HrangeA : exists z, after = rangeA ++ z).
  { subst rangeA. unfold getRange, getCursorTo.
    rewrite offsetOf_offsetToPos. fold o'. rewrite Hafter.
    eexists. symmetry. apply take_drop. }
  destruct (slice_head rangeA 1000 ltac:(lia)) as (zA & HsA & HlenA & HallA).
  change (contextBeforeOf e) with (slice rangeB (-1000) (jslength rangeB)).
  change (contextAfterOf e) with (slice rangeA 0 1000).
  split; [lia|]. split.
  { destruct HrangeB as (z & Hz). exists (z ++ zB).
    rewrite Hz. rewrite HsB at 1. by rewrite <- app_assoc. }
  split; [lia|]. split.
  { destruct HrangeA as (z & Hz). exists (zA ++ z).
    rewrite Hz. rewrite HsA at 1. by rewrite <- app_assoc. }
  split.
  - intros Hline Hshort.
    assert (HB : rangeB = before).
    { subst rangeB. unfold getRange, getCursorFrom.
      rewrite offsetOf_offsetToPos. fold o.
      assert (Hstart : offsetOf e startPos = O).
      { unfold offsetOf, startPos. cbn [line ch].
        replace (Nat.max 0 (line (getCursorFrom e) - 20)) with O by lia.
        destruct (doc e) as [|u t]; [done|]. simpl. by destruct (u =? LF)%N. }
      rewrite Hstart, Nat.sub_0_r, drop_0. by rewrite Hbefore. }
    rewrite HallB; [exact HB | rewrite HB; lia].
  - intros Hlines Hshort.
    assert (HA : rangeA = after).
    { subst rangeA. unfold getRange, getCursorTo.
      rewrite offsetOf_offsetToPos. fold o'.
      assert (Hend : offsetOf e endPos = length (doc e)).
      { unfold offsetOf, endPos. cbn [line ch].
        apply posToOffset_beyond. unfold lineCount in *.
        fold (getCursorTo e). lia. }
      rewrite Hend, Hafter. apply take_ge. rewrite length_drop. lia. }
    rewrite HallA; [exact HA | rewrite HA; lia].
Qed.

Lemma readBackgroundFiles_acc (v : Vault) (background : list TFile) acc :
  readBackgroundFiles v background acc
  = acc ++ readBackgroundFiles v background [].
Proof.
  revert acc; induction background as [|f fs IH]; intros acc; simpl.
  - by rewrite app_nil_r.
  - destruct (vault_read v (path f)) as [content|]; [|apply IH].
    rewrite (IH (acc ++ _)), (IH (referenceBlock _ _)).
    by rewrite <- app_assoc.
Qed.

Lemma readBackgroundFiles_app (v : Vault) (fs1 fs2 : list TFile) :
  readBackgroundFiles v (fs1 ++ fs2) []
  = readBackgroundFiles v fs1 [] ++ readBackgroundFiles v fs2 [].
Proof.
  induction fs1 as [|f fs IH]; simpl; [done|].
  destruct (vault_read v (path f)) as [content|]; [|exact IH].
  rewrite (readBackgroundFiles_acc v (fs ++ fs2)),
          (readBackgroundFiles_acc v fs), IH.
  by rewrite <- app_assoc.
Qed.

Lemma trim_not_nil s :
  forallb isWhiteSpace s = false -> trim s <> [].
Proof.
  intros Hs Ht. apply trim_nil_all_space in Ht. congruence.
Qed.

Lemma referenceBlock_not_space (p content rest before : jsstring) :
  forallb isWhiteSpace (before ++ referenceBlock p content ++ rest) = false.
Proof.
  rewrite forallb_app. apply andb_false_iff. right.
  unfold referenceBlock. rewrite <- !app_assoc. by simpl.
Qed.

(** X12. Background files are gathered on a best-effort basis.  The text
    gathered from a list of files is the blocks of the readable ones in
    the order listed; a file that cannot be read adds nothing and stops
    nothing, a readable one adds its block in its place; and the service
    announces references to the model exactly when at least one listed
    file could be read. *)
Theorem background_is_best_effort (v : Vault) (fs1 fs2 : list TFile)
    (f : TFile) :
  readBackgroundFiles v (fs1 ++ fs2) []
    = readBackgroundFiles v fs1 [] ++ readBackgroundFiles v fs2 [] /\
  (vault_read v (path f) = None ->
   readBackgroundFiles v (fs1 ++ f :: fs2) []
     = readBackgroundFiles v (fs1 ++ fs2) []) /\
  (forall content,
     vault_read v (path f) = Some content ->
     readBackgroundFiles v (fs1 ++ f :: fs2) []
       = readBackgroundFiles v fs1 [] ++ referenceBlock (path f) content
         ++ readBackgroundFiles v fs2 []) /\
  (forall request,
     backgroundContext request = readBackgroundFiles v fs1 [] ->
     (hasBackground request = true <->
      Exists (fun file => is_Some (vault_read v (path file))) fs1)).
Proof.
  split; [apply readBackgroundFiles_app|]. split; [|split].
  - intros Hnone. rewrite !readBackgroundFiles_app. simpl. by rewrite Hnone.
  - intros content Hsome. rewrite readBackgroundFiles_app. simpl.
    rewrite Hsome. by rewrite (readBackgroundFiles_acc v fs2).
  - intros request Hreq. unfold hasBackground. rewrite Hreq. clear Hreq.
    split.
    + intros Hhas. induction fs1 as [|file fs IH]; [done|].
      simpl in Hhas.
      destruct (vault_read v (path file)) as [content|] eqn:E.
      * apply Exists_cons_hd. by rewrite E.
      * apply Exists_cons_tl. by apply IH.
    + intros Hex. apply Exists_exists in Hex as (file & Hin & [content Hc]).
      apply list_elem_of_split in Hin as (l1 & l2 & ->).
      rewrite readBackgroundFiles_app. simpl. rewrite Hc.
      rewrite (readBackgroundFiles_acc v l2).
      pose proof (referenceBlock_not_space (path file) content
                    (readBackgroundFiles v l2 [])
                    (readBackgroundFiles v l1 [])) as Hns.
      pose proof (trim_not_nil _ Hns) as Htrim.
      destruct (readBackgroundFiles v l1 [] ++ _) as [|c t] eqn:Eall.
      * by apply app_eq_nil in Eall as [_ Eall].
      * destruct (trim (c :: t)); [done|]. unfold jslength. cbn [length].
        apply Z.ltb_lt. lia.
Qed.

End RequestFacts.

(* ===================================================================== *)
(* 22. The custom host, its body, and the oldest parser                   *)
(* ===================================================================== *)

Section ServiceMore.
Implicit Types (s x y p q l r rest : jsstring) (c : N).

Lemma startsWith_app_both p y q :
  startsWith (p ++ y) (p ++ q) = startsWith y q.
Proof.
  induction p as [|a p IH]; simpl; [done|]. by rewrite N.eqb_refl.
Qed.

Lemma indexOf_prefix p y : indexOf (p ++ y) p = 0.
Proof.
  unfold indexOf. destruct (p ++ y) as [|a t] eqn:E; cbn [indexOf_from];
    rewrite <- E, startsWith_app; done.
Qed.

(** A text that starts and ends with something other than white space is
    its own trim. *)
Lemma trim_fixed (a b : N) (m : jsstring) :
  isWhiteSpace a = false -> isWhiteSpace b = false ->
  trim (a :: m ++ [b]) = a :: m ++ [b].
Proof.
  intros Ha Hb. unfold trim. rewrite trimStart_fixed by done.
  unfold trimEnd.
  replace (rev (a :: m ++ [b])) with (b :: rev (a :: m))
    by (simpl; by rewrite rev_app_distr).
  rewrite trimStart_fixed by done.
  simpl. rewrite rev_app_distr. simpl. by rewrite rev_involutive.
Qed.

Lemma endsWith_unit x c d : endsWith (x ++ [c]) [d] = (d =? c)%N.
Proof.
  unfold endsWith. rewrite rev_app_distr. simpl. by rewrite andb_true_r.
Qed.

Lemma slice_drop_last x c : slice (x ++ [c]) 0 (-1) = x.
Proof.
  unfold slice, sliceIndex, jslength. rewrite length_app. cbn [length].
  simpl (0 <? 0). destruct (Z.ltb_spec (-1) 0); [|lia].
  replace (Z.to_nat (Z.min 0 (Z.of_nat (length x + 1)))) with O by lia.
  replace (Z.to_nat (Z.max (Z.of_nat (length x + 1) + -1) 0))
    with (length x) by lia.
  rewrite Nat.sub_0_r, drop_0. apply take_app_length.
Qed.

Lemma replaceFirst_prefix p y replacement :
  replaceFirst (p ++ y) p replacement = replacement ++ y.
Proof.
  unfold replaceFirst. rewrite indexOf_prefix. simpl (0 =? -1).
  cbv iota.
  assert (H0 : substring (p ++ y) 0 0 = []).
  { unfold substring, clamp, jslength.
    replace (Z.to_nat (Z.min (Z.max 0 0) (Z.of_nat (length (p ++ y)))))
      with O by lia.
    done. }
  assert (H1 : substring (p ++ y) (0 + jslength p) (jslength (p ++ y)) = y).
  { unfold substring, clamp, jslength. rewrite length_app.
    replace (Z.to_nat (Z.min (Z.max (0 + Z.of_nat (length p)) 0)
                             (Z.of_nat (length p + length y))))
      with (length p) by lia.
    replace (Z.to_nat (Z.min (Z.max (Z.of_nat (length p + length y)) 0)
                             (Z.of_nat (length p + length y))))
      with (length p + length y)%nat by lia.
    rewrite Nat.min_l, Nat.max_r by lia.
    rewrite drop_app_length.
    replace (length p + length y - length p)%nat with (length y) by lia.
    apply firstn_all. }
  by rewrite H0, H1.
Qed.

(** What [normalizeHost] does to a trimmed host. *)
Lemma normalizeHost_trimmed l x r :
  forallb isWhiteSpace l = true -> forallb isWhiteSpace r = true ->
  trim x = x ->
  normalizeHost (l ++ x ++ r) =
    let host :=
      if startsWith x (js "https:/") && negb (startsWith x (js "https://"))
      then replaceFirst x (js "https:/") (js "https://")
      else x in
    if endsWith host (js "/") then slice host 0 (-1) else host.
Proof.
  intros Hl Hr Hx. unfold normalizeHost.
  by rewrite (trim_padding l x r Hl Hr), Hx.
Qed.

(** X13. The address of the custom host is repaired to one canonical
    form.  For a host [https://...] whose name does not start with a
    slash and that ends neither with a slash nor with white space, the
    address requested is the same whether the
    setting holds the host as it is, with one slash at the end, with the
    scheme mistyped as [https:/], or both, and whatever white space
    surrounds it: the host, then the path of the model and the key. *)
Theorem custom_host_address_is_canonical settings rest c l r variant :
  let canonical := js "https://" ++ rest ++ [c] in
  isWhiteSpace c = false -> c <> cu "/" ->
  startsWith (rest ++ [c]) (js "/") = false ->
  forallb isWhiteSpace l = true -> forallb isWhiteSpace r = true ->
  List.In variant [canonical; canonical ++ js "/";
                   js "https:/" ++ rest ++ [c];
                   js "https:/" ++ rest ++ [c] ++ js "/"] ->
  apiHost settings = l ++ variant ++ r ->
  normalizeHost (apiHost settings) = canonical /\
  requestAddress settings =
    canonical ++ js "/v1beta/models/" ++ modelName settings
    ++ js ":generateContent?key=" ++ apiKey settings.
Proof.
  intros canonical Hc Hslash Hthird Hl Hr Hvar Hhost.
  assert (Hslash_ws : isWhiteSpace (cu "/") = false) by done.
  assert (Hnc : (cu "/" =? c)%N = false).
  { destruct (N.eqb_spec (cu "/") c); [congruence | done]. }
  assert (Hnorm : normalizeHost (apiHost settings) = canonical).
  { rewrite Hhost.
    assert (Hcanon_typo : replaceFirst (js "https:/" ++ rest ++ [c])
                            (js "https:/") (js "https://") = canonical)
      by apply replaceFirst_prefix.
    assert (Hsw1 : forall y, startsWith (js "https:/" ++ y) (js "https:/")
                             = true) by (intros; apply startsWith_app).
    assert (Hsw2 : forall y, startsWith (js "https:/" ++ y) (js "https://")
                             = startsWith y (js "/")).
    { intros y. apply (startsWith_app_both (js "https:/") y (js "/")). }
    cbn [List.In] in Hvar.
    destruct Hvar as [<-|[<-|[<-|[<-|[]]]]].
    - (* as it is *)
      rewrite normalizeHost_trimmed; try done.
      2:{ subst canonical.
          apply (trim_fixed (cu "h") c (js "ttps://" ++ rest)); done. }
      cbn zeta.
      change canonical with (js "https:/" ++ (js "/" ++ rest ++ [c])).
      rewrite Hsw1, Hsw2. simpl (startsWith (js "/" ++ _) (js "/")).
      cbn [negb andb].
      change (js "https:/" ++ js "/" ++ rest ++ [c])
        with ((js "https://" ++ rest) ++ [c]).
      change (js "/") with [cu "/"]. by rewrite endsWith_unit, Hnc.
    - (* a slash at the end *)
      rewrite normalizeHost_trimmed; try done.
      2:{ subst canonical.
          exact (trim_fixed (cu "h") (cu "/") (js "ttps://" ++ rest ++ [c])
                   eq_refl eq_refl). }
      cbn zeta.
      change (canonical ++ js "/")
        with (js "https:/" ++ (js "/" ++ (rest ++ [c]) ++ js "/")).
      rewrite Hsw1, Hsw2. simpl (startsWith (js "/" ++ _) (js "/")).
      cbn [negb andb].
      change (js "https:/" ++ js "/" ++ (rest ++ [c]) ++ js "/")
        with (canonical ++ [cu "/"]).
      change (js "/") with [cu "/"].
      by rewrite endsWith_unit, N.eqb_refl, slice_drop_last.
    - (* the scheme mistyped *)
      rewrite normalizeHost_trimmed; try done.
      2:{ apply (trim_fixed (cu "h") c (js "ttps:/" ++ rest)); done. }
      cbn zeta. rewrite Hsw1, Hsw2, Hthird. cbn [negb andb].
      rewrite Hcanon_typo. subst canonical.
      change (js "https://" ++ rest ++ [c])
        with ((js "https://" ++ rest) ++ [c]).
      change (js "/") with [cu "/"]. by rewrite endsWith_unit, Hnc.
    - (* both *)
      rewrite normalizeHost_trimmed; try done.
      2:{ replace (js "https:/" ++ rest ++ [c] ++ js "/")
            with (cu "h" :: (js "ttps:/" ++ rest ++ [c]) ++ [cu "/"]).
          - exact (trim_fixed (cu "h") (cu "/") (js "ttps:/" ++ rest ++ [c])
                     eq_refl eq_refl).
          - change (cu "h" :: (js "ttps:/" ++ rest ++ [c]) ++ [cu "/"])
              with (js "https:/" ++ (rest ++ [c]) ++ js "/").
            by rewrite <- app_assoc. }
      cbn zeta. rewrite Hsw1, Hsw2.
      replace (startsWith (rest ++ [c] ++ js "/") (js "/"))
        with (startsWith (rest ++ [c]) (js "/")).
      2:{ change (js "/") with [cu "/"]. rewrite !startsWith_unit.
          by destruct rest. }
      rewrite Hthird. cbn [negb andb].
      rewrite replaceFirst_prefix.
      replace (js "https://" ++ rest ++ [c] ++ js "/")
        with (canonical ++ [cu "/"])
        by (subst canonical; by rewrite <- !app_assoc).
      change (js "/") with [cu "/"].
      by rewrite endsWith_unit, N.eqb_refl, slice_drop_last. }
  split; [exact Hnorm|]. unfold requestAddress. by rewrite Hnorm.
Qed.

(** X14. A well-formed body is read.  When the status is below 400 and
    the body is an object whose [candidates] start with an object holding
    [content], whose [parts] start with an object holding a non-empty
    string [text], the custom-host path returns that string. *)
Theorem custom_host_reads_the_text (code : Z) data candidate others content'
    part parts' text :
  code < 400 ->
  getProp data (js "candidates") = Some (JArray (candidate :: others)) ->
  getProp candidate (js "content") = Some content' ->
  getProp content' (js "parts") = Some (JArray (part :: parts')) ->
  getProp part (js "text") = Some (JString text) ->
  text <> [] ->
  generateWithCustomHost
    (RequestReturns {| status := code; json := Some data |})
  = Ok (JString text).
Proof.
  intros Hcode Hcands Hcontent Hparts Htext Hne.
  unfold generateWithCustomHost. cbn [status json].
  destruct (Z.leb_spec 400 code); [lia|].
  unfold extractText. rewrite Hcands.
  change (optIndex0 (JArray (candidate :: others))) with candidate.
  assert (Hc : optProp candidate (js "content") = content').
  { unfold optProp. rewrite Hcontent.
    by destruct candidate; try discriminate Hcontent. }
  rewrite Hc.
  assert (Hp : optProp content' (js "parts") = JArray (part :: parts')).
  { unfold optProp. rewrite Hparts.
    by destruct content'; try discriminate Hparts. }
  rewrite Hp. change (optIndex0 (JArray (part :: parts'))) with part.
  assert (Ht : optProp part (js "text") = JString text).
  { unfold optProp. rewrite Htext. by destruct part; try discriminate Htext. }
  rewrite Ht. destruct text; [done|]. done.
Qed.

(** A candidate the oldest validation accepts has a title and a content
    with something other than white space in them. *)
Lemma legacy_valid_iff obj :
  Legacy.isValidResponse obj = true <->
  exists t body, getProp obj (js "title") = Some (JString t) /\
                 getProp obj (js "content") = Some (JString body) /\
                 trim t <> [] /\ trim body <> [].
Proof.
  unfold Legacy.isValidResponse. split.
  - destruct (toBoolean obj); [|done].
    destruct (getProp obj (js "title")) as [[| | | |t| |]|]; try done.
    destruct (trim t) eqn:Et; [done|].
    destruct (getProp obj (js "content")) as [[| | | |c| |]|]; try done.
    destruct (trim c) eqn:Ec; [done|].
    intros _. exists t, c. rewrite Et, Ec. by repeat split.
  - intros (t & c & Ht & Hc & Hnt & Hnc). rewrite Ht, Hc.
    destruct (trim t); [done|]. destruct (trim c); [done|].
    destruct obj; try done; simpl in Ht; by inversion Ht.
Qed.

Lemma legacy_tryStructured_Some text response :
  Legacy.tryStructured text = Some response ->
  isFallback response = false /\
  trim (title response) <> [] /\ trim (content response) <> [] /\
  exists v, JSON_parse text = Some v /\ isValidResponse v = true.
Proof.
  unfold Legacy.tryStructured.
  destruct (JSON_parse text) as [v|]; [|done].
  destruct (Legacy.isValidResponse v) eqn:E; [|done].
  apply legacy_valid_iff in E as (t & c & Ht & Hc & Hnt & Hnc).
  unfold Legacy.structuredResponse. rewrite Ht, Hc. intros [= <-].
  cbn [isFallback title content]. repeat split; try done.
  exists v. split; [done|]. apply isValidResponse_iff. eauto.
Qed.

(** X15. The oldest revision of the parser did refuse blank fields.  A
    response it returns as structured has a title and a content that are
    not blank, and the current parser returns a structured response for
    the same reply; the converse fails, as for the object with an empty
    title and an empty content, which the oldest revision turns into the
    fallback and the current one accepts. *)
Theorem legacy_parser_refused_blank_fields :
  (forall raw,
     isFallback (Legacy.parseResponse raw) = false ->
     trim (title (Legacy.parseResponse raw)) <> [] /\
     trim (content (Legacy.parseResponse raw)) <> [] /\
     isFallback (parseResponse raw true) = false)
  /\ (forall obj, Legacy.isValidResponse obj = true ->
                  isValidResponse obj = true)
  /\ Legacy.parseResponse (Example.jsonNote [] [])
     = fallbackResponse (Example.jsonNote [] [])
  /\ isFallback (parseResponse (Example.jsonNote [] []) true) = false.
Proof.
  split; [|split; [|split; by vm_compute]].
  - intros raw. unfold Legacy.parseResponse, parseResponse. cbn [negb].
    destruct (Legacy.tryStructured (cleanJson raw)) as [resp|] eqn:L1.
    + apply legacy_tryStructured_Some in L1
        as (Hf & Ht & Hc & v & Hp & Hv).
      intros _. split; [done|]. split; [done|].
      apply isValidResponse_iff in Hv as (t & c & Hti & Hco).
      destruct (tryStructured_accepts _ _ _ _ Hp Hti Hco) as (a & _ & ->).
      done.
    + destruct (jsonSubstring raw) as [sub|] eqn:Es; [|done].
      destruct (Legacy.tryStructured sub) as [resp|] eqn:L2; [|done].
      apply legacy_tryStructured_Some in L2
        as (Hf & Ht & Hc & v & Hp & Hv).
      intros _. split; [done|]. split; [done|].
      destruct (tryStructured (cleanJson raw)) as [r1|] eqn:E1.
      * by apply tryStructured_Some in E1 as [? _].
      * apply isValidResponse_iff in Hv as (t & c & Hti & Hco).
        destruct (tryStructured_accepts _ _ _ _ Hp Hti Hco) as (a & _ & ->).
        done.
  - intros obj Hv. apply legacy_valid_iff in Hv as (t & c & Ht & Hc & _).
    apply isValidResponse_iff. eauto.
Qed.

End ServiceMore.

(* ===================================================================== *)
(* 23. From the command to the request                                    *)
(* ===================================================================== *)

Section CommandFacts.

(** X16. The command takes its snapshot from the editor.  On an empty
    selection it only shows a notice and opens nothing; when it does go
    on, the text it hands over is the selection of that moment, it is not
    empty, and the view had a file.  The request built from it carries
    that text as [selectedText] and the content of the parent file as it
    is in the vault then; no request is built exactly when the parent
    file cannot be read.  A run whose editor still has that selection when
    the response arrives takes the direct route, without scanning the
    document. *)
Theorem command_captures_the_selection viewFile w :
  (getSelection (editor w) = [] ->
   handleGenerateCommand viewFile w =
     Done None (logged (logged w EvGetSelection) (EvNotice NoticeSelectFirst)))
  /\ (forall selected parentFile w',
        handleGenerateCommand viewFile w
          = Done (Some (selected, parentFile)) w' ->
        selected = getSelection (editor w) /\ selected <> [] /\
        viewFile = Some parentFile /\ w' = logged w EvGetSelection /\
        forall e v result request,
          buildRequest e v selected parentFile result = Some request ->
          selectedText request = selected /\
          vault_read v (path parentFile) = Some (parentNoteContent request) /\
          outputAction request = chosenOutputAction result /\
          forall w2, getSelection (editor w2) = getSelection (editor w) ->
            Plugin.reconcile (selectedText request) w2
              = Done true (logged w2 EvGetSelection))
  /\ (forall e v selected parentFile result,
        buildRequest e v selected parentFile result = None <->
        vault_read v (path parentFile) = None)
  /\ (forall ex w', handleGenerateCommand viewFile w <> Raised ex w').
Proof.
  unfold handleGenerateCommand, bind, editor_getSelection, notice, ret.
  split; [|split; [|split]].
  - by intros ->.
  - intros selected parentFile w' H.
    destruct (getSelection (editor w)) as [|c t] eqn:Es; [done|].
    destruct viewFile as [f|]; [|done].
    injection H as <- <- <-.
    split; [done|]. split; [done|]. split; [done|]. split; [done|].
    intros e v result request Hb. unfold buildRequest in Hb.
    destruct (vault_read v (path f)) as [parentContent|] eqn:Er; [|done].
    injection Hb as <-. cbn [selectedText parentNoteContent outputAction].
    split; [done|]. split; [done|]. split; [done|].
    intros w2 Hsel. by apply reconcile_same.
  - intros e v selected parentFile result. unfold buildRequest.
    by destruct (vault_read v (path parentFile)).
  - intros ex w'. destruct (getSelection (editor w)); [done|].
    by destruct viewFile.
Qed.

End CommandFacts.

(* ===================================================================== *)
(* 24. The further properties at concrete runs                            *)
(* ===================================================================== *)

Section MoreInstances.
Import Example.

Local Abbreviation run :=
  (Plugin.runGeneration normalizePath numberToString away away).

(** X1 at a run whose provider throws. *)
Lemma transport_failure_changes_nothing_witness :
  let req := request replace_selection (js "foo") in
  let failing := {| sdkReply := SdkThrows (js "quota");
                    hostReply := RequestRejects [] |} in
  let w := world (js "a foo b") 2 5 emptyVault in
  apiKey settings <> [] /\
  generateNote settings req failing = Err (SdkError (js "quota")) /\
  run settings req parentFile failing idle w =
    Done tt (logged (logged (idle (logged w (EvNotice NoticeGenerating)))
                            EvNoticeHide) (EvNotice NoticeFailed)).
Proof.
  intros req failing w.
  assert (Hkey : apiKey settings <> []) by (vm_compute; discriminate).
  assert (Hgen : generateNote settings req failing
                 = Err (SdkError (js "quota"))) by reflexivity.
  split; [exact Hkey|]. split; [exact Hgen|].
  exact (transport_failure_changes_nothing normalizePath numberToString
           away away settings req parentFile failing idle _ w Hkey Hgen).
Defined.

(** X3 at an insertion after a selection the user left meanwhile. *)
Lemma in_place_apply_edits_one_occurrence_witness :
  let req := request insert_after (js "foo") in
  let w := world (js "a foo b") 2 5 emptyVault in
  let live := movesToStart (logged w (EvNotice NoticeGenerating)) in
  apiKey settings <> [] /\
  generateNote settings req (answers (js "BAR"))
    = Ok (parseResponse (js "BAR") false) /\
  outputAction req <> create_note /\
  occurrences (doc (editor live)) (js "foo") = 1%nat /\
  exists w' pre post,
    run settings req parentFile (answers (js "BAR")) movesToStart w
      = Done tt w' /\
    js "a foo b" = pre ++ js "foo" ++ post /\
    doc (editor w') = pre ++ (js "foo" ++ [LF; LF] ++ js "BAR") ++ post.
Proof.
  intros req w live.
  assert (Hkey : apiKey settings <> []) by (vm_compute; discriminate).
  assert (Hgen : generateNote settings req (answers (js "BAR"))
                 = Ok (parseResponse (js "BAR") false)) by reflexivity.
  assert (Hact : outputAction req <> create_note) by discriminate.
  assert (Hocc : occurrences (doc (editor live)) (js "foo") = 1%nat)
    by reflexivity.
  repeat split; try assumption.
  destruct (in_place_apply_edits_one_occurrence normalizePath numberToString
              away away settings req parentFile (answers (js "BAR"))
              movesToStart
              (parseResponse (js "BAR") false) w Hkey Hgen Hact
              (or_intror Hocc))
    as (w' & pre & post & Hrun & Hdoc & Hnew & _).
  exists w', pre, post. split; [exact Hrun|]. split; [exact Hdoc | exact Hnew].
Defined.

(** X4 at a structured response without a label: with a user who stays
    away, and with one who puts the cursor at the start of the document
    while the note is written. *)
Lemma created_note_is_linked_witness :
  let req := request create_note (js "foo") in
  let raw := jsonNote (js "Cells") (js "Body") in
  let resp := parseResponse raw true in
  let w := world (js "a foo b") 2 5 emptyVault in
  let live := idle (logged w (EvNotice NoticeGenerating)) in
  let target := Plugin.targetPathOf normalizePath resp req parentFile in
  apiKey settings <> [] /\
  generateNote settings req (answers raw) = Ok resp /\
  getSelection (editor live) = js "foo" /\
  existsAt (vault live) target = false /\
  target <> Plugin.targetFolderOf normalizePath req parentFile /\
  toBoolean (anchorLabel resp) = false /\
  undisturbed away /\
  (exists w',
     run settings req parentFile (answers raw) idle w = Done tt w' /\
     doc (editor w') = js "a [[notes/Cells.md|foo]] b" /\
     files (vault w') =
       <[ target := Plugin.parentLink parentFile ++ content resp ]>
         (files (vault live))) /\
  (exists w',
     Plugin.runGeneration normalizePath numberToString away movesToStart
       settings req parentFile (answers raw) idle w = Done tt w' /\
     doc (editor w') = js "[[notes/Cells.md|foo]]a foo b").
Proof.
  intros req raw resp w live target.
  assert (Hkey : apiKey settings <> []) by (vm_compute; discriminate).
  assert (Hgen : generateNote settings req (answers raw) = Ok resp)
    by reflexivity.
  assert (Hsel : getSelection (editor live) = js "foo") by reflexivity.
  assert (Hfree : existsAt (vault live) target = false) by (by vm_compute).
  assert (Hne : target <> Plugin.targetFolderOf normalizePath req parentFile)
    by (vm_compute; discriminate).
  assert (Hlab : toBoolean (anchorLabel resp) = false) by reflexivity.
  repeat split; try assumption.
  - destruct (created_note_is_linked normalizePath numberToString away away
                settings req parentFile (answers raw) idle resp w Hkey Hgen
                eq_refl (or_introl Hsel) Hfree Hne (or_introl Hlab)
                away_undisturbed)
      as (w' & written & Hrun & _ & _ & _ & _ & _ & _ & _ & _ & Hquiet).
    destruct (Hquiet away_undisturbed)
      as (pre & post & Hdoc & Hnew & Hfiles & _).
    exists w'. split; [exact Hrun|]. split; [|exact Hfiles].
    pose proof Hrun as Hrun2. vm_compute in Hrun2.
    injection Hrun2 as <-. by vm_compute.
  - destruct (created_note_is_linked normalizePath numberToString away
                movesToStart settings req parentFile (answers raw) idle resp
                w Hkey Hgen eq_refl (or_introl Hsel) Hfree Hne
                (or_introl Hlab) away_undisturbed)
      as (w' & written & Hrun & _).
    exists w'. split; [exact Hrun|].
    pose proof Hrun as Hrun2. vm_compute in Hrun2.
    injection Hrun2 as <-. by vm_compute.
Defined.

(** X5 at an unstructured response whose default title is taken. *)
Lemma collision_inserts_no_link_witness :
  let req := request create_note (js "foo") in
  let resp := parseResponse (js "BAR") true in
  let w := world (js "a foo b") 2 5 takenVault in
  let live := idle (logged w (EvNotice NoticeGenerating)) in
  apiKey settings <> [] /\
  generateNote settings req (answers (js "BAR")) = Ok resp /\
  getSelection (editor live) = js "foo" /\
  is_Some (files (vault live)
             !! Plugin.targetPathOf normalizePath resp req parentFile) /\
  exists w',
    run settings req parentFile (answers (js "BAR")) idle w = Done tt w' /\
    doc (editor w') = js "a foo b" /\
    files (vault w') = files takenVault.
Proof.
  intros req resp w live.
  assert (Hkey : apiKey settings <> []) by (vm_compute; discriminate).
  assert (Hgen : generateNote settings req (answers (js "BAR")) = Ok resp)
    by reflexivity.
  assert (Hsel : getSelection (editor live) = js "foo") by reflexivity.
  assert (Hex : is_Some (files (vault live)
                  !! Plugin.targetPathOf normalizePath resp req parentFile)).
  { exists (js "my own note"). by vm_compute. }
  repeat split; try assumption.
  destruct (collision_inserts_no_link normalizePath numberToString away away
              settings req parentFile (answers (js "BAR")) idle resp w Hkey
              Hgen eq_refl (or_introl Hsel) Hex away_undisturbed)
    as (w' & Hrun & Hdoc & Hfiles & _).
  exists w'. split; [exact Hrun|]. split; [exact Hdoc | exact Hfiles].
Defined.

(** X6 at a structured response whose label is the number 7. *)
Lemma non_string_label_orphans_note_witness :
  let req := request create_note (js "foo") in
  let raw := jsonNoteLabelled (js "Cells") (js "Body") (js "7") in
  let resp := parseResponse raw true in
  let w := world (js "a foo b") 2 5 emptyVault in
  let live := idle (logged w (EvNotice NoticeGenerating)) in
  let target := Plugin.targetPathOf normalizePath resp req parentFile in
  apiKey settings <> [] /\
  generateNote settings req (answers raw) = Ok resp /\
  getSelection (editor live) = js "foo" /\
  existsAt (vault live) target = false /\
  target <> Plugin.targetFolderOf normalizePath req parentFile /\
  toBoolean (anchorLabel resp) = true /\
  (forall s, anchorLabel resp <> JString s) /\
  exists w' evs,
    run settings req parentFile (answers raw) idle w = Done tt w' /\
    doc (editor w') = js "a foo b" /\
    files (vault w') =
      <[ target := Plugin.parentLink parentFile ++ content resp ]>
        (files (vault live)) /\
    log w' = log live ++ evs ++ [EvNoticeHide; EvNotice NoticeFailed].
Proof.
  intros req raw resp w live target.
  assert (Hkey : apiKey settings <> []) by (vm_compute; discriminate).
  assert (Hgen : generateNote settings req (answers raw) = Ok resp)
    by reflexivity.
  assert (Hsel : getSelection (editor live) = js "foo") by reflexivity.
  assert (Hfree : existsAt (vault live) target = false) by (by vm_compute).
  assert (Hne : target <> Plugin.targetFolderOf normalizePath req parentFile)
    by (vm_compute; discriminate).
  assert (Htruthy : toBoolean (anchorLabel resp) = true) by reflexivity.
  assert (Hnot : forall s, anchorLabel resp <> JString s).
  { intros s H. vm_compute in H. discriminate. }
  repeat split; try assumption.
  destruct (non_string_label_orphans_note normalizePath numberToString
              away away settings req parentFile (answers raw) idle resp w
              Hkey Hgen eq_refl (or_introl Hsel) Hfree Hne Htruthy Hnot
              away_undisturbed away_undisturbed)
    as (w' & evs & Hrun & Hdoc & Hfiles & _ & Hlog).
  exists w', evs.
  split; [exact Hrun|]. split; [exact Hdoc|]. split; [exact Hfiles|exact Hlog].
Defined.

(** X7 at a padded reply. *)
Lemma in_place_parse_ignores_padding_witness :
  forallb isWhiteSpace (js "  ") = true /\
  forallb isWhiteSpace [LF] = true /\
  parseResponse (js "  " ++ js "hi" ++ [LF]) false
    = parseResponse (js "hi") false.
Proof.
  split; [reflexivity|]. split; [reflexivity|].
  exact (in_place_parse_ignores_padding (js "  ") (js "hi") [LF]
           eq_refl eq_refl).
Defined.

(** X8 at a padded object. *)
Lemma structured_parse_ignores_padding_witness :
  let raw := jsonNote (js "T") (js "C") in
  forallb isWhiteSpace [LF] = true /\
  forallb isWhiteSpace (js " ") = true /\
  parseResponse ([LF] ++ raw ++ js " ") true =
    if isFallback (parseResponse raw true)
    then fallbackResponse ([LF] ++ raw ++ js " ")
    else parseResponse raw true.
Proof.
  intros raw. split; [reflexivity|]. split; [reflexivity|].
  exact (structured_parse_ignores_padding [LF] raw (js " ")
           eq_refl eq_refl).
Defined.

(** X9 at an object announced by a sentence. *)
Lemma brace_extraction_recovers_object_witness :
  let mid := [QUOTE] ++ js "title" ++ [QUOTE] ++ js ":" ++ [QUOTE] ++ js "T"
             ++ [QUOTE] ++ js "," ++ [QUOTE] ++ js "content" ++ [QUOTE]
             ++ js ":" ++ [QUOTE] ++ js "C" ++ [QUOTE] in
  let t := cu "{" :: mid ++ [cu "}"] in
  let raw := js "Here it is: " ++ t ++ js " Enjoy." in
  tryStructured (cleanJson raw) = None /\
  jsonSubstring raw = Some t /\
  parseResponse raw true =
    {| title := js "T"; content := js "C"; anchorLabel := JUndefined;
       isFallback := false |}.
Proof.
  intros mid t raw.
  assert (H : tryStructured (cleanJson raw) = None) by (by vm_compute).
  split; [exact H|].
  destruct (brace_extraction_recovers_object (js "Here it is: ") mid
              (js " Enjoy.") eq_refl eq_refl H) as [Hsub Hparse].
  split; [exact Hsub|]. eapply eq_trans; [exact Hparse|]. by vm_compute.
Defined.

(** X10 at a title made of illegal characters and white space only. *)
Lemma safe_title_is_clean_witness :
  let resp := {| title := js " ?*? "; content := js "C";
                 anchorLabel := JUndefined; isFallback := false |} in
  forallb (fun c => Plugin.isIllegalInFileName c || isWhiteSpace c)
          (title resp) = true /\
  Plugin.safeTitleOf resp = [] /\
  Plugin.targetPathOf normalizePath resp (request create_note (js "foo"))
    parentFile = js "notes/.md".
Proof.
  intros resp. split; [reflexivity|].
  destruct (safe_title_is_clean resp) as (_ & _ & _ & Hblank).
  destruct (Hblank eq_refl) as [Hsafe Hpath].
  split; [exact Hsafe|]. eapply eq_trans; [apply Hpath|]. by vm_compute.
Defined.

(** X11 at a short document with the middle word selected. *)
Lemma context_windows_are_bounded_witness :
  let e := {| doc := js "one two three"; selAnchor := 4; selHead := 7 |} in
  (line (getCursorFrom e) <= 20)%nat /\
  (length (take (selFrom e) (doc e)) <= 1000)%nat /\
  contextBeforeOf e = take (selFrom e) (doc e).
Proof.
  intros e.
  assert (H1 : (line (getCursorFrom e) <= 20)%nat) by (vm_compute; lia).
  assert (H2 : (length (take (selFrom e) (doc e)) <= 1000)%nat)
    by (vm_compute; lia).
  split; [exact H1|]. split; [exact H2|].
  destruct (context_windows_are_bounded e) as (_ & _ & _ & _ & Hb & _).
  exact (Hb H1 H2).
Defined.

(** X12 at a list with one readable file and one that is gone. *)
Lemma background_is_best_effort_witness :
  let v := {| files := {[ js "a.md" := js "A" ]}; folders := ∅ |} in
  let gone := fileAt (js "gone.md") in
  vault_read v (path gone) = None /\
  readBackgroundFiles v ([fileAt (js "a.md")] ++ gone :: []) []
    = readBackgroundFiles v ([fileAt (js "a.md")] ++ []) [].
Proof.
  intros v gone.
  assert (H : vault_read v (path gone) = None) by (by vm_compute).
  split; [exact H|].
  destruct (background_is_best_effort v [fileAt (js "a.md")] [] gone)
    as (_ & Hskip & _).
  exact (Hskip H).
Defined.

(** X13 at a host with the scheme mistyped, a slash at the end and a
    space on each side. *)
Lemma custom_host_address_is_canonical_witness :
  let s := {| apiKey := js "key"; apiHost := js " https:/example.com/ ";
              modelName := js "gemini-pro" |} in
  isWhiteSpace (cu "m") = false /\ cu "m" <> cu "/" /\
  startsWith (js "example.co" ++ [cu "m"]) (js "/") = false /\
  normalizeHost (apiHost s) = js "https://example.com" /\
  requestAddress s =
    js "https://example.com/v1beta/models/gemini-pro:generateContent?key=key".
Proof.
  intros s.
  assert (Hne : cu "m" <> cu "/") by (vm_compute; discriminate).
  split; [reflexivity|]. split; [exact Hne|]. split; [reflexivity|].
  destruct (custom_host_address_is_canonical s (js "example.co") (cu "m")
              (js " ") (js " ")
              (js "https:/" ++ js "example.co" ++ [cu "m"] ++ js "/")
              eq_refl Hne eq_refl eq_refl eq_refl
              (or_intror (or_intror (or_intror (or_introl eq_refl))))
              eq_refl) as [Hhost Haddr].
  split; [exact Hhost | exact Haddr].
Defined.

(** X14 at the body the provider documents. *)
Lemma custom_host_reads_the_text_witness :
  let part := JObject [(js "text", JString (js "hello"))] in
  let content' := JObject [(js "parts", JArray [part])] in
  let candidate := JObject [(js "content", content')] in
  let data := JObject [(js "candidates", JArray [candidate])] in
  200 < 400 /\
  getProp data (js "candidates") = Some (JArray [candidate]) /\
  generateWithCustomHost
    (RequestReturns {| status := 200; json := Some data |})
  = Ok (JString (js "hello")).
Proof.
  intros part content' candidate data.
  assert (Hcode : 200 < 400) by lia.
  split; [exact Hcode|]. split; [reflexivity|].
  refine (custom_host_reads_the_text 200 data candidate [] content' part []
            (js "hello") Hcode eq_refl eq_refl eq_refl eq_refl _).
  discriminate.
Defined.

(** X15 at an object both revisions accept. *)
Lemma legacy_parser_refused_blank_fields_witness :
  let raw := jsonNote (js "T") (js "C") in
  isFallback (Legacy.parseResponse raw) = false /\
  trim (title (Legacy.parseResponse raw)) <> [] /\
  isFallback (parseResponse raw true) = false.
Proof.
  intros raw.
  assert (H : isFallback (Legacy.parseResponse raw) = false)
    by (by vm_compute).
  split; [exact H|].
  destruct legacy_parser_refused_blank_fields as [Hold _].
  destruct (Hold raw H) as (Ht & _ & Hnew).
  split; [exact Ht | exact Hnew].
Defined.

(** X16 at a command run on a selected word. *)
Lemma command_captures_the_selection_witness :
  let w := world (js "a foo b") 2 5 emptyVault in
  handleGenerateCommand (Some parentFile) w
    = Done (Some (js "foo", parentFile)) (logged w EvGetSelection) /\
  js "foo" = getSelection (editor w) /\
  getSelection (editor (world [] 0 0 emptyVault)) = [] /\
  handleGenerateCommand (Some parentFile) (world [] 0 0 emptyVault) =
    Done None (logged (logged (world [] 0 0 emptyVault) EvGetSelection)
                      (EvNotice NoticeSelectFirst)).
Proof.
  intros w.
  assert (H : handleGenerateCommand (Some parentFile) w
              = Done (Some (js "foo", parentFile)) (logged w EvGetSelection))
    by reflexivity.
  split; [exact H|].
  destruct (command_captures_the_selection (Some parentFile) w)
    as (_ & Hgo & _).
  destruct (Hgo _ _ _ H) as (Hsel & _).
  split; [exact Hsel|].
  destruct (command_captures_the_selection (Some parentFile)
              (world [] 0 0 emptyVault)) as (Hempty & _).
  split; [reflexivity | exact (Hempty eq_refl)].
Defined.

End MoreInstances.
